(** * Candidate selector (Xic0/Omegac0 -> Xi pi) and secondary-vertex finder

    A shallow embedding of two O2 analysis tasks:

    - [HfCandidateSelectorToXiPi::process]
      (PWGHF/TableProducer/candidateSelectorToXiPi.cxx), in [Module Selector];
    - [VertexerHFTask::process] (Tasks/vertexerhf.cxx), in [Module Vertexer].

    Conventions of the embedding.

    - A C++ [double] is a binary64 float of the kernel ([PrimFloat.float]).
      A C++ [float] that only takes part in comparisons and [std::abs] is
      embedded at its (exact) [double] value: the source promotes it to
      [double] before every comparison, and the promotion is exact.
    - C++ integers ([int], [int8_t], [uint8_t], row indices) are [Z]; the
      source performs no integer arithmetic on them besides comparisons,
      setting bits 0..3 of an [int], and the conversion of a row index to
      the [int] of a column, which is written out ([Vertexer.toInt]).
    - The task's mutable members (histogram registry, output table) are an
      explicit state threaded through a small state-and-abort monad;
      [LOGF(fatal, ...)] is the abort.
    - Code of the framework that the tasks call but that is not part of the
      two files (PID selectors, track-quality helpers, the DCA fitter,
      physical constants) is an interface whose members are parameters. *)

From Stdlib Require Import ZArith Bool List String Lia.
From Stdlib Require Import Floats.
From Stdlib Require Import FinFun.
From Stdlib Require Import Permutation Sorted.
Import ListNotations.

Set Implicit Arguments.
Set Warnings "-inexact-float".

(** ** Doubles *)

Definition double : Set := float.

(** The C++ comparisons on doubles.  IEEE comparisons are exact; all of them
    answer [false] when an operand is a NaN. *)
Definition dlt (x y : double) : bool := PrimFloat.ltb x y.   (* x <  y *)
Definition dgt (x y : double) : bool := PrimFloat.ltb y x.   (* x >  y *)
Definition dle (x y : double) : bool := PrimFloat.leb x y.   (* x <= y *)
Definition dge (x y : double) : bool := PrimFloat.leb y x.   (* x >= y *)
(** [std::abs] on a double. *)
Definition fabs (x : double) : double := PrimFloat.abs x.

Declare Scope double_scope.
Delimit Scope double_scope with D.
Infix "<" := dlt : double_scope.
Infix ">" := dgt : double_scope.
Infix "<=" := dle : double_scope.
Infix ">=" := dge : double_scope.
Infix "-" := PrimFloat.sub : double_scope.

(** ** Finite sequences of integers, for counted [for] loops *)

(** [for (int ic = 0; ic < n; ic++)] visits [countedRange n]. *)
Definition countedRange (n : Z) : list Z :=
  map Z.of_nat (seq 0 (Z.to_nat n)).

(** ** Facts on IEEE comparisons

    The order tests are related to their specification on [spec_float] by
    the Standard Library's [FloatAxioms]. *)

Module DoubleFacts.

(** IEEE equality identifies two values that are the same datum, or two
    zeros of either sign. *)
Lemma SFeqb_true x y :
  SFeqb x y = true ->
  x = y \/ exists s s', x = S754_zero s /\ y = S754_zero s'.
Proof.
  unfold SFeqb, SFcompare.
  destruct x as [s| s| |s m e], y as [s'| s'| |s' m' e']; try discriminate;
    try (destruct s; discriminate); try (destruct s'; discriminate).
  - intros _. right. eauto.
  - destruct s, s'; try discriminate; intros _; now left.
  - destruct s, s'; try discriminate;
      (destruct (Z.compare e e') eqn:He; try discriminate;
       apply Z.compare_eq in He; subst e';
       destruct (Pos.compare_cont Eq m m') eqn:Hm; try discriminate;
       apply Pos.compare_eq in Hm; subst m'; intros _; now left).
Qed.

Lemma SFcompare_zero_l s s' z :
  SFcompare (S754_zero s) z = SFcompare (S754_zero s') z.
Proof. destruct z; reflexivity. Qed.

Lemma SFcompare_zero_r s s' z :
  SFcompare z (S754_zero s) = SFcompare z (S754_zero s').
Proof. destruct z; reflexivity. Qed.

Lemma SFeqb_compare_l x y z :
  SFeqb x y = true -> SFcompare x z = SFcompare y z.
Proof.
  intros H. destruct (SFeqb_true _ _ H) as [->|(s & s' & -> & ->)];
    [reflexivity | apply SFcompare_zero_l].
Qed.

Lemma SFeqb_compare_r x y z :
  SFeqb x y = true -> SFcompare z x = SFcompare z y.
Proof.
  intros H. destruct (SFeqb_true _ _ H) as [->|(s & s' & -> & ->)];
    [reflexivity | apply SFcompare_zero_r].
Qed.

(** IEEE equality is a congruence for the order tests. *)
Lemma eqb_leb_l x y z :
  PrimFloat.eqb x y = true -> PrimFloat.leb x z = PrimFloat.leb y z.
Proof.
  rewrite eqb_spec, !leb_spec. intros H. unfold SFleb.
  now rewrite (SFeqb_compare_l _ _ (Prim2SF z) H).
Qed.

Lemma eqb_leb_r x y z :
  PrimFloat.eqb x y = true -> PrimFloat.leb z x = PrimFloat.leb z y.
Proof.
  rewrite eqb_spec, !leb_spec. intros H. unfold SFleb.
  now rewrite (SFeqb_compare_r _ _ (Prim2SF z) H).
Qed.

(** [x == y] gives [x <= y]. *)
Lemma eqb_leb x y : PrimFloat.eqb x y = true -> PrimFloat.leb x y = true.
Proof.
  rewrite eqb_spec, leb_spec. unfold SFeqb, SFleb.
  now destruct (SFcompare (Prim2SF x) (Prim2SF y)) as [[]|].
Qed.

(** A value that is comparable to something is equal to itself. *)
Lemma leb_eqb_refl_l x y : PrimFloat.leb x y = true -> PrimFloat.eqb x x = true.
Proof.
  rewrite eqb_spec, leb_spec. unfold SFeqb, SFleb, SFcompare.
  destruct (Prim2SF x) as [s| s| |s m e], (Prim2SF y) as [s'| s'| |s' m' e'];
    try discriminate; intros _; try reflexivity; try (now destruct s).
  all: destruct s; rewrite Z.compare_refl, Pos.compare_cont_refl; reflexivity.
Qed.

Lemma fabs_opp x : fabs (PrimFloat.opp x) = fabs x.
Proof.
  unfold fabs. apply Prim2SF_inj. rewrite !abs_spec, opp_spec.
  now destruct (Prim2SF x).
Qed.

(** At the edge of a window: when the deviation [d] equals the tolerance
    [w] or its opposite, [|d| < w] is false. *)
Lemma dlt_fabs_at_tolerance d w :
  PrimFloat.eqb d w = true \/ PrimFloat.eqb d (PrimFloat.opp w) = true ->
  dlt (fabs d) w = false.
Proof.
  unfold dlt, fabs. rewrite !eqb_spec, ltb_spec, abs_spec, opp_spec.
  intros [H|H]; apply SFeqb_true in H.
  - destruct H as [->|(s & s' & -> & ->)]; [|reflexivity].
    unfold SFltb, SFcompare, SFabs.
    destruct (Prim2SF w) as [s| s| |s m e]; try reflexivity;
      try (now destruct s).
    destruct s; [reflexivity|].
    now rewrite Z.compare_refl, Pos.compare_cont_refl.
  - destruct H as [->|(s & s' & -> & H)].
    + unfold SFltb, SFcompare, SFabs, SFopp.
      destruct (Prim2SF w) as [s| s| |s m e]; try reflexivity;
        try (now destruct s).
      destruct s; simpl; [reflexivity|].
      now rewrite Z.compare_refl, Pos.compare_cont_refl.
    + destruct (Prim2SF w) as [s0| s0| |s0 m e]; try discriminate.
      reflexivity.
Qed.

End DoubleFacts.

Module Selector.

(** *** Configuration: the [Configurable] members of the task *)

Record Config : Set := {
  (* LF analysis selections *)
  radiusCascMin : double;
  radiusV0Min : double;
  cosPAV0Min : double;
  cosPACascMin : double;
  dcaCascDauMax : double;
  dcaV0DauMax : double;
  dcaBachToPvMin : double;       (* Configurable<float> *)
  dcaNegToPvMin : double;        (* Configurable<float> *)
  dcaPosToPvMin : double;        (* Configurable<float> *)
  v0MassWindow : double;         (* Configurable<float> *)
  cascadeMassWindow : double;    (* Configurable<float> *)
  applyTrkSelLf : bool;
  (* limit charm baryon invariant mass spectrum *)
  invMassCharmBaryonMin : double;
  invMassCharmBaryonMax : double;
  (* kinematic selections *)
  etaTrackCharmBachMax : double;
  etaTrackLFDauMax : double;
  ptPiFromCascMin : double;
  ptPiFromCharmBaryonMin : double;
  impactParameterXYPiFromCharmBaryonMin : double;
  impactParameterXYPiFromCharmBaryonMax : double;
  impactParameterZPiFromCharmBaryonMin : double;
  impactParameterZPiFromCharmBaryonMax : double;
  impactParameterXYCascMin : double;
  impactParameterXYCascMax : double;
  impactParameterZCascMin : double;
  impactParameterZCascMax : double;
  ptCandMin : double;
  ptCandMax : double;
  dcaCharmBaryonDauMax : double;
  (* PID options *)
  usePidTpcOnly : bool;
  usePidTpcTofCombined : bool;
  (* PID - TPC selections *)
  ptPiPidTpcMin : double;
  ptPiPidTpcMax : double;
  nSigmaTpcPiMax : double;
  nSigmaTpcCombinedPiMax : double;
  ptPrPidTpcMin : double;
  ptPrPidTpcMax : double;
  nSigmaTpcPrMax : double;
  nSigmaTpcCombinedPrMax : double;
  (* PID - TOF selections *)
  ptPiPidTofMin : double;
  ptPiPidTofMax : double;
  nSigmaTofPiMax : double;
  nSigmaTofCombinedPiMax : double;
  ptPrPidTofMin : double;
  ptPrPidTofMax : double;
  nSigmaTofPrMax : double;
  nSigmaTofCombinedPrMax : double;
  (* detector track quality selections *)
  nClustersTpcMin : Z;
  nTpcCrossedRowsMin : Z;
  tpcCrossedRowsOverFindableClustersRatioMin : double;
  tpcChi2PerClusterMax : double; (* Configurable<float> *)
  nClustersItsMin : Z;
  nClustersItsInnBarrMin : Z;
  itsChi2PerClusterMax : double  (* Configurable<float> *)
}.

(** *** One row of [aod::HfCandToXiPi]: the columns [process] reads *)

Record Candidate : Set := {
  posTrackId : Z;
  negTrackId : Z;
  bachelorId : Z;
  bachelorFromCharmBaryonId : Z;
  signDecay : Z;                 (* int8_t *)
  etaV0PosDau : double;
  etaV0NegDau : double;
  etaBachFromCasc : double;
  etaBachFromCharmBaryon : double;
  xDecayVtxCascade : double;
  yDecayVtxCascade : double;
  xDecayVtxV0 : double;
  yDecayVtxV0 : double;
  cosPACasc : double;
  cosPAV0 : double;
  dcaCascDau : double;
  dcaV0Dau : double;
  dcaCharmBaryonDau : double;
  dcaXYToPvV0Dau0 : double;
  dcaXYToPvV0Dau1 : double;
  dcaXYToPvCascDau : double;
  impactParBachFromCharmBaryonXY : double;
  impactParBachFromCharmBaryonZ : double;
  impactParCascXY : double;
  impactParCascZ : double;
  pxBachFromCasc : double;
  pyBachFromCasc : double;
  pxBachFromCharmBaryon : double;
  pyBachFromCharmBaryon : double;
  invMassLambda : double;
  invMassCascade : double;
  invMassCharmBaryon : double
}.

(** *** The PID selectors, members [selectorPion] and [selectorProton]

    A [TrackSelectorPID] holds the ranges that [init] hands to its setters. *)

Inductive Species : Set := Pion | Proton.

Record TrackSelectorPID : Set := {
  species : Species;
  rangePtTpc : double * double;
  rangeNSigmaTpc : double * double;
  rangeNSigmaTpcCondTof : double * double;
  rangePtTof : double * double;
  rangeNSigmaTof : double * double;
  rangeNSigmaTofCondTpc : double * double
}.

(** *** Track rows

    [process] is instantiated at two joined track tables ([TracksSel] for the
    charm-baryon bachelor, [TracksSelLf] for the V0 and cascade daughters).
    A row type offers the column getters the source calls, and is accepted by
    the templated framework helpers ([isSelectedTrackTpcQuality],
    [isSelectedTrackItsQuality] of PWGHF/Utils/utilsAnalysis.h and
    [TrackSelectorPID::statusTpc], [statusTpcOrTof]); the helpers are not
    part of the file, so they are members of the interface. *)

Class TrackRow (T : Type) : Type := {
  hasTPC : T -> bool;
  hasTOF : T -> bool;
  tpcNSigmaPi : T -> double;
  tpcNSigmaPr : T -> double;
  tofNSigmaPi : T -> double;
  tofNSigmaPr : T -> double;
  itsNClsInnerBarrel : T -> Z;
  isSelectedTrackTpcQuality : T -> Z -> Z -> double -> double -> bool;
  isSelectedTrackItsQuality : T -> Z -> double -> bool;
  statusTpc : TrackSelectorPID -> T -> Z;
  statusTpcOrTof : TrackSelectorPID -> T -> Z
}.

(** A table addressed by row index: [rawIteratorAt] positions an iterator on
    a row without any range check; the row indices stored in a candidate are
    index columns into these tables. *)
Definition Table (T : Type) : Type := Z -> T.
Definition rawIteratorAt {T : Type} (t : Table T) (i : Z) : T := t i.

(** Constants and free functions of the framework used by [process]. *)
Class Framework : Set := {
  (** [TrackSelectorPID::Accepted] *)
  Accepted : Z;
  (** [RecoDecay::sqrtSumOfSquares] at two arguments *)
  sqrtSumOfSquares : double -> double -> double;
  (** [o2::constants::physics::MassLambda0], [MassXiMinus] *)
  MassLambda0 : double;
  MassXiMinus : double
}.

(** *** Output row of [aod::HfSelToXiPi], in the order of the call at the end
    of the loop body *)

Record HfSelToXiPiRow : Set := {
  row_statusPidLambda : bool;
  row_statusPidCascade : bool;
  row_statusPidCharmBaryon : bool;
  row_statusInvMassLambda : bool;
  row_statusInvMassCascade : bool;
  row_statusInvMassCharmBaryon : bool;
  row_resultSelections : bool;
  row_infoTpcStored : Z;
  row_infoTofStored : Z;
  row_tpcNSigmaPiFromCharmBaryon : double;
  row_tpcNSigmaPiFromCasc : double;
  row_tpcNSigmaPiFromLambda : double;
  row_tpcNSigmaPrFromLambda : double;
  row_tofNSigmaPiFromCharmBaryon : double;
  row_tofNSigmaPiFromCasc : double;
  row_tofNSigmaPiFromLambda : double;
  row_tofNSigmaPrFromLambda : double
}.

(** *** Task state: what [process] mutates

    The histogram registry is kept as the log of its [fill] calls, in the
    order of the calls; a bin content is the number of matching entries
    ([tally]).  [hInvMassCharmBaryon] is the separate [OutputObj<TH1F>].
    [hfSelToXiPi] is the produced table, in emission order. *)

Definition Registry : Set := list (string * double).

Record TaskState : Set := {
  registry : Registry;
  hInvMassCharmBaryon : list double;
  hfSelToXiPi : list HfSelToXiPiRow
}.

Definition tally (r : Registry) (h : string) (v : double) : nat :=
  List.length
    (filter (fun e => String.eqb (fst e) h && PrimFloat.eqb (snd e) v) r).
Arguments tally r h%_string v%_float.

(** *** The monad: state passing with a fatal abort *)

Inductive Outcome (A : Type) : Type :=
| Done (a : A) (st : TaskState)
| Fatal (msg : string) (st : TaskState).
Arguments Fatal {A} msg st.

Definition Task (A : Type) : Type := TaskState -> Outcome A.

Definition ret {A : Type} (a : A) : Task A := fun st => Done a st.

Definition bind {A B : Type} (m : Task A) (k : A -> Task B) : Task B :=
  fun st =>
    match m st with
    | Done a st' => k a st'
    | Fatal msg st' => Fatal msg st'
    end.

Declare Scope task_scope.
Delimit Scope task_scope with task.
Notation "x <- m ;; k" := (bind m (fun x => k))
  (at level 100, m at next level, right associativity) : task_scope.
Notation "' p <- m ;; k" := (bind m (fun x => match x with p => k end))
  (at level 100, p pattern, m at next level, right associativity) : task_scope.
Notation "m ;; k" := (bind m (fun _ => k))
  (at level 100, right associativity) : task_scope.
Open Scope task_scope.

(** [registry.fill(HIST(h), v)] *)
Definition fill (h : string) (v : double) : Task unit :=
  fun st => Done tt {| registry := registry st ++ [(h, v)];
                       hInvMassCharmBaryon := hInvMassCharmBaryon st;
                       hfSelToXiPi := hfSelToXiPi st |}.

Arguments fill h%_string v%_float.

(** [hInvMassCharmBaryon->Fill(v)] *)
Definition fillInvMassCharmBaryon (v : double) : Task unit :=
  fun st => Done tt {| registry := registry st;
                       hInvMassCharmBaryon := hInvMassCharmBaryon st ++ [v];
                       hfSelToXiPi := hfSelToXiPi st |}.

(** The call [hfSelToXiPi(...)] appends one row to the produced table. *)
Definition emit (r : HfSelToXiPiRow) : Task unit :=
  fun st => Done tt {| registry := registry st;
                       hInvMassCharmBaryon := hInvMassCharmBaryon st;
                       hfSelToXiPi := hfSelToXiPi st ++ [r] |}.

(** [LOGF(fatal, msg)]: the process terminates; nothing after it runs. *)
Definition LOGF_fatal {A : Type} (msg : string) : Task A :=
  fun st => Fatal msg st.

(** [if (b) { m }] without an [else]. *)
Definition when (b : bool) (m : Task unit) : Task unit :=
  if b then m else ret tt.

(** The source writes every cut in one shape:
<<
      if (<the cut fails>) {
        resultSelections = false;
        registry.fill(HIST(h), 0);
      } else {
        registry.fill(HIST(h), 1);
      }
>>
    [cut failed h resultSelections] is that statement; it returns the new
    value of the running flag. *)
Definition cut (failed : bool) (h : string) (resultSelections : bool)
  : Task bool :=
  if failed then (fill h 0 ;; ret false)
  else (fill h 1 ;; ret resultSelections).

Arguments cut failed%_bool h%_string resultSelections.

(** ROOT's [SETBIT(n, i)]: [n |= (1 << i)]. *)
Definition SETBIT (n i : Z) : Z := Z.lor n (Z.shiftl 1 i).

(** [enum PidInfoStored] *)
Definition PiFromLam : Z := 0.
Definition PrFromLam : Z := 1.
Definition PiFromCasc : Z := 2.
Definition PiFromCharm : Z := 3.

(** *** [init]

    [init] hands the PID ranges to the two selectors and books the
    histograms.  Booking creates empty histograms, which the fill log
    represents by the empty log.  [init] does not look at [usePidTpcOnly]
    or [usePidTpcTofCombined]. *)

Definition selectorPion (cfg : Config) : TrackSelectorPID :=
  {| species := Pion;
     rangePtTpc := (ptPiPidTpcMin cfg, ptPiPidTpcMax cfg);
     rangeNSigmaTpc := (PrimFloat.opp (nSigmaTpcPiMax cfg), nSigmaTpcPiMax cfg);
     rangeNSigmaTpcCondTof :=
       (PrimFloat.opp (nSigmaTpcCombinedPiMax cfg), nSigmaTpcCombinedPiMax cfg);
     rangePtTof := (ptPiPidTofMin cfg, ptPiPidTofMax cfg);
     rangeNSigmaTof := (PrimFloat.opp (nSigmaTofPiMax cfg), nSigmaTofPiMax cfg);
     rangeNSigmaTofCondTpc :=
       (PrimFloat.opp (nSigmaTofCombinedPiMax cfg), nSigmaTofCombinedPiMax cfg) |}.

Definition selectorProton (cfg : Config) : TrackSelectorPID :=
  {| species := Proton;
     rangePtTpc := (ptPrPidTpcMin cfg, ptPrPidTpcMax cfg);
     rangeNSigmaTpc := (PrimFloat.opp (nSigmaTpcPrMax cfg), nSigmaTpcPrMax cfg);
     rangeNSigmaTpcCondTof :=
       (PrimFloat.opp (nSigmaTpcCombinedPrMax cfg), nSigmaTpcCombinedPrMax cfg);
     rangePtTof := (ptPrPidTofMin cfg, ptPrPidTofMax cfg);
     rangeNSigmaTof := (PrimFloat.opp (nSigmaTofPrMax cfg), nSigmaTofPrMax cfg);
     rangeNSigmaTofCondTpc :=
       (PrimFloat.opp (nSigmaTofCombinedPrMax cfg), nSigmaTofCombinedPrMax cfg) |}.

Definition init : TaskState :=
  {| registry := []; hInvMassCharmBaryon := []; hfSelToXiPi := [] |}.

Definition fatalPidMessage : string :=
  "Check the PID configurables, usePidTpcOnly and usePidTpcTofCombined can't have the same value"%string.

Section Process.

Context {TracksSel TracksSelLf : Type}.
Context {rowSel : TrackRow TracksSel} {rowSelLf : TrackRow TracksSelLf}.
Context {fw : Framework}.

Variable cfg : Config.
Variable tracks : Table TracksSel.
Variable lfTracks : Table TracksSelLf.

(** *** The body of the loop over candidates, lines 205-567 of the source,
    statement by statement.  Local variables keep their names; a variable
    that the source reassigns is rebound. *)

Definition processCandidate (candidate : Candidate) : Task unit :=
  let resultSelections := true in

  let trackV0PosDauId := posTrackId candidate in
  let trackV0NegDauId := negTrackId candidate in
  let trackPiFromCascId := bachelorId candidate in
  let trackPiFromCharmId := bachelorFromCharmBaryonId candidate in
  let trackV0PosDau := rawIteratorAt lfTracks trackV0PosDauId in
  let trackV0NegDau := rawIteratorAt lfTracks trackV0NegDauId in
  let trackPiFromCasc := rawIteratorAt lfTracks trackPiFromCascId in
  let trackPiFromCharm := rawIteratorAt tracks trackPiFromCharmId in

  let trackPiFromLam := trackV0NegDau in
  let trackPrFromLam := trackV0PosDau in

  let signDecay := signDecay candidate in

  '(trackPiFromLam, trackPrFromLam) <-
    (if (signDecay >? 0)%Z then
       (fill "hSelSignDec" 1 ;; ret (trackV0PosDau, trackV0NegDau))
     else if (signDecay <? 0)%Z then
       (fill "hSelSignDec" 0 ;; ret (trackPiFromLam, trackPrFromLam))
     else ret (trackPiFromLam, trackPrFromLam)) ;;

  (* eta selection *)
  let etaV0PosDau := etaV0PosDau candidate in
  let etaV0NegDau := etaV0NegDau candidate in
  let etaPiFromCasc := etaBachFromCasc candidate in
  let etaPiFromCharmBaryon := etaBachFromCharmBaryon candidate in
  resultSelections <-
    cut (fabs etaV0PosDau > etaTrackLFDauMax cfg)%D
        "hSelEtaPosV0Dau" resultSelections ;;
  resultSelections <-
    cut (fabs etaV0NegDau > etaTrackLFDauMax cfg)%D
        "hSelEtaNegV0Dau" resultSelections ;;
  resultSelections <-
    cut (fabs etaPiFromCasc > etaTrackLFDauMax cfg)%D
        "hSelEtaPiFromCasc" resultSelections ;;
  resultSelections <-
    cut (fabs etaPiFromCharmBaryon > etaTrackCharmBachMax cfg)%D
        "hSelEtaPiFromCharm" resultSelections ;;

  (* minimum radius cut (LFcut) *)
  resultSelections <-
    cut (sqrtSumOfSquares (xDecayVtxCascade candidate) (yDecayVtxCascade candidate)
         < radiusCascMin cfg)%D
        "hSelRadCasc" resultSelections ;;
  resultSelections <-
    cut (sqrtSumOfSquares (xDecayVtxV0 candidate) (yDecayVtxV0 candidate)
         < radiusV0Min cfg)%D
        "hSelRadV0" resultSelections ;;

  (* cosPA (LFcut) *)
  resultSelections <-
    cut (cosPACasc candidate < cosPACascMin cfg)%D
        "hSelCosPACasc" resultSelections ;;
  resultSelections <-
    cut (cosPAV0 candidate < cosPAV0Min cfg)%D
        "hSelCosPAV0" resultSelections ;;

  (* cascade and v0 daughters dca cut (LF cut) *)
  resultSelections <-
    cut (dcaCascDau candidate > dcaCascDauMax cfg)%D
        "hSelDCACascDau" resultSelections ;;
  resultSelections <-
    cut (dcaV0Dau candidate > dcaV0DauMax cfg)%D
        "hSelDCAV0Dau" resultSelections ;;

  (* dca charm baryon daughters cut *)
  resultSelections <-
    cut (dcaCharmBaryonDau candidate > dcaCharmBaryonDauMax cfg)%D
        "hSelDCACharmDau" resultSelections ;;

  (* dcaXY v0 daughters to PV cut *)
  resultSelections <-
    cut ((fabs (dcaXYToPvV0Dau0 candidate) < dcaPosToPvMin cfg)%D
         || (fabs (dcaXYToPvV0Dau1 candidate) < dcaNegToPvMin cfg)%D)
        "hSelDcaXYToPvV0Daughters" resultSelections ;;

  (* dcaXY pi <-- cascade to PV cut *)
  resultSelections <-
    cut (fabs (dcaXYToPvCascDau candidate) < dcaBachToPvMin cfg)%D
        "hSelDcaXYToPvPiFromCasc" resultSelections ;;

  (* cut on charm bachelor pion dcaXY and dcaZ *)
  resultSelections <-
    cut ((fabs (impactParBachFromCharmBaryonXY candidate)
          < impactParameterXYPiFromCharmBaryonMin cfg)%D
         || (fabs (impactParBachFromCharmBaryonXY candidate)
             > impactParameterXYPiFromCharmBaryonMax cfg)%D)
        "hSelDCAXYPrimPi" resultSelections ;;
  resultSelections <-
    cut ((fabs (impactParBachFromCharmBaryonZ candidate)
          < impactParameterZPiFromCharmBaryonMin cfg)%D
         || (fabs (impactParBachFromCharmBaryonZ candidate)
             > impactParameterZPiFromCharmBaryonMax cfg)%D)
        "hSelDCAZPrimPi" resultSelections ;;

  (* cut on cascade dcaXY and dcaZ *)
  resultSelections <-
    cut ((fabs (impactParCascXY candidate) < impactParameterXYCascMin cfg)%D
         || (fabs (impactParCascXY candidate) > impactParameterXYCascMax cfg)%D)
        "hSelDCAXYCasc" resultSelections ;;
  resultSelections <-
    cut ((fabs (impactParCascZ candidate) < impactParameterZCascMin cfg)%D
         || (fabs (impactParCascZ candidate) > impactParameterZCascMax cfg)%D)
        "hSelDCAZCasc" resultSelections ;;

  (* pT selections *)
  let ptPiFromCasc :=
    sqrtSumOfSquares (pxBachFromCasc candidate) (pyBachFromCasc candidate) in
  let ptPiFromCharmBaryon :=
    sqrtSumOfSquares (pxBachFromCharmBaryon candidate)
                     (pyBachFromCharmBaryon candidate) in
  resultSelections <-
    cut (fabs ptPiFromCasc < ptPiFromCascMin cfg)%D
        "hSelPtPiFromCasc" resultSelections ;;
  resultSelections <-
    cut (fabs ptPiFromCharmBaryon < ptPiFromCharmBaryonMin cfg)%D
        "hSelPtPiFromCharm" resultSelections ;;

  (* TPC clusters selections *)
  resultSelections <-
    (if applyTrkSelLf cfg then
       resultSelections <-
         cut (negb (isSelectedTrackTpcQuality trackPiFromLam
                      (nClustersTpcMin cfg) (nTpcCrossedRowsMin cfg)
                      (tpcCrossedRowsOverFindableClustersRatioMin cfg)
                      (tpcChi2PerClusterMax cfg)))
             "hSelTPCQualityPiFromLam" resultSelections ;;
       resultSelections <-
         cut (negb (isSelectedTrackTpcQuality trackPrFromLam
                      (nClustersTpcMin cfg) (nTpcCrossedRowsMin cfg)
                      (tpcCrossedRowsOverFindableClustersRatioMin cfg)
                      (tpcChi2PerClusterMax cfg)))
             "hSelTPCQualityPrFromLam" resultSelections ;;
       cut (negb (isSelectedTrackTpcQuality trackPiFromCasc
                    (nClustersTpcMin cfg) (nTpcCrossedRowsMin cfg)
                    (tpcCrossedRowsOverFindableClustersRatioMin cfg)
                    (tpcChi2PerClusterMax cfg)))
           "hSelTPCQualityPiFromCasc" resultSelections
     else ret resultSelections) ;;
  resultSelections <-
    cut (negb (isSelectedTrackTpcQuality trackPiFromCharm
                 (nClustersTpcMin cfg) (nTpcCrossedRowsMin cfg)
                 (tpcCrossedRowsOverFindableClustersRatioMin cfg)
                 (tpcChi2PerClusterMax cfg)))
        "hSelTPCQualityPiFromCharm" resultSelections ;;

  (* ITS clusters selection *)
  resultSelections <-
    cut (negb (isSelectedTrackItsQuality trackPiFromCharm
                 (nClustersItsMin cfg) (itsChi2PerClusterMax cfg))
         || (itsNClsInnerBarrel trackPiFromCharm <? nClustersItsInnBarrMin cfg)%Z)
        "hSelITSQualityPiFromCharm" resultSelections ;;

  (* track-level PID selection *)
  let statusPidPrFromLam := (-999)%Z in
  let statusPidPiFromLam := (-999)%Z in
  let statusPidPiFromCasc := (-999)%Z in
  let statusPidPiFromCharmBaryon := (-999)%Z in

  let infoTpcStored := 0%Z in
  let infoTofStored := 0%Z in

  (if Bool.eqb (usePidTpcOnly cfg) (usePidTpcTofCombined cfg)
   then LOGF_fatal fatalPidMessage
   else ret tt) ;;

  let infoTpcStored :=
    if hasTPC trackPiFromLam then SETBIT infoTpcStored PiFromLam
    else infoTpcStored in
  let infoTpcStored :=
    if hasTPC trackPrFromLam then SETBIT infoTpcStored PrFromLam
    else infoTpcStored in
  let infoTpcStored :=
    if hasTPC trackPiFromCasc then SETBIT infoTpcStored PiFromCasc
    else infoTpcStored in
  let infoTpcStored :=
    if hasTPC trackPiFromCharm then SETBIT infoTpcStored PiFromCharm
    else infoTpcStored in
  let infoTofStored :=
    if hasTOF trackPiFromLam then SETBIT infoTofStored PiFromLam
    else infoTofStored in
  let infoTofStored :=
    if hasTOF trackPrFromLam then SETBIT infoTofStored PrFromLam
    else infoTofStored in
  let infoTofStored :=
    if hasTOF trackPiFromCasc then SETBIT infoTofStored PiFromCasc
    else infoTofStored in
  let infoTofStored :=
    if hasTOF trackPiFromCharm then SETBIT infoTofStored PiFromCharm
    else infoTofStored in

  let '(statusPidPrFromLam, statusPidPiFromLam,
        statusPidPiFromCasc, statusPidPiFromCharmBaryon) :=
    if usePidTpcOnly cfg then
      (statusTpc (selectorProton cfg) trackPrFromLam,
       statusTpc (selectorPion cfg) trackPiFromLam,
       statusTpc (selectorPion cfg) trackPiFromCasc,
       statusTpc (selectorPion cfg) trackPiFromCharm)
    else if usePidTpcTofCombined cfg then
      (statusTpcOrTof (selectorProton cfg) trackPrFromLam,
       statusTpcOrTof (selectorPion cfg) trackPiFromLam,
       statusTpcOrTof (selectorPion cfg) trackPiFromCasc,
       statusTpcOrTof (selectorPion cfg) trackPiFromCharm)
    else
      (statusPidPrFromLam, statusPidPiFromLam,
       statusPidPiFromCasc, statusPidPiFromCharmBaryon) in

  statusPidLambda <-
    (if (statusPidPrFromLam =? Accepted)%Z && (statusPidPiFromLam =? Accepted)%Z
     then (when resultSelections (fill "hStatusCheck" 0.5) ;; ret true)
     else ret false) ;;

  statusPidCascade <-
    (if (statusPidPrFromLam =? Accepted)%Z && (statusPidPiFromLam =? Accepted)%Z
        && (statusPidPiFromCasc =? Accepted)%Z
     then (when resultSelections (fill "hStatusCheck" 1.5) ;; ret true)
     else ret false) ;;

  statusPidCharmBaryon <-
    (if (statusPidPrFromLam =? Accepted)%Z && (statusPidPiFromLam =? Accepted)%Z
        && (statusPidPiFromCasc =? Accepted)%Z
        && (statusPidPiFromCharmBaryon =? Accepted)%Z
     then (when resultSelections (fill "hStatusCheck" 2.5) ;; ret true)
     else ret false) ;;

  (* invariant mass cuts *)
  let invMassLambda := invMassLambda candidate in
  let invMassCascade := invMassCascade candidate in
  let invMassCharmBaryon := invMassCharmBaryon candidate in

  statusInvMassLambda <-
    (if (fabs (invMassLambda - MassLambda0) < v0MassWindow cfg)%D then
       (fill "hSelMassLam" 1 ;;
        when (statusPidLambda && statusPidCascade && statusPidCharmBaryon
              && resultSelections)
             (fill "hStatusCheck" 3.5) ;;
        ret true)
     else (fill "hSelMassLam" 0 ;; ret false)) ;;

  statusInvMassCascade <-
    (if (fabs (invMassCascade - MassXiMinus) < cascadeMassWindow cfg)%D then
       (fill "hSelMassCasc" 1 ;;
        when (statusPidLambda && statusPidCascade && statusPidCharmBaryon
              && statusInvMassLambda && resultSelections)
             (fill "hStatusCheck" 4.5) ;;
        ret true)
     else (fill "hSelMassCasc" 0 ;; ret false)) ;;

  statusInvMassCharmBaryon <-
    (if (invMassCharmBaryon >= invMassCharmBaryonMin cfg)%D
        && (invMassCharmBaryon <= invMassCharmBaryonMax cfg)%D then
       (fill "hSelMassCharmBaryon" 1 ;;
        when (statusPidLambda && statusPidCascade && statusPidCharmBaryon
              && statusInvMassLambda && statusInvMassCascade
              && resultSelections)
             (fill "hStatusCheck" 5.5) ;;
        ret true)
     else (fill "hSelMassCharmBaryon" 0 ;; ret false)) ;;

  emit {| row_statusPidLambda := statusPidLambda;
          row_statusPidCascade := statusPidCascade;
          row_statusPidCharmBaryon := statusPidCharmBaryon;
          row_statusInvMassLambda := statusInvMassLambda;
          row_statusInvMassCascade := statusInvMassCascade;
          row_statusInvMassCharmBaryon := statusInvMassCharmBaryon;
          row_resultSelections := resultSelections;
          row_infoTpcStored := infoTpcStored;
          row_infoTofStored := infoTofStored;
          row_tpcNSigmaPiFromCharmBaryon := tpcNSigmaPi trackPiFromCharm;
          row_tpcNSigmaPiFromCasc := tpcNSigmaPi trackPiFromCasc;
          row_tpcNSigmaPiFromLambda := tpcNSigmaPi trackPiFromLam;
          row_tpcNSigmaPrFromLambda := tpcNSigmaPr trackPrFromLam;
          row_tofNSigmaPiFromCharmBaryon := tofNSigmaPi trackPiFromCharm;
          row_tofNSigmaPiFromCasc := tofNSigmaPi trackPiFromCasc;
          row_tofNSigmaPiFromLambda := tofNSigmaPi trackPiFromLam;
          row_tofNSigmaPrFromLambda := tofNSigmaPr trackPrFromLam |} ;;

  when resultSelections
    (when (negb statusPidLambda) (fill "hSelPID" 0.5) ;;
     when statusPidLambda (fill "hSelPID" 1.5) ;;
     when (negb statusPidCascade) (fill "hSelPID" 2.5) ;;
     when statusPidCascade (fill "hSelPID" 3.5) ;;
     when (negb statusPidCharmBaryon) (fill "hSelPID" 4.5) ;;
     when statusPidCharmBaryon (fill "hSelPID" 5.5) ;;
     when (negb statusInvMassLambda) (fill "hSelPID" 6.5) ;;
     when statusInvMassLambda (fill "hSelPID" 7.5) ;;
     when (negb statusInvMassCascade) (fill "hSelPID" 8.5) ;;
     when statusInvMassCascade (fill "hSelPID" 9.5) ;;
     when (negb statusInvMassCharmBaryon) (fill "hSelPID" 10.5) ;;
     when statusInvMassCharmBaryon (fill "hSelPID" 11.5)) ;;

  when (statusPidLambda && statusPidCascade && statusPidCharmBaryon
        && statusInvMassLambda && statusInvMassCascade
        && statusInvMassCharmBaryon && resultSelections)
       (fillInvMassCharmBaryon invMassCharmBaryon).

(** *** Closed forms of what the loop body computes

    Each definition below names one quantity of the loop body as a function
    of the candidate; the theorems relate them to [processCandidate]. *)

(** The tracks of the candidate. *)
Definition trackV0PosDau (c : Candidate) : TracksSelLf :=
  rawIteratorAt lfTracks (posTrackId c).
Definition trackV0NegDau (c : Candidate) : TracksSelLf :=
  rawIteratorAt lfTracks (negTrackId c).
Definition trackPiFromCasc (c : Candidate) : TracksSelLf :=
  rawIteratorAt lfTracks (bachelorId c).
Definition trackPiFromCharm (c : Candidate) : TracksSel :=
  rawIteratorAt tracks (bachelorFromCharmBaryonId c).

(** The V0 daughters by role. *)
Definition trackPiFromLam (c : Candidate) : TracksSelLf :=
  if (signDecay c >? 0)%Z then trackV0PosDau c else trackV0NegDau c.
Definition trackPrFromLam (c : Candidate) : TracksSelLf :=
  if (signDecay c >? 0)%Z then trackV0NegDau c else trackV0PosDau c.

(** The individual predicates, each in its passing form: the negation of
    the condition under which the source clears [resultSelections]. *)
Definition passEtaV0PosDau c := negb (fabs (etaV0PosDau c) > etaTrackLFDauMax cfg)%D.
Definition passEtaV0NegDau c := negb (fabs (etaV0NegDau c) > etaTrackLFDauMax cfg)%D.
Definition passEtaPiFromCasc c := negb (fabs (etaBachFromCasc c) > etaTrackLFDauMax cfg)%D.
Definition passEtaPiFromCharm c :=
  negb (fabs (etaBachFromCharmBaryon c) > etaTrackCharmBachMax cfg)%D.
Definition passRadiusCasc c :=
  negb (sqrtSumOfSquares (xDecayVtxCascade c) (yDecayVtxCascade c) < radiusCascMin cfg)%D.
Definition passRadiusV0 c :=
  negb (sqrtSumOfSquares (xDecayVtxV0 c) (yDecayVtxV0 c) < radiusV0Min cfg)%D.
Definition passCosPACasc c := negb (cosPACasc c < cosPACascMin cfg)%D.
Definition passCosPAV0 c := negb (cosPAV0 c < cosPAV0Min cfg)%D.
Definition passDcaCascDau c := negb (dcaCascDau c > dcaCascDauMax cfg)%D.
Definition passDcaV0Dau c := negb (dcaV0Dau c > dcaV0DauMax cfg)%D.
Definition passDcaCharmBaryonDau c :=
  negb (dcaCharmBaryonDau c > dcaCharmBaryonDauMax cfg)%D.
Definition passDcaPosToPv c := negb (fabs (dcaXYToPvV0Dau0 c) < dcaPosToPvMin cfg)%D.
Definition passDcaNegToPv c := negb (fabs (dcaXYToPvV0Dau1 c) < dcaNegToPvMin cfg)%D.
Definition passDcaBachToPv c := negb (fabs (dcaXYToPvCascDau c) < dcaBachToPvMin cfg)%D.
Definition passImpParXYPiFromCharmMin c :=
  negb (fabs (impactParBachFromCharmBaryonXY c)
        < impactParameterXYPiFromCharmBaryonMin cfg)%D.
Definition passImpParXYPiFromCharmMax c :=
  negb (fabs (impactParBachFromCharmBaryonXY c)
        > impactParameterXYPiFromCharmBaryonMax cfg)%D.
Definition passImpParZPiFromCharmMin c :=
  negb (fabs (impactParBachFromCharmBaryonZ c)
        < impactParameterZPiFromCharmBaryonMin cfg)%D.
Definition passImpParZPiFromCharmMax c :=
  negb (fabs (impactParBachFromCharmBaryonZ c)
        > impactParameterZPiFromCharmBaryonMax cfg)%D.
Definition passImpParXYCascMin c :=
  negb (fabs (impactParCascXY c) < impactParameterXYCascMin cfg)%D.
Definition passImpParXYCascMax c :=
  negb (fabs (impactParCascXY c) > impactParameterXYCascMax cfg)%D.
Definition passImpParZCascMin c :=
  negb (fabs (impactParCascZ c) < impactParameterZCascMin cfg)%D.
Definition passImpParZCascMax c :=
  negb (fabs (impactParCascZ c) > impactParameterZCascMax cfg)%D.
Definition passPtPiFromCasc c :=
  negb (fabs (sqrtSumOfSquares (pxBachFromCasc c) (pyBachFromCasc c))
        < ptPiFromCascMin cfg)%D.
Definition passPtPiFromCharm c :=
  negb (fabs (sqrtSumOfSquares (pxBachFromCharmBaryon c) (pyBachFromCharmBaryon c))
        < ptPiFromCharmBaryonMin cfg)%D.
Definition tpcQuality {T : Type} {R : TrackRow T} (t : T) : bool :=
  isSelectedTrackTpcQuality t (nClustersTpcMin cfg) (nTpcCrossedRowsMin cfg)
    (tpcCrossedRowsOverFindableClustersRatioMin cfg) (tpcChi2PerClusterMax cfg).
Definition passTpcQualityPiFromLam c := tpcQuality (trackPiFromLam c).
Definition passTpcQualityPrFromLam c := tpcQuality (trackPrFromLam c).
Definition passTpcQualityPiFromCasc c := tpcQuality (trackPiFromCasc c).
Definition passTpcQualityPiFromCharm c := tpcQuality (trackPiFromCharm c).
Definition passItsQualityPiFromCharm c :=
  isSelectedTrackItsQuality (trackPiFromCharm c)
    (nClustersItsMin cfg) (itsChi2PerClusterMax cfg).
Definition passItsInnerBarrelPiFromCharm c :=
  negb (itsNClsInnerBarrel (trackPiFromCharm c) <? nClustersItsInnBarrMin cfg)%Z.

(** The PID verdicts of the four tracks. *)
Definition pidStatus {T : Type} {R : TrackRow T}
  (sel : TrackSelectorPID) (t : T) : Z :=
  if usePidTpcOnly cfg then statusTpc sel t
  else if usePidTpcTofCombined cfg then statusTpcOrTof sel t
  else (-999)%Z.
Definition acceptedPrFromLam c :=
  (pidStatus (selectorProton cfg) (trackPrFromLam c) =? Accepted)%Z.
Definition acceptedPiFromLam c :=
  (pidStatus (selectorPion cfg) (trackPiFromLam c) =? Accepted)%Z.
Definition acceptedPiFromCasc c :=
  (pidStatus (selectorPion cfg) (trackPiFromCasc c) =? Accepted)%Z.
Definition acceptedPiFromCharm c :=
  (pidStatus (selectorPion cfg) (trackPiFromCharm c) =? Accepted)%Z.

(** The mass-window tests. *)
Definition inMassWindowLambda c :=
  (fabs (invMassLambda c - MassLambda0) < v0MassWindow cfg)%D.
Definition inMassWindowCascade c :=
  (fabs (invMassCascade c - MassXiMinus) < cascadeMassWindow cfg)%D.
Definition inMassRangeCharmBaryon c :=
  (invMassCharmBaryon c >= invMassCharmBaryonMin cfg)%D
  && (invMassCharmBaryon c <= invMassCharmBaryonMax cfg)%D.

(** The detector-presence bitmasks. *)
Definition detectorMask (bPiLam bPrLam bPiCasc bPiCharm : bool) : Z :=
  let info := 0%Z in
  let info := if bPiLam then SETBIT info PiFromLam else info in
  let info := if bPrLam then SETBIT info PrFromLam else info in
  let info := if bPiCasc then SETBIT info PiFromCasc else info in
  if bPiCharm then SETBIT info PiFromCharm else info.

(** A configuration is valid for PID when exactly one of the two modes is
    switched on. *)
Definition validPid : bool :=
  negb (Bool.eqb (usePidTpcOnly cfg) (usePidTpcTofCombined cfg)).

(** Appending a batch of fills to the registry. *)
Definition pushFills (l : Registry) (st : TaskState) : TaskState :=
  {| registry := registry st ++ l;
     hInvMassCharmBaryon := hInvMassCharmBaryon st;
     hfSelToXiPi := hfSelToXiPi st |}.

(** The entry a cut statement writes: bin 1 when it passes, bin 0 when not. *)
Definition cutFill (h : string) (pass : bool) : string * double :=
  (h, if pass then 1%float else 0%float).

(** The composite flags. *)
Definition passDcaXYToPvV0Daughters c := passDcaPosToPv c && passDcaNegToPv c.
Definition passImpParXYPiFromCharm c :=
  passImpParXYPiFromCharmMin c && passImpParXYPiFromCharmMax c.
Definition passImpParZPiFromCharm c :=
  passImpParZPiFromCharmMin c && passImpParZPiFromCharmMax c.
Definition passImpParXYCasc c := passImpParXYCascMin c && passImpParXYCascMax c.
Definition passImpParZCasc c := passImpParZCascMin c && passImpParZCascMax c.
Definition passItsPiFromCharm c :=
  passItsQualityPiFromCharm c && passItsInnerBarrelPiFromCharm c.

(** The running flag after the cuts that precede the [applyTrkSelLf] block. *)
Definition kinematicFlag c : bool :=
  passEtaV0PosDau c && passEtaV0NegDau c && passEtaPiFromCasc c
  && passEtaPiFromCharm c
  && passRadiusCasc c && passRadiusV0 c
  && passCosPACasc c && passCosPAV0 c
  && passDcaCascDau c && passDcaV0Dau c && passDcaCharmBaryonDau c
  && passDcaXYToPvV0Daughters c && passDcaBachToPv c
  && passImpParXYPiFromCharm c && passImpParZPiFromCharm c
  && passImpParXYCasc c && passImpParZCasc c
  && passPtPiFromCasc c && passPtPiFromCharm c.

(** The value of [resultSelections] when the row is emitted. *)
Definition topologicalFlag c : bool :=
  (if applyTrkSelLf cfg then
     kinematicFlag c && passTpcQualityPiFromLam c && passTpcQualityPrFromLam c
     && passTpcQualityPiFromCasc c
   else kinematicFlag c)
  && passTpcQualityPiFromCharm c && passItsPiFromCharm c.

Definition statusPidLambda c := acceptedPrFromLam c && acceptedPiFromLam c.
Definition statusPidCascade c :=
  acceptedPrFromLam c && acceptedPiFromLam c && acceptedPiFromCasc c.
Definition statusPidCharmBaryon c :=
  acceptedPrFromLam c && acceptedPiFromLam c && acceptedPiFromCasc c
  && acceptedPiFromCharm c.

(** The row emitted for a candidate. *)
Definition selectionRow c : HfSelToXiPiRow :=
  {| row_statusPidLambda := statusPidLambda c;
     row_statusPidCascade := statusPidCascade c;
     row_statusPidCharmBaryon := statusPidCharmBaryon c;
     row_statusInvMassLambda := inMassWindowLambda c;
     row_statusInvMassCascade := inMassWindowCascade c;
     row_statusInvMassCharmBaryon := inMassRangeCharmBaryon c;
     row_resultSelections := topologicalFlag c;
     row_infoTpcStored :=
       detectorMask (hasTPC (trackPiFromLam c)) (hasTPC (trackPrFromLam c))
                    (hasTPC (trackPiFromCasc c)) (hasTPC (trackPiFromCharm c));
     row_infoTofStored :=
       detectorMask (hasTOF (trackPiFromLam c)) (hasTOF (trackPrFromLam c))
                    (hasTOF (trackPiFromCasc c)) (hasTOF (trackPiFromCharm c));
     row_tpcNSigmaPiFromCharmBaryon := tpcNSigmaPi (trackPiFromCharm c);
     row_tpcNSigmaPiFromCasc := tpcNSigmaPi (trackPiFromCasc c);
     row_tpcNSigmaPiFromLambda := tpcNSigmaPi (trackPiFromLam c);
     row_tpcNSigmaPrFromLambda := tpcNSigmaPr (trackPrFromLam c);
     row_tofNSigmaPiFromCharmBaryon := tofNSigmaPi (trackPiFromCharm c);
     row_tofNSigmaPiFromCasc := tofNSigmaPi (trackPiFromCasc c);
     row_tofNSigmaPiFromLambda := tofNSigmaPi (trackPiFromLam c);
     row_tofNSigmaPrFromLambda := tofNSigmaPr (trackPrFromLam c) |}.

(** The fills of one candidate, block by block, in the order of the calls. *)
Definition signFills c : Registry :=
  if (signDecay c >? 0)%Z then [("hSelSignDec"%string, 1%float)]
  else if (signDecay c <? 0)%Z then [("hSelSignDec"%string, 0%float)]
  else [].

Definition kinematicFills c : Registry :=
  [ cutFill "hSelEtaPosV0Dau" (passEtaV0PosDau c);
    cutFill "hSelEtaNegV0Dau" (passEtaV0NegDau c);
    cutFill "hSelEtaPiFromCasc" (passEtaPiFromCasc c);
    cutFill "hSelEtaPiFromCharm" (passEtaPiFromCharm c);
    cutFill "hSelRadCasc" (passRadiusCasc c);
    cutFill "hSelRadV0" (passRadiusV0 c);
    cutFill "hSelCosPACasc" (passCosPACasc c);
    cutFill "hSelCosPAV0" (passCosPAV0 c);
    cutFill "hSelDCACascDau" (passDcaCascDau c);
    cutFill "hSelDCAV0Dau" (passDcaV0Dau c);
    cutFill "hSelDCACharmDau" (passDcaCharmBaryonDau c);
    cutFill "hSelDcaXYToPvV0Daughters" (passDcaXYToPvV0Daughters c);
    cutFill "hSelDcaXYToPvPiFromCasc" (passDcaBachToPv c);
    cutFill "hSelDCAXYPrimPi" (passImpParXYPiFromCharm c);
    cutFill "hSelDCAZPrimPi" (passImpParZPiFromCharm c);
    cutFill "hSelDCAXYCasc" (passImpParXYCasc c);
    cutFill "hSelDCAZCasc" (passImpParZCasc c);
    cutFill "hSelPtPiFromCasc" (passPtPiFromCasc c);
    cutFill "hSelPtPiFromCharm" (passPtPiFromCharm c) ].

Definition qualityFills c : Registry :=
  (if applyTrkSelLf cfg then
     [ cutFill "hSelTPCQualityPiFromLam" (passTpcQualityPiFromLam c);
       cutFill "hSelTPCQualityPrFromLam" (passTpcQualityPrFromLam c);
       cutFill "hSelTPCQualityPiFromCasc" (passTpcQualityPiFromCasc c) ]
   else [])
  ++ [ cutFill "hSelTPCQualityPiFromCharm" (passTpcQualityPiFromCharm c);
       cutFill "hSelITSQualityPiFromCharm" (passItsPiFromCharm c) ].

(** Everything written before the PID configuration is looked at. *)
Definition topologicalFills c : Registry :=
  signFills c ++ kinematicFills c ++ qualityFills c.

Definition fillIf (b : bool) (h : string) (v : double) : Registry :=
  if b then [(h, v)] else [].
Arguments fillIf b%_bool h%_string v%_float.

Definition pidFlagFills c : Registry :=
  fillIf (statusPidLambda c && topologicalFlag c) "hStatusCheck" 0.5
  ++ fillIf (statusPidCascade c && topologicalFlag c) "hStatusCheck" 1.5
  ++ fillIf (statusPidCharmBaryon c && topologicalFlag c) "hStatusCheck" 2.5.

Definition allPid c : bool :=
  statusPidLambda c && statusPidCascade c && statusPidCharmBaryon c.

Definition massFills c : Registry :=
  [cutFill "hSelMassLam" (inMassWindowLambda c)]
  ++ fillIf (inMassWindowLambda c && (allPid c && topologicalFlag c))
            "hStatusCheck" 3.5
  ++ [cutFill "hSelMassCasc" (inMassWindowCascade c)]
  ++ fillIf (inMassWindowCascade c
             && (allPid c && inMassWindowLambda c && topologicalFlag c))
            "hStatusCheck" 4.5
  ++ [cutFill "hSelMassCharmBaryon" (inMassRangeCharmBaryon c)]
  ++ fillIf (inMassRangeCharmBaryon c
             && (allPid c && inMassWindowLambda c && inMassWindowCascade c
                 && topologicalFlag c))
            "hStatusCheck" 5.5.

Definition selPidFills c : Registry :=
  if topologicalFlag c then
    fillIf (negb (statusPidLambda c)) "hSelPID" 0.5
    ++ fillIf (statusPidLambda c) "hSelPID" 1.5
    ++ fillIf (negb (statusPidCascade c)) "hSelPID" 2.5
    ++ fillIf (statusPidCascade c) "hSelPID" 3.5
    ++ fillIf (negb (statusPidCharmBaryon c)) "hSelPID" 4.5
    ++ fillIf (statusPidCharmBaryon c) "hSelPID" 5.5
    ++ fillIf (negb (inMassWindowLambda c)) "hSelPID" 6.5
    ++ fillIf (inMassWindowLambda c) "hSelPID" 7.5
    ++ fillIf (negb (inMassWindowCascade c)) "hSelPID" 8.5
    ++ fillIf (inMassWindowCascade c) "hSelPID" 9.5
    ++ fillIf (negb (inMassRangeCharmBaryon c)) "hSelPID" 10.5
    ++ fillIf (inMassRangeCharmBaryon c) "hSelPID" 11.5
  else [].

Definition candidateFills c : Registry :=
  topologicalFills c ++ pidFlagFills c ++ massFills c ++ selPidFills c.

(** The candidate passes every gate. *)
Definition fullySelected c : bool :=
  allPid c && inMassWindowLambda c && inMassWindowCascade c
  && inMassRangeCharmBaryon c && topologicalFlag c.

(** The state after a candidate has been processed to the end. *)
Definition afterCandidate (c : Candidate) (st : TaskState) : TaskState :=
  {| registry := registry st ++ candidateFills c;
     hInvMassCharmBaryon :=
       hInvMassCharmBaryon st
       ++ (if fullySelected c then [invMassCharmBaryon c] else []);
     hfSelToXiPi := hfSelToXiPi st ++ [selectionRow c] |}.

(** [for (const auto& candidate : candidates) { ... }] *)
Fixpoint forCandidates (candidates : list Candidate) : Task unit :=
  match candidates with
  | [] => ret tt
  | candidate :: rest => processCandidate candidate ;; forCandidates rest
  end.

(** [process(candidates, tracks, lfTracks)]; the two reference masses read
    before the loop are the constants [MassLambda0] and [MassXiMinus]. *)
Definition process (candidates : list Candidate) : Task unit :=
  forCandidates candidates.

(** What it means for the V0 daughters to be used in given roles: [pi] as
    the pion and [pr] as the proton, in the PID scores and verdicts, the
    detector-presence masks and the light-flavour track-quality cuts of a
    candidate processed from [st] to [st'] with emitted row [row]. *)
Definition RolesUsed (pi pr : TracksSelLf) (c : Candidate)
           (st st' : TaskState) (row : HfSelToXiPiRow) : Prop :=
  row_tpcNSigmaPiFromLambda row = tpcNSigmaPi pi
  /\ row_tpcNSigmaPrFromLambda row = tpcNSigmaPr pr
  /\ row_tofNSigmaPiFromLambda row = tofNSigmaPi pi
  /\ row_tofNSigmaPrFromLambda row = tofNSigmaPr pr
  /\ row_infoTpcStored row
     = detectorMask (hasTPC pi) (hasTPC pr)
                    (hasTPC (trackPiFromCasc c)) (hasTPC (trackPiFromCharm c))
  /\ row_infoTofStored row
     = detectorMask (hasTOF pi) (hasTOF pr)
                    (hasTOF (trackPiFromCasc c)) (hasTOF (trackPiFromCharm c))
  /\ row_statusPidLambda row
     = (pidStatus (selectorProton cfg) pr =? Accepted)%Z
       && (pidStatus (selectorPion cfg) pi =? Accepted)%Z
  /\ row_statusPidCascade row
     = (pidStatus (selectorProton cfg) pr =? Accepted)%Z
       && (pidStatus (selectorPion cfg) pi =? Accepted)%Z
       && acceptedPiFromCasc c
  /\ row_statusPidCharmBaryon row
     = (pidStatus (selectorProton cfg) pr =? Accepted)%Z
       && (pidStatus (selectorPion cfg) pi =? Accepted)%Z
       && acceptedPiFromCasc c && acceptedPiFromCharm c
  /\ (applyTrkSelLf cfg = true ->
      exists fills,
        registry st' = registry st ++ fills
        /\ In (cutFill "hSelTPCQualityPiFromLam" (tpcQuality pi)) fills
        /\ In (cutFill "hSelTPCQualityPrFromLam" (tpcQuality pr)) fills).

(** The detector-presence masks and the eight PID scores of a row are those
    of the candidate's tracks. *)
Definition DetectorInfoRecorded (c : Candidate) (row : HfSelToXiPiRow) : Prop :=
  row_infoTpcStored row
  = detectorMask (hasTPC (trackPiFromLam c)) (hasTPC (trackPrFromLam c))
                 (hasTPC (trackPiFromCasc c)) (hasTPC (trackPiFromCharm c))
  /\ row_infoTofStored row
     = detectorMask (hasTOF (trackPiFromLam c)) (hasTOF (trackPrFromLam c))
                    (hasTOF (trackPiFromCasc c)) (hasTOF (trackPiFromCharm c))
  /\ row_tpcNSigmaPiFromCharmBaryon row = tpcNSigmaPi (trackPiFromCharm c)
  /\ row_tpcNSigmaPiFromCasc row = tpcNSigmaPi (trackPiFromCasc c)
  /\ row_tpcNSigmaPiFromLambda row = tpcNSigmaPi (trackPiFromLam c)
  /\ row_tpcNSigmaPrFromLambda row = tpcNSigmaPr (trackPrFromLam c)
  /\ row_tofNSigmaPiFromCharmBaryon row = tofNSigmaPi (trackPiFromCharm c)
  /\ row_tofNSigmaPiFromCasc row = tofNSigmaPi (trackPiFromCasc c)
  /\ row_tofNSigmaPiFromLambda row = tofNSigmaPi (trackPiFromLam c)
  /\ row_tofNSigmaPrFromLambda row = tofNSigmaPr (trackPrFromLam c).

(** Two candidates with the same PID and mass inputs: the same four tracks,
    the same decay sign and the same three reconstructed masses. *)
Definition samePidMassInputs (c1 c2 : Candidate) : Prop :=
  posTrackId c1 = posTrackId c2
  /\ negTrackId c1 = negTrackId c2
  /\ bachelorId c1 = bachelorId c2
  /\ bachelorFromCharmBaryonId c1 = bachelorFromCharmBaryonId c2
  /\ signDecay c1 = signDecay c2
  /\ invMassLambda c1 = invMassLambda c2
  /\ invMassCascade c1 = invMassCascade c2
  /\ invMassCharmBaryon c1 = invMassCharmBaryon c2.

(** The deviations tested by the two mass windows. *)
Definition deviationLambda (c : Candidate) : double :=
  (invMassLambda c - MassLambda0)%D.
Definition deviationCascade (c : Candidate) : double :=
  (invMassCascade c - MassXiMinus)%D.

(** [emits c st row]: from [st], the body runs to its end for [c] and the
    row it appends to the produced table is [row]. *)
Definition emits (c : Candidate) (st : TaskState) (row : HfSelToXiPiRow) : Prop :=
  exists st', processCandidate c st = Done tt st'
              /\ hfSelToXiPi st' = hfSelToXiPi st ++ [row].

(** The state after a whole list of candidates. *)
Definition afterCandidates (cs : list Candidate) (st : TaskState) : TaskState :=
  fold_left (fun s c => afterCandidate c s) cs st.

(** *** How the statements of the loop body run

    Every statement of the body ends normally in a state that differs from
    the one it started in by a batch of fills; the lemmas below give, for
    each shape of statement, the value handed to the rest of the body and
    that batch. *)

Lemma pushFills_nil st : pushFills [] st = st.
Proof. destruct st; unfold pushFills; simpl. now rewrite app_nil_r. Qed.

Lemma pushFills_pushFills l1 l2 st :
  pushFills l2 (pushFills l1 st) = pushFills (l1 ++ l2) st.
Proof. unfold pushFills; simpl. now rewrite app_assoc. Qed.

Lemma bind_ret {A B : Type} (a : A) (k : A -> Task B) st :
  bind (ret a) k st = k a st.
Proof. reflexivity. Qed.

Lemma bind_bind {A B C : Type} (m : Task A) (f : A -> Task B)
      (k : B -> Task C) st :
  bind (bind m f) k st = bind m (fun a => bind (f a) k) st.
Proof. unfold bind. destruct (m st); reflexivity. Qed.

Lemma bind_fill {B : Type} h v (k : unit -> Task B) st :
  bind (fill h v) k st = k tt (pushFills [(h, v)] st).
Proof. reflexivity. Qed.

Lemma bind_emit {B : Type} r (k : unit -> Task B) st :
  bind (emit r) k st
  = k tt {| registry := registry st;
            hInvMassCharmBaryon := hInvMassCharmBaryon st;
            hfSelToXiPi := hfSelToXiPi st ++ [r] |}.
Proof. reflexivity. Qed.

(** The sign block, with the rest of the body reading the two roles. *)
Lemma bind_signBlock {T B : Type} (a b : bool) h v h' v' (u w : T)
      (F : T -> T -> Task B) st :
  bind (if a then (fill h v ;; ret (u, w))
        else if b then (fill h' v' ;; ret (w, u))
        else ret (w, u))
       (fun x => match x with (p, q) => F p q end) st
  = F (if a then u else w) (if a then w else u)
      (pushFills (if a then [(h, v)] else if b then [(h', v')] else []) st).
Proof.
  destruct a; [|destruct b]; simpl.
  - now rewrite bind_bind, bind_fill, bind_ret.
  - now rewrite bind_bind, bind_fill, bind_ret.
  - now rewrite bind_ret, pushFills_nil.
Qed.

(** One cut statement. *)
Lemma bind_cut {B : Type} failed h r (k : bool -> Task B) st :
  bind (cut failed h r) k st
  = k (r && negb failed) (pushFills [cutFill h (negb failed)] st).
Proof.
  destruct failed; unfold cut, cutFill; simpl.
  - now rewrite andb_false_r.
  - now rewrite andb_true_r.
Qed.

(** The three light-flavour cuts under [applyTrkSelLf]. *)
Lemma bind_lfBlock {B : Type} (a f1 f2 f3 r : bool) h1 h2 h3
      (k : bool -> Task B) st :
  bind (if a then
          (r1 <- cut f1 h1 r ;; r2 <- cut f2 h2 r1 ;; cut f3 h3 r2)
        else ret r) k st
  = k (if a then r && negb f1 && negb f2 && negb f3 else r)
      (pushFills (if a then [cutFill h1 (negb f1); cutFill h2 (negb f2);
                             cutFill h3 (negb f3)]
                  else []) st).
Proof.
  destruct a.
  - repeat (rewrite bind_bind || rewrite bind_cut).
    now rewrite !pushFills_pushFills.
  - now rewrite bind_ret, pushFills_nil.
Qed.

(** The choice of the four verdicts by PID mode. *)
Lemma match_pidMode {A B : Type} (x y : bool)
      (a1 b1 c1 d1 a2 b2 c2 d2 a3 b3 c3 d3 : A)
      (F : A -> A -> A -> A -> B) :
  (let '(a, b, c, d) :=
     if x then (a1, b1, c1, d1) else if y then (a2, b2, c2, d2)
     else (a3, b3, c3, d3) in F a b c d)
  = F (if x then a1 else if y then a2 else a3)
      (if x then b1 else if y then b2 else b3)
      (if x then c1 else if y then c2 else c3)
      (if x then d1 else if y then d2 else d3).
Proof. destruct x, y; reflexivity. Qed.

(** A fill under a condition. *)
Lemma when_fill_run b h v st :
  when b (fill h v) st = Done tt (pushFills (fillIf b h v) st).
Proof.
  destruct b; simpl; [reflexivity|].
  unfold fillIf. now rewrite pushFills_nil.
Qed.

Lemma bind_when_fill {B : Type} b h v (k : unit -> Task B) st :
  bind (when b (fill h v)) k st = k tt (pushFills (fillIf b h v) st).
Proof. unfold bind at 1. now rewrite when_fill_run. Qed.

(** A block of fills under a condition. *)
Lemma bind_when {B : Type} (b : bool) (m : Task unit) L
      (k : unit -> Task B) st :
  (forall s, m s = Done tt (pushFills L s)) ->
  bind (when b m) k st = k tt (pushFills (if b then L else []) st).
Proof.
  intros Hm. destruct b; simpl.
  - unfold bind. now rewrite Hm.
  - now rewrite bind_ret, pushFills_nil.
Qed.

(** One of the three PID flags. *)
Lemma bind_pidFlag {B : Type} (c r : bool) h v (k : bool -> Task B) st :
  bind (if c then (when r (fill h v) ;; ret true) else ret false) k st
  = k c (pushFills (fillIf (c && r) h v) st).
Proof.
  destruct c; simpl.
  - now rewrite bind_bind, bind_when_fill.
  - unfold fillIf. now rewrite bind_ret, pushFills_nil.
Qed.

(** One of the three mass flags. *)
Lemma bind_massFlag {B : Type} (c g : bool) h h' v (k : bool -> Task B) st :
  bind (if c then (fill h 1 ;; when g (fill h' v) ;; ret true)
        else (fill h 0 ;; ret false)) k st
  = k c (pushFills ([cutFill h c] ++ fillIf (c && g) h' v) st).
Proof.
  destruct c; simpl.
  - rewrite bind_bind, bind_fill, bind_bind, bind_when_fill, bind_ret.
    now rewrite pushFills_pushFills.
  - rewrite bind_bind, bind_fill, bind_ret. reflexivity.
Qed.

(** The last statement: the mass histogram of the fully selected. *)
Lemma when_fillInvMassCharmBaryon_run b v st :
  when b (fillInvMassCharmBaryon v) st
  = Done tt {| registry := registry st;
               hInvMassCharmBaryon :=
                 hInvMassCharmBaryon st ++ (if b then [v] else []);
               hfSelToXiPi := hfSelToXiPi st |}.
Proof.
  destruct b; simpl; [reflexivity|].
  destruct st; unfold ret; simpl. now rewrite app_nil_r.
Qed.

(** Running the cut block, the PID and mass blocks, and the [hSelPID]
    block. *)
Ltac run_cuts :=
  repeat first [ rewrite bind_cut | rewrite bind_lfBlock | rewrite bind_ret ].

Ltac run_body :=
  repeat first
    [ rewrite bind_cut
    | rewrite bind_bind
    | rewrite bind_fill
    | rewrite bind_ret
    | rewrite bind_pidFlag
    | rewrite bind_massFlag
    | rewrite bind_emit
    | progress cbn [Bool.eqb]
    | progress cbv iota ].

Ltac run_selPid :=
  erewrite bind_when;
  [ | intros ?s; rewrite !bind_when_fill, when_fill_run;
      rewrite !pushFills_pushFills; reflexivity ].

(** From the failing conditions of the source to the passing predicates. *)
Ltac normalize_flags :=
  repeat first [ rewrite negb_involutive | rewrite negb_orb
               | rewrite andb_true_l ].

Ltac unfold_atoms :=
  unfold passItsPiFromCharm, passImpParZCasc, passImpParXYCasc,
    passImpParZPiFromCharm, passImpParXYPiFromCharm, passDcaXYToPvV0Daughters,
    passEtaV0PosDau, passEtaV0NegDau, passEtaPiFromCasc, passEtaPiFromCharm,
    passRadiusCasc, passRadiusV0, passCosPACasc, passCosPAV0, passDcaCascDau,
    passDcaV0Dau, passDcaCharmBaryonDau, passDcaPosToPv, passDcaNegToPv,
    passDcaBachToPv, passImpParXYPiFromCharmMin, passImpParXYPiFromCharmMax,
    passImpParZPiFromCharmMin, passImpParZPiFromCharmMax, passImpParXYCascMin,
    passImpParXYCascMax, passImpParZCascMin, passImpParZCascMax,
    passPtPiFromCasc, passPtPiFromCharm, passTpcQualityPiFromLam,
    passTpcQualityPrFromLam, passTpcQualityPiFromCasc,
    passTpcQualityPiFromCharm, tpcQuality, passItsQualityPiFromCharm,
    passItsInnerBarrelPiFromCharm,
    trackPiFromLam, trackPrFromLam, trackV0PosDau, trackV0NegDau,
    trackPiFromCasc, trackPiFromCharm.

(** The running flag after the last cut is [topologicalFlag]. *)
Ltac fold_topologicalFlag c :=
  match goal with
  | |- context [when ?r (fill "hStatusCheck" 0.5)] =>
      replace r with (topologicalFlag c)
        by (unfold topologicalFlag, kinematicFlag; unfold_atoms;
            normalize_flags; reflexivity)
  end.

(** With a valid PID configuration the body runs to its end, and what it
    leaves behind is [afterCandidate]. *)
Lemma processCandidate_valid c st :
  validPid = true -> processCandidate c st = Done tt (afterCandidate c st).
Proof.
  unfold validPid. intros Hv. apply negb_true_iff in Hv.
  unfold processCandidate. cbv zeta.
  rewrite bind_signBlock, Hv.
  run_cuts. fold_topologicalFlag c.
  rewrite match_pidMode.
  run_body. run_selPid. rewrite when_fillInvMassCharmBaryon_run.
  rewrite !pushFills_pushFills; unfold pushFills;
    cbn [registry hInvMassCharmBaryon hfSelToXiPi].
  unfold afterCandidate, candidateFills, topologicalFills, signFills,
    kinematicFills, qualityFills, pidFlagFills, massFills, selPidFills,
    fullySelected, allPid, selectionRow, statusPidLambda, statusPidCascade,
    statusPidCharmBaryon, acceptedPrFromLam, acceptedPiFromLam,
    acceptedPiFromCasc, acceptedPiFromCharm, pidStatus, inMassWindowLambda,
    inMassWindowCascade, inMassRangeCharmBaryon, detectorMask; unfold_atoms.
  normalize_flags.
  rewrite <- ?app_assoc; cbn [app].
  reflexivity.
Qed.

(** With an invalid PID configuration the body stops at the check, after the
    sign, kinematic and quality blocks have run. *)
Lemma processCandidate_invalid c st :
  validPid = false ->
  processCandidate c st
  = Fatal fatalPidMessage (pushFills (topologicalFills c) st).
Proof.
  unfold validPid. intros Hv. apply negb_false_iff in Hv.
  unfold processCandidate. cbv zeta.
  rewrite bind_signBlock, Hv.
  run_cuts.
  unfold bind at 1, LOGF_fatal.
  rewrite !pushFills_pushFills.
  unfold topologicalFills, signFills, kinematicFills, qualityFills;
    unfold_atoms.
  normalize_flags.
  rewrite <- ?app_assoc; cbn [app].
  reflexivity.
Qed.

(** *** Consequences of the run lemmas *)

Lemma emits_valid c st : validPid = true -> emits c st (selectionRow c).
Proof.
  intros Hv. exists (afterCandidate c st). split.
  - now apply processCandidate_valid.
  - reflexivity.
Qed.

Lemma forCandidates_valid cs st :
  validPid = true -> forCandidates cs st = Done tt (afterCandidates cs st).
Proof.
  intros Hv. revert st. induction cs as [|c cs IH]; intros st; simpl.
  - reflexivity.
  - unfold bind. rewrite (processCandidate_valid c st Hv). apply IH.
Qed.

Lemma hfSelToXiPi_afterCandidates cs st :
  hfSelToXiPi (afterCandidates cs st) = hfSelToXiPi st ++ map selectionRow cs.
Proof.
  revert st. induction cs as [|c cs IH]; intros st; simpl.
  - now rewrite app_nil_r.
  - unfold afterCandidates in *. simpl. rewrite IH. simpl.
    now rewrite <- app_assoc.
Qed.

(** *** Tallies *)

Lemma tally_app r1 r2 h v : tally (r1 ++ r2) h v = (tally r1 h v + tally r2 h v)%nat.
Proof. unfold tally. now rewrite filter_app, length_app. Qed.

Lemma tally_nil h v : tally [] h v = 0%nat.
Proof. reflexivity. Qed.

Lemma tally_cons_other h' v' r h v :
  String.eqb h' h = false -> tally ((h', v') :: r) h v = tally r h v.
Proof. intros H. unfold tally. simpl. now rewrite H. Qed.

Lemma tally_cons_same h' v' r h v :
  String.eqb h' h = true ->
  tally ((h', v') :: r) h v
  = ((if PrimFloat.eqb v' v then 1 else 0) + tally r h v)%nat.
Proof.
  intros H. unfold tally. simpl. rewrite H. simpl.
  now destruct (PrimFloat.eqb v' v).
Qed.

Lemma tally_cons h' v' r h v :
  tally ((h', v') :: r) h v
  = ((if String.eqb h' h && PrimFloat.eqb v' v then 1 else 0) + tally r h v)%nat.
Proof.
  unfold tally. simpl.
  now destruct (String.eqb h' h && PrimFloat.eqb v' v).
Qed.

Lemma tally_fillIf_other b h' v' h v :
  String.eqb h' h = false -> tally (fillIf b h' v') h v = 0%nat.
Proof.
  intros H. destruct b; [|reflexivity].
  unfold fillIf. now rewrite tally_cons_other.
Qed.

Ltac tally_other :=
  unfold cutFill;
  repeat first
    [ rewrite tally_app
    | rewrite tally_fillIf_other by reflexivity
    | rewrite tally_cons_other by reflexivity
    | rewrite tally_cons_same by reflexivity
    | rewrite tally_nil ];
  try reflexivity.

Lemma tally_pidFlagFills c h v :
  String.eqb "hStatusCheck" h = false -> tally (pidFlagFills c) h v = 0%nat.
Proof. intros H. unfold pidFlagFills. now rewrite !tally_app, !tally_fillIf_other. Qed.

Lemma tally_selPidFills c h v :
  String.eqb "hSelPID" h = false -> tally (selPidFills c) h v = 0%nat.
Proof.
  intros H. unfold selPidFills. destruct (topologicalFlag c); [|reflexivity].
  now rewrite !tally_app, !tally_fillIf_other.
Qed.

(** Outside [hStatusCheck], the mass block writes its three verdicts. *)
Lemma tally_massFills c h v :
  String.eqb "hStatusCheck" h = false ->
  tally (massFills c) h v
  = tally [cutFill "hSelMassLam" (inMassWindowLambda c);
           cutFill "hSelMassCasc" (inMassWindowCascade c);
           cutFill "hSelMassCharmBaryon" (inMassRangeCharmBaryon c)] h v.
Proof.
  intros H. unfold massFills, cutFill.
  rewrite !tally_app, !tally_fillIf_other by assumption.
  rewrite !tally_cons, !tally_nil. lia.
Qed.

(** The sign histogram is written by the sign block only. *)
Lemma tally_hSelSignDec c v :
  tally (candidateFills c) "hSelSignDec" v = tally (signFills c) "hSelSignDec" v.
Proof.
  unfold candidateFills, topologicalFills.
  rewrite !tally_app, tally_pidFlagFills, tally_selPidFills by reflexivity.
  replace (tally (qualityFills c) "hSelSignDec" v) with 0%nat
    by (unfold qualityFills; destruct (applyTrkSelLf cfg); tally_other).
  replace (tally (massFills c) "hSelSignDec" v) with 0%nat
    by (unfold massFills; tally_other).
  replace (tally (kinematicFills c) "hSelSignDec" v) with 0%nat
    by (unfold kinematicFills; tally_other).
  lia.
Qed.

(** *** The claims on the candidate selector *)

(** C1.  For every candidate, the overall flag [resultSelections] of the
    emitted row is the conjunction of all the individual predicates: the
    eta bounds of the four tracks, the minimum cascade and V0 radii, the
    minimum cascade and V0 cosines of pointing angle, the maximum DCA among
    cascade, V0 and charm-baryon daughters, the minimum DCA to the primary
    vertex of the two V0 daughters and of the cascade bachelor, the lower
    and upper bounds on the XY and Z impact parameters of the charm bachelor
    and of the cascade, the minimum pT of the two bachelor pions, and the
    TPC and ITS track-quality predicates; the three light-flavour TPC
    predicates take part only when [applyTrkSelLf] is on. *)
Theorem resultSelections_is_conjunction c st :
  validPid = true ->
  exists row,
    emits c st row
    /\ row_resultSelections row
       = passEtaV0PosDau c && passEtaV0NegDau c && passEtaPiFromCasc c
         && passEtaPiFromCharm c
         && passRadiusCasc c && passRadiusV0 c
         && passCosPACasc c && passCosPAV0 c
         && passDcaCascDau c && passDcaV0Dau c && passDcaCharmBaryonDau c
         && passDcaPosToPv c && passDcaNegToPv c && passDcaBachToPv c
         && passImpParXYPiFromCharmMin c && passImpParXYPiFromCharmMax c
         && passImpParZPiFromCharmMin c && passImpParZPiFromCharmMax c
         && passImpParXYCascMin c && passImpParXYCascMax c
         && passImpParZCascMin c && passImpParZCascMax c
         && passPtPiFromCasc c && passPtPiFromCharm c
         && implb (applyTrkSelLf cfg) (passTpcQualityPiFromLam c)
         && implb (applyTrkSelLf cfg) (passTpcQualityPrFromLam c)
         && implb (applyTrkSelLf cfg) (passTpcQualityPiFromCasc c)
         && passTpcQualityPiFromCharm c
         && passItsQualityPiFromCharm c && passItsInnerBarrelPiFromCharm c.
Proof.
  intros Hv. exists (selectionRow c). split; [now apply emits_valid|].
  cbn [selectionRow row_resultSelections].
  unfold topologicalFlag, kinematicFlag, passDcaXYToPvV0Daughters,
    passImpParXYPiFromCharm, passImpParZPiFromCharm, passImpParXYCasc,
    passImpParZCasc, passItsPiFromCharm.
  destruct (applyTrkSelLf cfg); cbn [implb];
    rewrite ?andb_true_r, ?andb_assoc; reflexivity.
Qed.

(** C3.  The three PID flags of the emitted row are nested: a row that is
    cascade-consistent is Lambda-consistent, and a row that is
    charm-baryon-consistent is cascade-consistent. *)
Theorem pid_flags_nested c st :
  validPid = true ->
  exists row,
    emits c st row
    /\ (row_statusPidCascade row = true -> row_statusPidLambda row = true)
    /\ (row_statusPidCharmBaryon row = true -> row_statusPidCascade row = true).
Proof.
  intros Hv. exists (selectionRow c). split; [now apply emits_valid|].
  cbn [selectionRow row_statusPidLambda row_statusPidCascade
       row_statusPidCharmBaryon].
  unfold statusPidLambda, statusPidCascade, statusPidCharmBaryon.
  split; intros H; apply andb_true_iff in H; tauto.
Qed.

Lemma rolesUsed_selectionRow c st :
  RolesUsed (trackPiFromLam c) (trackPrFromLam c) c st
            (afterCandidate c st) (selectionRow c).
Proof.
  unfold RolesUsed. repeat split; try reflexivity.
  intros Hlf. exists (candidateFills c). split; [reflexivity|].
  unfold candidateFills, topologicalFills, qualityFills. rewrite Hlf.
  split; apply in_or_app; left; apply in_or_app; right; apply in_or_app;
    right; apply in_or_app; left; simpl; tauto.
Qed.

(** C4.  The roles of the two V0 daughters follow the decay sign: with
    [signDecay > 0] the positive daughter is the pion and the negative one
    the proton in every PID score, PID verdict, detector mask and
    track-quality cut of the candidate; with [signDecay < 0] it is the
    reverse. *)
Theorem roles_follow_signDecay c st :
  validPid = true ->
  exists st' row,
    processCandidate c st = Done tt st'
    /\ hfSelToXiPi st' = hfSelToXiPi st ++ [row]
    /\ ((signDecay c > 0)%Z ->
        RolesUsed (trackV0PosDau c) (trackV0NegDau c) c st st' row)
    /\ ((signDecay c < 0)%Z ->
        RolesUsed (trackV0NegDau c) (trackV0PosDau c) c st st' row).
Proof.
  intros Hv. exists (afterCandidate c st), (selectionRow c).
  split; [now apply processCandidate_valid|]. split; [reflexivity|].
  pose proof (rolesUsed_selectionRow c st) as H.
  unfold trackPiFromLam, trackPrFromLam in H.
  split; intros Hs.
  - apply Z.gtb_gt in Hs. now rewrite Hs in H.
  - destruct (signDecay c >? 0)%Z eqn:E; [apply Z.gtb_gt in E; lia|exact H].
Qed.

(** C9.  A candidate whose decay sign is exactly zero still yields its
    row, computed with the default roles (negative daughter as the pion,
    positive daughter as the proton), and leaves both bins of the sign
    histogram untouched. *)
Theorem zero_sign_uses_default_roles c st :
  validPid = true ->
  signDecay c = 0%Z ->
  exists st' row,
    processCandidate c st = Done tt st'
    /\ hfSelToXiPi st' = hfSelToXiPi st ++ [row]
    /\ RolesUsed (trackV0NegDau c) (trackV0PosDau c) c st st' row
    /\ forall v, tally (registry st') "hSelSignDec" v
                 = tally (registry st) "hSelSignDec" v.
Proof.
  intros Hv Hs. exists (afterCandidate c st), (selectionRow c).
  split; [now apply processCandidate_valid|]. split; [reflexivity|]. split.
  - pose proof (rolesUsed_selectionRow c st) as H.
    unfold trackPiFromLam, trackPrFromLam in H. now rewrite Hs in H.
  - intros v. cbn [afterCandidate registry].
    rewrite tally_app, tally_hSelSignDec. unfold signFills. rewrite Hs.
    cbn. lia.
Qed.

(** C5.  The Lambda and cascade mass windows are strict and symmetric
    around the reference masses: each flag of the emitted row is true
    exactly when the absolute deviation from the reference mass is below
    the tolerance; a deviation equal to plus or minus the tolerance is
    rejected; and a candidate whose deviation is the opposite of this one's
    gets the same flag.  Deviations are the binary64 differences that the
    source computes. *)
Theorem mass_windows_strict_and_symmetric c st :
  validPid = true ->
  exists row,
    emits c st row
    /\ (row_statusInvMassLambda row = true
        <-> (fabs (invMassLambda c - MassLambda0) < v0MassWindow cfg)%D = true)
    /\ (row_statusInvMassCascade row = true
        <-> (fabs (invMassCascade c - MassXiMinus) < cascadeMassWindow cfg)%D
            = true)
    /\ (PrimFloat.eqb (deviationLambda c) (v0MassWindow cfg) = true
        \/ PrimFloat.eqb (deviationLambda c) (PrimFloat.opp (v0MassWindow cfg))
           = true ->
        row_statusInvMassLambda row = false)
    /\ (PrimFloat.eqb (deviationCascade c) (cascadeMassWindow cfg) = true
        \/ PrimFloat.eqb (deviationCascade c)
                         (PrimFloat.opp (cascadeMassWindow cfg)) = true ->
        row_statusInvMassCascade row = false)
    /\ (forall c' st',
           deviationLambda c' = PrimFloat.opp (deviationLambda c) ->
           exists row', emits c' st' row'
                        /\ row_statusInvMassLambda row'
                           = row_statusInvMassLambda row)
    /\ (forall c' st',
           deviationCascade c' = PrimFloat.opp (deviationCascade c) ->
           exists row', emits c' st' row'
                        /\ row_statusInvMassCascade row'
                           = row_statusInvMassCascade row).
Proof.
  intros Hv. exists (selectionRow c). split; [now apply emits_valid|].
  cbn [selectionRow row_statusInvMassLambda row_statusInvMassCascade].
  unfold inMassWindowLambda, inMassWindowCascade.
  repeat split; try tauto.
  - apply DoubleFacts.dlt_fabs_at_tolerance.
  - apply DoubleFacts.dlt_fabs_at_tolerance.
  - intros c' st' Hd. exists (selectionRow c').
    split; [now apply emits_valid|].
    cbn [selectionRow row_statusInvMassLambda]. unfold inMassWindowLambda.
    unfold deviationLambda in Hd. now rewrite Hd, DoubleFacts.fabs_opp.
  - intros c' st' Hd. exists (selectionRow c').
    split; [now apply emits_valid|].
    cbn [selectionRow row_statusInvMassCascade]. unfold inMassWindowCascade.
    unfold deviationCascade in Hd. now rewrite Hd, DoubleFacts.fabs_opp.
Qed.

(** C6.  The charm-baryon mass flag of the emitted row is true exactly when
    the reconstructed mass lies in the closed interval
    [[invMassCharmBaryonMin, invMassCharmBaryonMax]]; a mass equal to either
    bound of a non-empty interval is accepted. *)
Theorem charm_baryon_mass_closed_interval c st :
  validPid = true ->
  exists row,
    emits c st row
    /\ (row_statusInvMassCharmBaryon row = true
        <-> (invMassCharmBaryon c >= invMassCharmBaryonMin cfg)%D = true
            /\ (invMassCharmBaryon c <= invMassCharmBaryonMax cfg)%D = true)
    /\ ((invMassCharmBaryonMin cfg <= invMassCharmBaryonMax cfg)%D = true ->
        PrimFloat.eqb (invMassCharmBaryon c) (invMassCharmBaryonMin cfg) = true
        \/ PrimFloat.eqb (invMassCharmBaryon c) (invMassCharmBaryonMax cfg)
           = true ->
        row_statusInvMassCharmBaryon row = true).
Proof.
  intros Hv. exists (selectionRow c). split; [now apply emits_valid|].
  cbn [selectionRow row_statusInvMassCharmBaryon].
  unfold inMassRangeCharmBaryon. split; [apply andb_true_iff|].
  unfold dge, dle. intros Hne [H|H]; apply andb_true_iff; split.
  - rewrite (DoubleFacts.eqb_leb_r _ H).
    apply DoubleFacts.eqb_leb. eapply DoubleFacts.leb_eqb_refl_l; eauto.
  - now rewrite (DoubleFacts.eqb_leb_l _ H).
  - now rewrite (DoubleFacts.eqb_leb_r _ H).
  - now apply DoubleFacts.eqb_leb.
Qed.

(** C7.  Under a valid PID configuration a run emits exactly one row per
    input candidate, in the order of the input; the row of a candidate is
    the one its loop body emits, and its two detector-presence masks and
    eight PID scores are read off the candidate's tracks, whatever the
    verdicts. *)
Theorem one_row_per_candidate cs st :
  validPid = true ->
  exists st' rows,
    process cs st = Done tt st'
    /\ hfSelToXiPi st' = hfSelToXiPi st ++ rows
    /\ List.length rows = List.length cs
    /\ forall i c,
         nth_error cs i = Some c ->
         exists row,
           nth_error rows i = Some row
           /\ (forall s, emits c s row)
           /\ DetectorInfoRecorded c row.
Proof.
  intros Hv. exists (afterCandidates cs st), (map selectionRow cs).
  split; [now apply forCandidates_valid|].
  split; [apply hfSelToXiPi_afterCandidates|].
  split; [apply length_map|].
  intros i c Hc. exists (selectionRow c).
  split; [now apply map_nth_error|].
  split; [intros s; now apply emits_valid|].
  unfold DetectorInfoRecorded. repeat split.
Qed.

(** C2 (amended).  A run under a valid PID configuration never aborts.  A
    run under an invalid one aborts only if there is a candidate: it stops
    inside the processing of the first candidate, once that candidate's
    sign block and all its kinematic and track-quality cuts have been
    evaluated and tallied (at least twenty-one fills), and before any PID
    verdict, mass flag or row is produced; on an empty input it ends
    normally. *)
Theorem pid_misconfiguration_aborts_inside_first_candidate cs st :
  (validPid = true -> exists st', process cs st = Done tt st')
  /\ (validPid = false ->
      match cs with
      | [] => process cs st = Done tt st
      | c :: _ =>
          exists st',
            process cs st = Fatal fatalPidMessage st'
            /\ registry st' = registry st ++ topologicalFills c
            /\ (21 <= List.length (topologicalFills c))%nat
            /\ hfSelToXiPi st' = hfSelToXiPi st
            /\ hInvMassCharmBaryon st' = hInvMassCharmBaryon st
      end).
Proof.
  split; intros Hv.
  - exists (afterCandidates cs st). now apply forCandidates_valid.
  - destruct cs as [|c cs]; [reflexivity|].
    exists (pushFills (topologicalFills c) st). split.
    + unfold process. simpl. unfold bind.
      now rewrite (processCandidate_invalid c st Hv).
    + repeat split.
      unfold topologicalFills, kinematicFills, qualityFills.
      rewrite !length_app. destruct (applyTrkSelLf cfg); simpl; lia.
Qed.

End Process.

(** *** A sample environment

    The theorems above hold for every track-row type and every framework
    instance.  To run the model on concrete inputs, this section fixes one:
    a track record with the columns that the helpers look at, the task's
    default configuration, and a candidate that passes every cut. *)

Record SampleTrack : Set := {
  s_hasTPC : bool;
  s_hasTOF : bool;
  s_tpcNSigmaPi : double;
  s_tpcNSigmaPr : double;
  s_tofNSigmaPi : double;
  s_tofNSigmaPr : double;
  s_tpcNClsFound : Z;
  s_tpcNClsCrossedRows : Z;
  s_tpcCrossedRowsOverFindableCls : double;
  s_tpcChi2NCl : double;
  s_itsNCls : Z;
  s_itsNClsInnerBarrel : Z;
  s_itsChi2NCl : double
}.

(** Modelled from the spec: [isSelectedTrackTpcQuality] of
    PWGHF/Utils/utilsAnalysis.h, which is not part of the two files: "minimum
    TPC cluster count, minimum TPC crossed rows, minimum
    crossed-rows/findable-clusters ratio, maximum TPC fit chi2/cluster". *)
Definition sampleTpcQuality (t : SampleTrack)
           (nClsMin nCrossedRowsMin : Z) (ratioMin chi2Max : double) : bool :=
  negb (s_tpcNClsFound t <? nClsMin)%Z
  && negb (s_tpcNClsCrossedRows t <? nCrossedRowsMin)%Z
  && negb (s_tpcCrossedRowsOverFindableCls t < ratioMin)%D
  && negb (s_tpcChi2NCl t > chi2Max)%D.

(** Modelled from the spec: [isSelectedTrackItsQuality] of
    PWGHF/Utils/utilsAnalysis.h, which is not part of the two files: "minimum
    ITS cluster count ... and maximum ITS fit chi2/cluster". *)
Definition sampleItsQuality (t : SampleTrack) (nClsMin : Z) (chi2Max : double)
  : bool :=
  negb (s_itsNCls t <? nClsMin)%Z && negb (s_itsChi2NCl t > chi2Max)%D.

Definition inRange (r : double * double) (v : double) : bool :=
  (fst r <= v)%D && (v <= snd r)%D.

(** Modelled from the spec: [TrackSelectorPID::statusTpc] of
    Common/Core/TrackSelectorPID.h, which is not part of the two files: "an
    acceptance verdict from an external PID-scoring collaborator
    parameterized by configured sigma-bounds per species/detector".  The
    verdict codes are 0 (not applicable), 1 (rejected) and 3 (accepted). *)
Definition sampleStatusTpc (sel : TrackSelectorPID) (t : SampleTrack) : Z :=
  if s_hasTPC t then
    if inRange (rangeNSigmaTpc sel)
               (match species sel with
                | Pion => s_tpcNSigmaPi t
                | Proton => s_tpcNSigmaPr t
                end)
    then 3%Z else 1%Z
  else 0%Z.

(** Modelled from the spec: [TrackSelectorPID::statusTpcOrTof] of
    Common/Core/TrackSelectorPID.h, which is not part of the two files: the
    "TPC-combined-with-TOF fallback" mode of the same collaborator. *)
Definition sampleStatusTpcOrTof (sel : TrackSelectorPID) (t : SampleTrack) : Z :=
  if (sampleStatusTpc sel t =? 3)%Z then 3%Z
  else if s_hasTOF t then
    if inRange (rangeNSigmaTof sel)
               (match species sel with
                | Pion => s_tofNSigmaPi t
                | Proton => s_tofNSigmaPr t
                end)
    then 3%Z else 1%Z
  else sampleStatusTpc sel t.

Definition sampleRow : TrackRow SampleTrack :=
  {| hasTPC := s_hasTPC;
     hasTOF := s_hasTOF;
     tpcNSigmaPi := s_tpcNSigmaPi;
     tpcNSigmaPr := s_tpcNSigmaPr;
     tofNSigmaPi := s_tofNSigmaPi;
     tofNSigmaPr := s_tofNSigmaPr;
     itsNClsInnerBarrel := s_itsNClsInnerBarrel;
     isSelectedTrackTpcQuality := sampleTpcQuality;
     isSelectedTrackItsQuality := sampleItsQuality;
     statusTpc := sampleStatusTpc;
     statusTpcOrTof := sampleStatusTpcOrTof |}.

Definition sampleFramework : Framework :=
  {| Accepted := 3%Z;
     sqrtSumOfSquares := fun a b => PrimFloat.sqrt (a * a + b * b)%float;
     MassLambda0 := 1.115683%float;
     MassXiMinus := 1.32171%float |}.

(** The defaults of the [Configurable]s; a [Configurable<float>] default is
    written at its binary32 value. *)
Definition defaultConfig : Config :=
  {| radiusCascMin := 0.6%float;
     radiusV0Min := 1.2%float;
     cosPAV0Min := 0.97%float;
     cosPACascMin := 0.97%float;
     dcaCascDauMax := 1.0%float;
     dcaV0DauMax := 1.0%float;
     dcaBachToPvMin := 0.039999999105930328369140625%float;
     dcaNegToPvMin := 0.0599999986588954925537109375%float;
     dcaPosToPvMin := 0.0599999986588954925537109375%float;
     v0MassWindow := 0.00999999977648258209228515625%float;
     cascadeMassWindow := 0.00999999977648258209228515625%float;
     applyTrkSelLf := true;
     invMassCharmBaryonMin := 2.0%float;
     invMassCharmBaryonMax := 3.1%float;
     etaTrackCharmBachMax := 0.8%float;
     etaTrackLFDauMax := 1.0%float;
     ptPiFromCascMin := 0.15%float;
     ptPiFromCharmBaryonMin := 0.2%float;
     impactParameterXYPiFromCharmBaryonMin := 0%float;
     impactParameterXYPiFromCharmBaryonMax := 10%float;
     impactParameterZPiFromCharmBaryonMin := 0%float;
     impactParameterZPiFromCharmBaryonMax := 10%float;
     impactParameterXYCascMin := 0%float;
     impactParameterXYCascMax := 10%float;
     impactParameterZCascMin := 0%float;
     impactParameterZCascMax := 10%float;
     ptCandMin := 0%float;
     ptCandMax := 50%float;
     dcaCharmBaryonDauMax := 2.0%float;
     usePidTpcOnly := false;
     usePidTpcTofCombined := true;
     ptPiPidTpcMin := (-1)%float;
     ptPiPidTpcMax := 9999.9%float;
     nSigmaTpcPiMax := 3%float;
     nSigmaTpcCombinedPiMax := 0%float;
     ptPrPidTpcMin := (-1)%float;
     ptPrPidTpcMax := 9999.9%float;
     nSigmaTpcPrMax := 3%float;
     nSigmaTpcCombinedPrMax := 0%float;
     ptPiPidTofMin := (-1)%float;
     ptPiPidTofMax := 9999.9%float;
     nSigmaTofPiMax := 3%float;
     nSigmaTofCombinedPiMax := 0%float;
     ptPrPidTofMin := (-1)%float;
     ptPrPidTofMax := 9999.9%float;
     nSigmaTofPrMax := 3%float;
     nSigmaTofCombinedPrMax := 0%float;
     nClustersTpcMin := 70%Z;
     nTpcCrossedRowsMin := 70%Z;
     tpcCrossedRowsOverFindableClustersRatioMin := 0.8%float;
     tpcChi2PerClusterMax := 4%float;
     nClustersItsMin := 3%Z;
     nClustersItsInnBarrMin := 1%Z;
     itsChi2PerClusterMax := 36%float |}.

(** The default configuration with the two PID switches set by hand. *)
Definition configWithPid (tpcOnly tpcTofCombined : bool) : Config :=
  {| radiusCascMin := radiusCascMin defaultConfig;
     radiusV0Min := radiusV0Min defaultConfig;
     cosPAV0Min := cosPAV0Min defaultConfig;
     cosPACascMin := cosPACascMin defaultConfig;
     dcaCascDauMax := dcaCascDauMax defaultConfig;
     dcaV0DauMax := dcaV0DauMax defaultConfig;
     dcaBachToPvMin := dcaBachToPvMin defaultConfig;
     dcaNegToPvMin := dcaNegToPvMin defaultConfig;
     dcaPosToPvMin := dcaPosToPvMin defaultConfig;
     v0MassWindow := v0MassWindow defaultConfig;
     cascadeMassWindow := cascadeMassWindow defaultConfig;
     applyTrkSelLf := applyTrkSelLf defaultConfig;
     invMassCharmBaryonMin := invMassCharmBaryonMin defaultConfig;
     invMassCharmBaryonMax := invMassCharmBaryonMax defaultConfig;
     etaTrackCharmBachMax := etaTrackCharmBachMax defaultConfig;
     etaTrackLFDauMax := etaTrackLFDauMax defaultConfig;
     ptPiFromCascMin := ptPiFromCascMin defaultConfig;
     ptPiFromCharmBaryonMin := ptPiFromCharmBaryonMin defaultConfig;
     impactParameterXYPiFromCharmBaryonMin :=
       impactParameterXYPiFromCharmBaryonMin defaultConfig;
     impactParameterXYPiFromCharmBaryonMax :=
       impactParameterXYPiFromCharmBaryonMax defaultConfig;
     impactParameterZPiFromCharmBaryonMin :=
       impactParameterZPiFromCharmBaryonMin defaultConfig;
     impactParameterZPiFromCharmBaryonMax :=
       impactParameterZPiFromCharmBaryonMax defaultConfig;
     impactParameterXYCascMin := impactParameterXYCascMin defaultConfig;
     impactParameterXYCascMax := impactParameterXYCascMax defaultConfig;
     impactParameterZCascMin := impactParameterZCascMin defaultConfig;
     impactParameterZCascMax := impactParameterZCascMax defaultConfig;
     ptCandMin := ptCandMin defaultConfig;
     ptCandMax := ptCandMax defaultConfig;
     dcaCharmBaryonDauMax := dcaCharmBaryonDauMax defaultConfig;
     usePidTpcOnly := tpcOnly;
     usePidTpcTofCombined := tpcTofCombined;
     ptPiPidTpcMin := ptPiPidTpcMin defaultConfig;
     ptPiPidTpcMax := ptPiPidTpcMax defaultConfig;
     nSigmaTpcPiMax := nSigmaTpcPiMax defaultConfig;
     nSigmaTpcCombinedPiMax := nSigmaTpcCombinedPiMax defaultConfig;
     ptPrPidTpcMin := ptPrPidTpcMin defaultConfig;
     ptPrPidTpcMax := ptPrPidTpcMax defaultConfig;
     nSigmaTpcPrMax := nSigmaTpcPrMax defaultConfig;
     nSigmaTpcCombinedPrMax := nSigmaTpcCombinedPrMax defaultConfig;
     ptPiPidTofMin := ptPiPidTofMin defaultConfig;
     ptPiPidTofMax := ptPiPidTofMax defaultConfig;
     nSigmaTofPiMax := nSigmaTofPiMax defaultConfig;
     nSigmaTofCombinedPiMax := nSigmaTofCombinedPiMax defaultConfig;
     ptPrPidTofMin := ptPrPidTofMin defaultConfig;
     ptPrPidTofMax := ptPrPidTofMax defaultConfig;
     nSigmaTofPrMax := nSigmaTofPrMax defaultConfig;
     nSigmaTofCombinedPrMax := nSigmaTofCombinedPrMax defaultConfig;
     nClustersTpcMin := nClustersTpcMin defaultConfig;
     nTpcCrossedRowsMin := nTpcCrossedRowsMin defaultConfig;
     tpcCrossedRowsOverFindableClustersRatioMin :=
       tpcCrossedRowsOverFindableClustersRatioMin defaultConfig;
     tpcChi2PerClusterMax := tpcChi2PerClusterMax defaultConfig;
     nClustersItsMin := nClustersItsMin defaultConfig;
     nClustersItsInnBarrMin := nClustersItsInnBarrMin defaultConfig;
     itsChi2PerClusterMax := itsChi2PerClusterMax defaultConfig |}.

(** A well-measured track that is compatible with both species; a second
    one with a distinct TPC pion score, to tell the two V0 daughters apart. *)
Definition sampleTrack : SampleTrack :=
  {| s_hasTPC := true;
     s_hasTOF := false;
     s_tpcNSigmaPi := 0.5%float;
     s_tpcNSigmaPr := 0.25%float;
     s_tofNSigmaPi := 0%float;
     s_tofNSigmaPr := 0%float;
     s_tpcNClsFound := 120%Z;
     s_tpcNClsCrossedRows := 130%Z;
     s_tpcCrossedRowsOverFindableCls := 0.95%float;
     s_tpcChi2NCl := 1.5%float;
     s_itsNCls := 6%Z;
     s_itsNClsInnerBarrel := 3%Z;
     s_itsChi2NCl := 2%float |}.

Definition sampleTrackNeg : SampleTrack :=
  {| s_hasTPC := true;
     s_hasTOF := true;
     s_tpcNSigmaPi := (-1.5)%float;
     s_tpcNSigmaPr := (-0.75)%float;
     s_tofNSigmaPi := 1%float;
     s_tofNSigmaPr := 2%float;
     s_tpcNClsFound := 110%Z;
     s_tpcNClsCrossedRows := 115%Z;
     s_tpcCrossedRowsOverFindableCls := 0.9%float;
     s_tpcChi2NCl := 2%float;
     s_itsNCls := 5%Z;
     s_itsNClsInnerBarrel := 2%Z;
     s_itsChi2NCl := 3%float |}.

(** Row 1 of either table is [sampleTrackNeg], every other row is
    [sampleTrack]. *)
Definition sampleTable : Table SampleTrack :=
  fun i => if (i =? 1)%Z then sampleTrackNeg else sampleTrack.

(** A candidate with the given decay sign, cascade decay vertex [(xCasc, 0)]
    and reconstructed masses; its other columns pass every cut of
    [defaultConfig]. *)
Definition sampleCandidateAt (sign : Z) (xCasc mLambda mCascade mCharm : double)
  : Candidate :=
  {| posTrackId := 0%Z;
     negTrackId := 1%Z;
     bachelorId := 2%Z;
     bachelorFromCharmBaryonId := 3%Z;
     signDecay := sign;
     etaV0PosDau := 0.25%float;
     etaV0NegDau := (-0.5)%float;
     etaBachFromCasc := 0.125%float;
     etaBachFromCharmBaryon := (-0.25)%float;
     xDecayVtxCascade := xCasc;
     yDecayVtxCascade := 0%float;
     xDecayVtxV0 := 3%float;
     yDecayVtxV0 := 4%float;
     cosPACasc := 0.99%float;
     cosPAV0 := 0.995%float;
     dcaCascDau := 0.25%float;
     dcaV0Dau := 0.5%float;
     dcaCharmBaryonDau := 0.125%float;
     dcaXYToPvV0Dau0 := 0.25%float;
     dcaXYToPvV0Dau1 := (-0.25)%float;
     dcaXYToPvCascDau := 0.125%float;
     impactParBachFromCharmBaryonXY := 0.0625%float;
     impactParBachFromCharmBaryonZ := (-0.0625)%float;
     impactParCascXY := 0.03125%float;
     impactParCascZ := 0.03125%float;
     pxBachFromCasc := 0.5%float;
     pyBachFromCasc := 0%float;
     pxBachFromCharmBaryon := 0%float;
     pyBachFromCharmBaryon := 1.5%float;
     invMassLambda := mLambda;
     invMassCascade := mCascade;
     invMassCharmBaryon := mCharm |}.

Arguments sampleCandidateAt
  sign%_Z xCasc%_float mLambda%_float mCascade%_float mCharm%_float.

(** The same with masses well inside the three windows. *)
Definition sampleCandidate (sign : Z) (xCasc : double) : Candidate :=
  sampleCandidateAt sign xCasc 1.116 1.322 2.47.

(** A candidate whose Lambda mass sits at the upper edge of its window,
    whose cascade mass sits at the lower edge of its window, and whose
    charm-baryon mass is the lower bound of its range.  The default
    tolerances are multiples of 2^-30, so both sums are exact. *)
Definition edgeCandidate : Candidate :=
  sampleCandidateAt 1 1
    (MassLambda0 (Framework := sampleFramework) + v0MassWindow defaultConfig)
    (MassXiMinus (Framework := sampleFramework)
     - cascadeMassWindow defaultConfig)
    (invMassCharmBaryonMin defaultConfig).

Arguments sampleCandidate sign%_Z xCasc%_float.

Definition sampleProcessCandidate (cfg : Config) : Candidate -> Task unit :=
  @processCandidate SampleTrack SampleTrack sampleRow sampleRow
    sampleFramework cfg sampleTable sampleTable.
Definition sampleProcess (cfg : Config) : list Candidate -> Task unit :=
  @process SampleTrack SampleTrack sampleRow sampleRow
    sampleFramework cfg sampleTable sampleTable.
Definition sampleEmits (cfg : Config)
  : Candidate -> TaskState -> HfSelToXiPiRow -> Prop :=
  @emits SampleTrack SampleTrack sampleRow sampleRow
    sampleFramework cfg sampleTable sampleTable.

(** The row of the sample candidate with positive decay sign: every flag is
    true, all four tracks have TPC information (mask 15), the negative
    daughter (the proton here) and no other has TOF information (mask 2). *)
Example sample_candidate_row :
  exists st',
    sampleProcessCandidate defaultConfig (sampleCandidate 1 1) init
    = Done tt st'
    /\ hfSelToXiPi st'
       = [ {| row_statusPidLambda := true;
              row_statusPidCascade := true;
              row_statusPidCharmBaryon := true;
              row_statusInvMassLambda := true;
              row_statusInvMassCascade := true;
              row_statusInvMassCharmBaryon := true;
              row_resultSelections := true;
              row_infoTpcStored := 15%Z;
              row_infoTofStored := 2%Z;
              row_tpcNSigmaPiFromCharmBaryon := 0.5%float;
              row_tpcNSigmaPiFromCasc := 0.5%float;
              row_tpcNSigmaPiFromLambda := 0.5%float;
              row_tpcNSigmaPrFromLambda := (-0.75)%float;
              row_tofNSigmaPiFromCharmBaryon := 0%float;
              row_tofNSigmaPiFromCasc := 0%float;
              row_tofNSigmaPiFromLambda := 0%float;
              row_tofNSigmaPrFromLambda := 2%float |} ]
    /\ List.length (registry st') = 40%nat
    /\ hInvMassCharmBaryon st' = [2.47%float].
Proof.
  eexists. split; [vm_compute; reflexivity|]. repeat split.
Qed.

Lemma resultSelections_is_conjunction_witness :
  validPid defaultConfig = true
  /\ exists row,
       sampleEmits defaultConfig (sampleCandidate 1 1) init row
       /\ row_resultSelections row = true.
Proof.
  split; [reflexivity|].
  destruct (@resultSelections_is_conjunction _ _ sampleRow sampleRow
              sampleFramework defaultConfig sampleTable sampleTable
              (sampleCandidate 1 1) init eq_refl) as (row & He & Hr).
  exists row. split; [exact He|]. rewrite Hr. vm_compute. reflexivity.
Defined.

Lemma pid_flags_nested_witness :
  validPid defaultConfig = true
  /\ exists row,
       sampleEmits defaultConfig (sampleCandidate 1 1) init row
       /\ (row_statusPidCascade row = true -> row_statusPidLambda row = true)
       /\ (row_statusPidCharmBaryon row = true
           -> row_statusPidCascade row = true).
Proof.
  split; [reflexivity|].
  exact (@pid_flags_nested _ _ sampleRow sampleRow sampleFramework
           defaultConfig sampleTable sampleTable (sampleCandidate 1 1) init
           eq_refl).
Defined.

Lemma roles_follow_signDecay_witness :
  validPid defaultConfig = true
  /\ exists st' row,
       sampleProcessCandidate defaultConfig (sampleCandidate 1 1) init
       = Done tt st'
       /\ hfSelToXiPi st' = [row]
       /\ row_tpcNSigmaPiFromLambda row = 0.5%float
       /\ row_tpcNSigmaPrFromLambda row = (-0.75)%float.
Proof.
  split; [reflexivity|].
  destruct (@roles_follow_signDecay _ _ sampleRow sampleRow sampleFramework
              defaultConfig sampleTable sampleTable (sampleCandidate 1 1)
              init eq_refl) as (st' & row & Hrun & Hrow & Hpos & _).
  exists st', row. split; [exact Hrun|]. split; [exact Hrow|].
  destruct (Hpos eq_refl) as (Hpi & Hpr & _). split; assumption.
Defined.

Lemma zero_sign_uses_default_roles_witness :
  validPid defaultConfig = true
  /\ signDecay (sampleCandidate 0 1) = 0%Z
  /\ exists st' row,
       sampleProcessCandidate defaultConfig (sampleCandidate 0 1) init
       = Done tt st'
       /\ hfSelToXiPi st' = [row]
       /\ row_tpcNSigmaPiFromLambda row = (-1.5)%float
       /\ row_tpcNSigmaPrFromLambda row = 0.25%float
       /\ tally (registry st') "hSelSignDec" 0 = 0%nat
       /\ tally (registry st') "hSelSignDec" 1 = 0%nat.
Proof.
  split; [reflexivity|]. split; [reflexivity|].
  destruct (@zero_sign_uses_default_roles _ _ sampleRow sampleRow
              sampleFramework defaultConfig sampleTable sampleTable
              (sampleCandidate 0 1) init eq_refl eq_refl)
    as (st' & row & Hrun & Hrow & (Hpi & Hpr & _) & Ht).
  exists st', row. rewrite !Ht.
  repeat split; assumption.
Defined.

(** At [edgeCandidate] the Lambda deviation is exactly the tolerance and
    the cascade deviation exactly its opposite: both flags are false. *)
Lemma mass_windows_strict_and_symmetric_witness :
  validPid defaultConfig = true
  /\ PrimFloat.eqb
       (@deviationLambda sampleFramework edgeCandidate)
       (v0MassWindow defaultConfig) = true
  /\ PrimFloat.eqb
       (@deviationCascade sampleFramework edgeCandidate)
       (PrimFloat.opp (cascadeMassWindow defaultConfig)) = true
  /\ exists row,
       sampleEmits defaultConfig edgeCandidate init row
       /\ row_statusInvMassLambda row = false
       /\ row_statusInvMassCascade row = false.
Proof.
  split; [reflexivity|]. split; [reflexivity|]. split; [reflexivity|].
  destruct (@mass_windows_strict_and_symmetric _ _ sampleRow sampleRow
              sampleFramework defaultConfig sampleTable sampleTable
              edgeCandidate init eq_refl)
    as (row & He & _ & _ & Hl & Hc & _).
  exists row. split; [exact He|].
  split; [apply Hl; left|apply Hc; right]; reflexivity.
Defined.

(** At [edgeCandidate] the charm-baryon mass equals the lower bound of the
    range, and is accepted. *)
Lemma charm_baryon_mass_closed_interval_witness :
  validPid defaultConfig = true
  /\ (invMassCharmBaryonMin defaultConfig
      <= invMassCharmBaryonMax defaultConfig)%D = true
  /\ PrimFloat.eqb (invMassCharmBaryon edgeCandidate)
                   (invMassCharmBaryonMin defaultConfig) = true
  /\ exists row,
       sampleEmits defaultConfig edgeCandidate init row
       /\ row_statusInvMassCharmBaryon row = true.
Proof.
  split; [reflexivity|]. split; [reflexivity|]. split; [reflexivity|].
  destruct (@charm_baryon_mass_closed_interval _ _ sampleRow sampleRow
              sampleFramework defaultConfig sampleTable sampleTable
              edgeCandidate init eq_refl)
    as (row & He & _ & Hedge).
  exists row. split; [exact He|].
  apply Hedge; [|left]; reflexivity.
Defined.

Lemma one_row_per_candidate_witness :
  validPid defaultConfig = true
  /\ exists st' rows,
       sampleProcess defaultConfig
         [sampleCandidate 1 1; sampleCandidate (-1) 0.5; sampleCandidate 0 1]
         init = Done tt st'
       /\ hfSelToXiPi st' = rows
       /\ List.length rows = 3%nat.
Proof.
  split; [reflexivity|].
  destruct (@one_row_per_candidate _ _ sampleRow sampleRow sampleFramework
              defaultConfig sampleTable sampleTable
              [sampleCandidate 1 1; sampleCandidate (-1) 0.5;
               sampleCandidate 0 1] init eq_refl)
    as (st' & rows & Hrun & Hrows & Hlen & _).
  exists st', rows. repeat split; assumption.
Defined.

(** The six flags of the candidate with the failing radius are all true. *)
Example failing_radius_keeps_pid_and_mass_flags :
  exists st' row,
    sampleProcessCandidate defaultConfig (sampleCandidate 1 0.5) init
    = Done tt st'
    /\ hfSelToXiPi st' = [row]
    /\ row_resultSelections row = false
    /\ row_statusPidLambda row = true
    /\ row_statusPidCascade row = true
    /\ row_statusPidCharmBaryon row = true
    /\ row_statusInvMassLambda row = true
    /\ row_statusInvMassCascade row = true
    /\ row_statusInvMassCharmBaryon row = true.
Proof.
  eexists. eexists. split; [vm_compute; reflexivity|].
  split; [reflexivity|]. repeat split.
Qed.

Lemma pid_misconfiguration_aborts_inside_first_candidate_witness :
  validPid (configWithPid true true) = false
  /\ exists st',
       sampleProcess (configWithPid true true)
         [sampleCandidate 1 1; sampleCandidate 1 0.5] init
       = Fatal fatalPidMessage st'
       /\ hfSelToXiPi st' = [].
Proof.
  split; [reflexivity|].
  destruct (@pid_misconfiguration_aborts_inside_first_candidate
              _ _ sampleRow sampleRow sampleFramework
              (configWithPid true true) sampleTable sampleTable
              [sampleCandidate 1 1; sampleCandidate 1 0.5] init)
    as (_ & Hbad).
  destruct (Hbad eq_refl) as (st' & Hrun & _ & _ & Hrows & _).
  exists st'. split; assumption.
Defined.

(** C2, as stated, fails.  Under an invalid PID configuration (both
    switches on) a run over no candidate ends normally, without any abort;
    and a run over one candidate aborts only after that candidate's cuts
    have been evaluated and tallied: at the abort the registry holds 25
    fills, among them the pass entry of the cascade-radius cut. *)
Lemma pid_misconfiguration_counterexample :
  validPid (configWithPid true true) = false
  /\ sampleProcess (configWithPid true true) [] init = Done tt init
  /\ exists st',
       sampleProcess (configWithPid true true) [sampleCandidate 1 1] init
       = Fatal fatalPidMessage st'
       /\ List.length (registry st') = 25%nat
       /\ tally (registry st') "hSelRadCasc" 1 = 1%nat
       /\ tally (registry st') "hSelEtaPosV0Dau" 1 = 1%nat.
Proof.
  split; [reflexivity|]. split; [reflexivity|].
  eexists. split; [vm_compute; reflexivity|].
  repeat split.
Qed.

End Selector.

Module Vertexer.

(** *** One row of [soa::Join<aod::Tracks, aod::TracksCov>]: the columns
    [process] reads, and the row's index in the table *)

Record Track : Set := {
  index : Z;
  x : double;
  alpha : double;
  y : double;
  z : double;
  snp : double;
  tgl : double;
  signed1Pt : double;
  cYY : double; cZY : double; cZZ : double; cSnpY : double; cSnpZ : double;
  cSnpSnp : double; cTglY : double; cTglZ : double; cTglSnp : double;
  cTglTgl : double; c1PtY : double; c1PtZ : double; c1PtSnp : double;
  c1PtTgl : double; c1Pt21Pt2 : double
}.

(** [o2::track::TrackParCov(x, alpha, par, cov)] *)
Record TrackParCov : Set := {
  parX : double;
  parAlpha : double;
  par : list double;
  cov : list double
}.

(** [o2::base::DCAFitter::Triplet] *)
Module Triplet.
Record t : Set := { x : double; y : double; z : double }.
End Triplet.

(** The DCA fitter is a stateful object of the framework; [process] returns
    the number of candidates and leaves them in the fitter, where
    [getPCACandidate] reads them. *)
Class DCAFitter (F : Type) : Type := {
  newDCAFitter : double -> double -> F;
  setUseAbsDCA : bool -> F -> F;
  fitterProcess : TrackParCov -> TrackParCov -> F -> Z * F;
  getPCACandidate : Z -> F -> Triplet.t
}.

(** One row of the produced table [aod::SecVtx]. *)
Record SecVtxRow : Set := {
  posx : double;
  posy : double;
  index0 : Z;
  index1 : Z;
  index2 : Z;
  tracky0 : double;
  tracky1 : double;
  tracky2 : double
}.

(** What the task mutates: four histograms, kept as the lists of the filled
    values, and the produced table. *)
Record TaskState : Set := {
  hvtx_x_out : list double;
  hvtx_y_out : list double;
  hvtx_z_out : list double;
  hindex_0_coll : list Z;
  secvtx : list SecVtxRow
}.

Definition trackParCov (t : Track) : TrackParCov :=
  {| parX := x t;
     parAlpha := alpha t;
     par := [y t; z t; snp t; tgl t; signed1Pt t];
     cov := [cYY t; cZY t; cZZ t; cSnpY t; cSnpZ t;
             cSnpSnp t; cTglY t; cTglZ t; cTglSnp t; cTglTgl t;
             c1PtY t; c1PtZ t; c1PtSnp t; c1PtTgl t; c1Pt21Pt2 t] |}.

(** Conversion of a row index to [int], the type of the columns [fIndex0],
    [fIndex1] and [fIndex2]: the value modulo 2^32 that lies in
    [-2^31, 2^31). *)
Definition toInt (n : Z) : Z :=
  ((n + 2147483648) mod 4294967296 - 2147483648)%Z.

(** The row indices that an [int] holds. *)
Definition inIntRange (n : Z) : Prop := (-2147483648 <= n < 2147483648)%Z.

(** Two tracks of the input, at positions [pos0] and [pos1]. *)
Record TrackPair : Set := {
  pos0 : nat;
  pos1 : nat;
  pairTrack0 : Track;
  pairTrack1 : Track
}.

(** One call of [df.process]: the pair it was given, the number of
    candidates it returned, and the fitter as the call left it. *)
Record Fit (F : Type) : Type := {
  fitPair : TrackPair;
  nCand : Z;
  fitterAfter : F
}.

Section Process.

Context {F : Type} {fitter : DCAFitter F}.

(** The row written for candidate [vtx] of the pair [(track_0, track_1)]:
    [secvtx(vtx.x, vtx.y, track_0.index(), track_1.index(), -1.,
            track_0.y(), track_1.y(), -1.)].  The columns [fIndex0] and
    [fIndex1] are declared [int]: the two row indices are converted. *)
Definition secvtxRow (vtx : Triplet.t) (track_0 track_1 : Track) : SecVtxRow :=
  {| posx := Triplet.x vtx;
     posy := Triplet.y vtx;
     index0 := toInt (index track_0);
     index1 := toInt (index track_1);
     index2 := (-1)%Z;
     tracky0 := y track_0;
     tracky1 := y track_1;
     tracky2 := (-1)%float |}.

(** Body of [for (int ic = 0; ic < nCand; ic++)]. *)
Definition candidateBody (df : F) (track_0 track_1 : Track)
           (st : TaskState) (ic : Z) : TaskState :=
  let vtx := getPCACandidate ic df in
  {| hvtx_x_out := hvtx_x_out st ++ [Triplet.x vtx];
     hvtx_y_out := hvtx_y_out st ++ [Triplet.y vtx];
     hvtx_z_out := hvtx_z_out st ++ [Triplet.z vtx];
     hindex_0_coll := hindex_0_coll st;
     secvtx := secvtx st ++ [secvtxRow vtx track_0 track_1] |}.

(** Body of the inner loop over [it_1]. *)
Definition pairBody (track_0 : Track) (trackparvar0 : TrackParCov)
           (track_1 : Track) (s : F * TaskState) : F * TaskState :=
  let '(df, st) := s in
  let trackparvar1 := trackParCov track_1 in
  let df := setUseAbsDCA true df in
  let '(nCand, df) := fitterProcess trackparvar0 trackparvar1 df in
  (df, fold_left (candidateBody df track_0 track_1) (countedRange nCand) st).

(** [for (auto it_1 = it_0 + 1; it_1 != tracks.end(); ++it_1)], on the rows
    that follow [it_0]. *)
Fixpoint innerLoop (track_0 : Track) (trackparvar0 : TrackParCov)
         (following : list Track) (s : F * TaskState) : F * TaskState :=
  match following with
  | [] => s
  | track_1 :: rest =>
      innerLoop track_0 trackparvar0 rest
                (pairBody track_0 trackparvar0 track_1 s)
  end.

(** [for (auto it_0 = tracks.begin(); it_0 != tracks.end(); ++it_0)], on the
    rows from [it_0] on. *)
Fixpoint outerLoop (remaining : list Track) (s : F * TaskState)
  : F * TaskState :=
  match remaining with
  | [] => s
  | track_0 :: following =>
      let '(df, st) := s in
      let st := {| hvtx_x_out := hvtx_x_out st;
                   hvtx_y_out := hvtx_y_out st;
                   hvtx_z_out := hvtx_z_out st;
                   hindex_0_coll := hindex_0_coll st ++ [index track_0];
                   secvtx := secvtx st |} in
      let trackparvar0 := trackParCov track_0 in
      outerLoop following (innerLoop track_0 trackparvar0 following (df, st))
  end.

(** [VertexerHFTask::process(collision, tracks)] *)
Definition process (tracks : list Track) (st : TaskState) : TaskState :=
  let df := newDCAFitter 5.0%float 10%float in
  snd (outerLoop tracks (df, st)).


(** *** The two loops as a list of fits

    The pairs in the order in which the loops reach them, the fits that the
    fitter makes of them one after the other, and the rows written after
    each fit. *)

(** The pairs of the track at position [i] with the tracks that follow it,
    the first of which is at position [j]. *)
Fixpoint pairsWith (i : nat) (track_0 : Track) (j : nat)
         (following : list Track) : list TrackPair :=
  match following with
  | [] => []
  | track_1 :: rest =>
      {| pos0 := i; pos1 := j; pairTrack0 := track_0; pairTrack1 := track_1 |}
      :: pairsWith i track_0 (S j) rest
  end.

(** The pairs among [remaining], whose first row is at position [i]. *)
Fixpoint pairsFrom (i : nat) (remaining : list Track) : list TrackPair :=
  match remaining with
  | [] => []
  | track_0 :: following =>
      pairsWith i track_0 (S i) following ++ pairsFrom (S i) following
  end.

Definition trackPairs (tracks : list Track) : list TrackPair :=
  pairsFrom 0 tracks.

Definition positions (p : TrackPair) : nat * nat := (pos0 p, pos1 p).

(** [df.setUseAbsDCA(true); int nCand = df.process(trackparvar0,
    trackparvar1);] for the pair [p], with the fitter [df]. *)
Definition fitPairOnce (df : F) (p : TrackPair) : Fit F :=
  let '(n, df') :=
    fitterProcess (trackParCov (pairTrack0 p)) (trackParCov (pairTrack1 p))
                  (setUseAbsDCA true df) in
  {| fitPair := p; nCand := n; fitterAfter := df' |}.

(** The fits of a list of pairs, each with the fitter left by the one
    before. *)
Fixpoint runFits (df : F) (pairs : list TrackPair) : list (Fit F) :=
  match pairs with
  | [] => []
  | p :: rest =>
      let f := fitPairOnce df p in
      f :: runFits (fitterAfter f) rest
  end.

(** The fitter after a list of fits that started with [df]. *)
Definition lastFitter (df : F) (fits : list (Fit F)) : F :=
  fold_left (fun _ f => fitterAfter f) fits df.

(** The row written for candidate number [ic] of a fit. *)
Definition rowOfCandidate (f : Fit F) (ic : Z) : SecVtxRow :=
  secvtxRow (getPCACandidate ic (fitterAfter f))
            (pairTrack0 (fitPair f)) (pairTrack1 (fitPair f)).

(** A visit: the positions of the two tracks in the input, the number of the
    fit candidate, and the row written for it. *)
Definition Visit : Set := (nat * nat * Z) * SecVtxRow.

(** The visits after one fit: its candidates [0 .. nCand - 1], in this
    order. *)
Definition visitsOfFit (f : Fit F) : list Visit :=
  map (fun ic => ((pos0 (fitPair f), pos1 (fitPair f), ic),
                  rowOfCandidate f ic))
      (countedRange (nCand f)).

(** The fits and the visits of a call of [process]. *)
Definition fitsOf (tracks : list Track) : list (Fit F) :=
  runFits (newDCAFitter 5.0%float 10%float) (trackPairs tracks).

Definition visits (tracks : list Track) : list Visit :=
  flat_map visitsOfFit (fitsOf tracks).

(** What a row keeps of the pair it was written for. *)
Definition rowFromPair (p : TrackPair) (r : SecVtxRow) : Prop :=
  index0 r = toInt (index (pairTrack0 p))
  /\ index1 r = toInt (index (pairTrack1 p))
  /\ tracky0 r = y (pairTrack0 p)
  /\ tracky1 r = y (pairTrack1 p)
  /\ index2 r = (-1)%Z
  /\ tracky2 r = (-1)%float.

(** Orders of the pairs and of the visits: by first position, then second
    position, then candidate number. *)
Definition pairLt (a b : nat * nat) : Prop :=
  (fst a < fst b)%nat \/ (fst a = fst b /\ (snd a < snd b)%nat).

Definition visitLt (a b : nat * nat * Z) : Prop :=
  pairLt (fst a) (fst b) \/ (fst a = fst b /\ (snd a < snd b)%Z).

(** **** Conversion to [int] *)

Lemma toInt_inIntRange n : inIntRange n -> toInt n = n.
Proof.
  unfold inIntRange, toInt. intros H.
  rewrite Z.mod_small by lia. lia.
Qed.

(** **** Sorted lists *)

Lemma StronglySorted_app {A : Type} (R : A -> A -> Prop) l1 l2 :
  StronglySorted R l1 -> StronglySorted R l2 ->
  (forall a b, In a l1 -> In b l2 -> R a b) ->
  StronglySorted R (l1 ++ l2).
Proof.
  induction l1 as [|a l1 IH]; intros S1 S2 H; cbn; [exact S2|].
  inversion S1 as [|? ? S1' F1]; subst. constructor.
  - apply IH; trivial. intros x b Hx Hb. apply H; [now right|exact Hb].
  - apply Forall_app. split; [exact F1|].
    apply Forall_forall. intros b Hb. apply H; [now left|exact Hb].
Qed.

Lemma StronglySorted_map {A B : Type} (R : A -> A -> Prop)
      (Q : B -> B -> Prop) (f : A -> B) l :
  (forall a b, In a l -> In b l -> R a b -> Q (f a) (f b)) ->
  StronglySorted R l -> StronglySorted Q (map f l).
Proof.
  intros Hf S. induction S as [|a l S IH Fa]; cbn; constructor.
  - apply IH. intros x z Hx Hz. apply Hf; now right.
  - apply Forall_map. rewrite Forall_forall in *. intros b Hb.
    apply Hf; [now left|now right|now apply Fa].
Qed.

Lemma StronglySorted_map_inv {A B : Type} (Q : B -> B -> Prop) (f : A -> B) l :
  StronglySorted Q (map f l) ->
  StronglySorted (fun a b => Q (f a) (f b)) l.
Proof.
  induction l as [|a l IH]; cbn; intros S; [constructor|].
  inversion S as [|? ? S1 F1]; subst. constructor; [now apply IH|].
  rewrite Forall_forall in *. intros b Hb. apply F1. now apply in_map.
Qed.

Lemma StronglySorted_flat_map {A B : Type} (R : A -> A -> Prop)
      (Q : B -> B -> Prop) (g : A -> list B) l :
  (forall a, In a l -> StronglySorted Q (g a)) ->
  (forall a b x z, In a l -> In b l -> R a b ->
                   In x (g a) -> In z (g b) -> Q x z) ->
  StronglySorted R l -> StronglySorted Q (flat_map g l).
Proof.
  intros Hg Hq S. induction S as [|a l S IH Fa]; cbn; [constructor|].
  apply StronglySorted_app.
  - apply Hg. now left.
  - apply IH.
    + intros b Hb. apply Hg. now right.
    + intros b c x z Hb Hc. apply Hq; now right.
  - intros x z Hx Hz. apply in_flat_map in Hz. destruct Hz as (b & Hb & Hz).
    rewrite Forall_forall in Fa.
    apply (Hq a b); trivial; [now left|now right|now apply Fa].
Qed.

Lemma StronglySorted_NoDup {A : Type} (R : A -> A -> Prop) l :
  (forall a, ~ R a a) -> StronglySorted R l -> NoDup l.
Proof.
  intros Hirr S. induction S as [|a l S IH Fa]; constructor; trivial.
  intros Hin. rewrite Forall_forall in Fa. exact (Hirr a (Fa a Hin)).
Qed.

Lemma seq_StronglySorted len : forall start,
  StronglySorted lt (seq start len).
Proof.
  induction len as [|len IH]; intros start; cbn; constructor.
  - apply IH.
  - apply Forall_forall. intros b Hb. apply in_seq in Hb. lia.
Qed.

Lemma countedRange_StronglySorted n : StronglySorted Z.lt (countedRange n).
Proof.
  unfold countedRange.
  apply StronglySorted_map with (R := lt); [intros; lia|].
  apply seq_StronglySorted.
Qed.

Lemma countedRange_nonneg n ic : In ic (countedRange n) -> (0 <= ic)%Z.
Proof.
  unfold countedRange. rewrite in_map_iff. intros (k & <- & _). lia.
Qed.

Lemma pairLt_irrefl a : ~ pairLt a a.
Proof. unfold pairLt. lia. Qed.

Lemma visitLt_irrefl a : ~ visitLt a a.
Proof.
  unfold visitLt. intros [H|[_ H]]; [now apply pairLt_irrefl in H|lia].
Qed.

(** **** The pairs *)

Lemma pairsWith_In i t0 following : forall j p,
  In p (pairsWith i t0 j following)
  <-> pos0 p = i /\ pairTrack0 p = t0
      /\ exists m, pos1 p = (j + m)%nat
                   /\ nth_error following m = Some (pairTrack1 p).
Proof.
  induction following as [|t1 rest IH]; intros j p; cbn [pairsWith In].
  - split; [contradiction|]. intros (_ & _ & [|m] & _ & H); discriminate.
  - rewrite IH. split.
    + intros [<-|(H0 & Ht & m & Hm & Hn)]; cbn.
      * repeat split. exists 0%nat. split; [lia|reflexivity].
      * repeat split; trivial. exists (S m). split; [lia|exact Hn].
    + intros (H0 & Ht & [|m] & Hm & Hn); cbn in Hn.
      * left. destruct p as [a b u0 u1]; cbn in *.
        injection Hn as <-. subst. f_equal. lia.
      * right. repeat split; trivial. exists m. split; [lia|exact Hn].
Qed.

Lemma pairsFrom_In remaining : forall i p,
  In p (pairsFrom i remaining)
  <-> exists a b,
        pos0 p = (i + a)%nat /\ pos1 p = (i + b)%nat /\ (a < b)%nat
        /\ nth_error remaining a = Some (pairTrack0 p)
        /\ nth_error remaining b = Some (pairTrack1 p).
Proof.
  induction remaining as [|t0 following IH]; intros i p; cbn [pairsFrom].
  - split; [contradiction|]. intros ([|a] & b & _ & _ & _ & H & _); discriminate.
  - rewrite in_app_iff, pairsWith_In, IH. split.
    + intros [(H0 & Ht & m & Hm & Hn)|(a & b & H0 & H1 & Hlt & Ha & Hb)].
      * exists 0%nat, (S m). cbn. rewrite Ht.
        repeat split; trivial; lia.
      * exists (S a), (S b). cbn. repeat split; trivial; lia.
    + intros ([|a] & [|b] & H0 & H1 & Hlt & Ha & Hb); cbn in Ha, Hb;
        try lia.
      * left. injection Ha as Ha. repeat split; [lia|now symmetry|].
        exists b. split; [lia|exact Hb].
      * right. exists a, b. repeat split; trivial; lia.
Qed.

Lemma trackPairs_In tracks p :
  In p (trackPairs tracks)
  <-> (pos0 p < pos1 p)%nat
      /\ nth_error tracks (pos0 p) = Some (pairTrack0 p)
      /\ nth_error tracks (pos1 p) = Some (pairTrack1 p).
Proof.
  unfold trackPairs. rewrite pairsFrom_In. split.
  - intros (a & b & H0 & H1 & Hlt & Ha & Hb). cbn in H0, H1.
    rewrite H0, H1. repeat split; trivial.
  - intros (Hlt & Ha & Hb). exists (pos0 p), (pos1 p). repeat split; trivial.
Qed.

Lemma pairsWith_sorted i t0 following : forall j,
  StronglySorted pairLt (map positions (pairsWith i t0 j following)).
Proof.
  induction following as [|t1 rest IH]; intros j; cbn; constructor.
  - apply IH.
  - apply Forall_map, Forall_forall. intros p Hp.
    apply pairsWith_In in Hp. destruct Hp as (H0 & _ & m & Hm & _).
    unfold pairLt, positions. cbn. right. split; [now symmetry|lia].
Qed.

Lemma pairsFrom_sorted remaining : forall i,
  StronglySorted pairLt (map positions (pairsFrom i remaining)).
Proof.
  induction remaining as [|t0 following IH]; intros i; cbn [pairsFrom map].
  - constructor.
  - rewrite map_app. apply StronglySorted_app.
    + apply pairsWith_sorted.
    + apply IH.
    + intros a b Ha Hb.
      apply in_map_iff in Ha. destruct Ha as (p & <- & Hp).
      apply in_map_iff in Hb. destruct Hb as (q & <- & Hq).
      apply pairsWith_In in Hp. destruct Hp as (H0 & _).
      apply pairsFrom_In in Hq. destruct Hq as (a & b & Hq0 & _).
      unfold pairLt, positions. cbn. left. lia.
Qed.

(** **** The fits *)

Lemma fitPair_fitPairOnce df p : fitPair (fitPairOnce df p) = p.
Proof.
  unfold fitPairOnce. now destruct (fitterProcess _ _ _).
Qed.

Lemma fitPair_runFits pairs : forall df,
  map (@fitPair F) (runFits df pairs) = pairs.
Proof.
  induction pairs as [|p rest IH]; intros df; cbn; [reflexivity|].
  now rewrite fitPair_fitPairOnce, IH.
Qed.

Lemma runFits_app l1 l2 : forall df,
  runFits df (l1 ++ l2)
  = runFits df l1 ++ runFits (lastFitter df (runFits df l1)) l2.
Proof.
  induction l1 as [|p rest IH]; intros df; cbn; [reflexivity|].
  now rewrite IH.
Qed.

Lemma secvtx_candidateLoop df t0 t1 ics st :
  secvtx (fold_left (candidateBody df t0 t1) ics st)
  = secvtx st ++ map (fun ic => secvtxRow (getPCACandidate ic df) t0 t1) ics.
Proof.
  revert st. induction ics as [|ic ics IH]; intros st; simpl.
  - now rewrite app_nil_r.
  - rewrite IH. simpl. now rewrite <- app_assoc.
Qed.

(** The body of the inner loop is one fit and the rows of its
    candidates. *)
Lemma pairBody_fit i j t0 t1 df st :
  let f := fitPairOnce df {| pos0 := i; pos1 := j;
                             pairTrack0 := t0; pairTrack1 := t1 |} in
  fst (pairBody t0 (trackParCov t0) t1 (df, st)) = fitterAfter f
  /\ secvtx (snd (pairBody t0 (trackParCov t0) t1 (df, st)))
     = secvtx st ++ map snd (visitsOfFit f).
Proof.
  unfold pairBody, fitPairOnce, visitsOfFit, rowOfCandidate. cbn.
  destruct (fitterProcess _ _ _) as [n df']. cbn.
  split; [reflexivity|].
  now rewrite secvtx_candidateLoop, map_map.
Qed.

Lemma innerLoop_fits i t0 following : forall j df st,
  let fits := runFits df (pairsWith i t0 j following) in
  fst (innerLoop t0 (trackParCov t0) following (df, st)) = lastFitter df fits
  /\ secvtx (snd (innerLoop t0 (trackParCov t0) following (df, st)))
     = secvtx st ++ map snd (flat_map visitsOfFit fits).
Proof.
  induction following as [|t1 rest IH]; intros j df st.
  - cbn. now rewrite app_nil_r.
  - cbn [innerLoop pairsWith runFits flat_map].
    destruct (pairBody_fit i j t0 t1 df st) as (Hf & Hs).
    destruct (pairBody t0 (trackParCov t0) t1 (df, st)) as [df1 st1].
    cbn [fst snd] in Hf, Hs.
    destruct (IH (S j) df1 st1) as (Hf2 & Hs2).
    cbn zeta. unfold lastFitter. cbn [fold_left].
    rewrite Hf2, Hs2, Hs, Hf, map_app, app_assoc. split; reflexivity.
Qed.

Lemma outerLoop_fits remaining : forall i df st,
  secvtx (snd (outerLoop remaining (df, st)))
  = secvtx st
    ++ map snd (flat_map visitsOfFit (runFits df (pairsFrom i remaining))).
Proof.
  induction remaining as [|t0 following IH]; intros i df st.
  - cbn. now rewrite app_nil_r.
  - cbn [outerLoop pairsFrom].
    match goal with
    | |- context [innerLoop t0 (trackParCov t0) following (df, ?s0)] =>
        destruct (innerLoop_fits i t0 following (S i) df s0) as (Hf & Hs);
        destruct (innerLoop t0 (trackParCov t0) following (df, s0))
          as [df1 st1]
    end.
    cbn [fst snd secvtx] in Hf, Hs.
    rewrite (IH (S i) df1 st1), Hs, Hf, runFits_app, flat_map_app, map_app,
      app_assoc.
    reflexivity.
Qed.

(** The produced table after [process]: the rows of the visits, in their
    order. *)
Lemma secvtx_process_visits tracks st :
  secvtx (process tracks st) = secvtx st ++ map snd (visits tracks).
Proof.
  unfold process, visits, fitsOf, trackPairs. apply outerLoop_fits.
Qed.

Lemma visitsOfFit_sorted (f : Fit F) :
  StronglySorted visitLt (map fst (visitsOfFit f)).
Proof.
  unfold visitsOfFit. rewrite map_map. cbn [fst].
  apply StronglySorted_map with (R := Z.lt);
    [|apply countedRange_StronglySorted].
  intros a b _ _ Hab. right. cbn. now split.
Qed.

(** The visits are in increasing order. *)
Lemma visits_sorted tracks : StronglySorted visitLt (map fst (visits tracks)).
Proof.
  unfold visits, fitsOf.
  assert (Hs : StronglySorted
                 (fun f g : Fit F => pairLt (positions (fitPair f))
                                            (positions (fitPair g)))
                 (runFits (newDCAFitter 5.0%float 10%float)
                          (trackPairs tracks))).
  { apply StronglySorted_map_inv with (f := fun f : Fit F => positions (fitPair f)).
    rewrite <- map_map, fitPair_runFits. apply pairsFrom_sorted. }
  rewrite flat_map_concat_map, concat_map, map_map, <- flat_map_concat_map.
  eapply StronglySorted_flat_map; [| |exact Hs].
  - intros f _. apply visitsOfFit_sorted.
  - intros f g a b _ _ Hfg Ha Hb.
    apply in_map_iff in Ha. destruct Ha as (v & <- & Hv).
    apply in_map_iff in Hb. destruct Hb as (w & <- & Hw).
    unfold visitsOfFit in Hv, Hw.
    apply in_map_iff in Hv. destruct Hv as (ic & <- & _).
    apply in_map_iff in Hw. destruct Hw as (ic' & <- & _).
    left. exact Hfg.
Qed.

Lemma rowFromPair_visitsOfFit (f : Fit F) :
  Forall (fun v => rowFromPair (fitPair f) (snd v)) (visitsOfFit f).
Proof.
  unfold visitsOfFit. apply Forall_map, Forall_forall. intros ic _.
  cbn. unfold rowFromPair, rowOfCandidate. cbn. repeat split.
Qed.

Lemma fitPair_fitsOf tracks : map (@fitPair F) (fitsOf tracks) = trackPairs tracks.
Proof. apply fitPair_runFits. Qed.

(** The tracks of a fitted pair are rows of the input, the first before the
    second. *)
Lemma fitsOf_pair tracks f :
  In f (fitsOf tracks) ->
  (pos0 (fitPair f) < pos1 (fitPair f))%nat
  /\ nth_error tracks (pos0 (fitPair f)) = Some (pairTrack0 (fitPair f))
  /\ nth_error tracks (pos1 (fitPair f)) = Some (pairTrack1 (fitPair f)).
Proof.
  intros Hf. apply trackPairs_In. rewrite <- fitPair_fitsOf.
  now apply in_map.
Qed.

(** C10 (amended).  The rows that the vertex finder appends to [SecVtx] are
    the rows of its visits, in order.  The fitter is called once for every
    pair of input rows at positions [i < j], for no other pair, and in the
    order of the loops, each call starting from the fitter that the call
    before left; after a fit that reports [nCand] candidates, one row is
    written for every candidate number [0 .. nCand - 1], in this order, from
    that candidate of that fit.  So no triple (first position, second
    position, candidate number) is visited twice.  A row holds the [y] of
    its two tracks, their indices converted to [int], and the sentinels
    [index2 = -1] and [tracky2 = -1].  When the indices of the input fit in
    an [int] and tell its rows apart, [index0] and [index1] are the indices
    of the two tracks and differ in every row. *)
Theorem secvtx_rows_from_ordered_pairs tracks st :
  secvtx (process tracks st) = secvtx st ++ map snd (visits tracks)
  /\ map (@fitPair F) (fitsOf tracks) = trackPairs tracks
  /\ (forall p,
         In p (trackPairs tracks)
         <-> (pos0 p < pos1 p)%nat
             /\ nth_error tracks (pos0 p) = Some (pairTrack0 p)
             /\ nth_error tracks (pos1 p) = Some (pairTrack1 p))
  /\ NoDup (map positions (trackPairs tracks))
  /\ Forall (fun f => map (fun v => snd (fst v)) (visitsOfFit f)
                      = countedRange (nCand f)
                      /\ Forall (fun v => rowFromPair (fitPair f) (snd v))
                                (visitsOfFit f))
            (fitsOf tracks)
  /\ NoDup (map fst (visits tracks))
  /\ ((forall t, In t tracks -> inIntRange (index t)) ->
      (forall i j t0 t1,
          nth_error tracks i = Some t0 ->
          nth_error tracks j = Some t1 ->
          index t0 = index t1 -> i = j) ->
      Forall (fun f =>
                Forall (fun v =>
                          index0 (snd v) = index (pairTrack0 (fitPair f))
                          /\ index1 (snd v) = index (pairTrack1 (fitPair f))
                          /\ index0 (snd v) <> index1 (snd v))
                       (visitsOfFit f))
             (fitsOf tracks)).
Proof.
  split; [apply secvtx_process_visits|].
  split; [apply fitPair_fitsOf|].
  split; [apply trackPairs_In|].
  split.
  { apply StronglySorted_NoDup with (R := pairLt); [apply pairLt_irrefl|].
    apply pairsFrom_sorted. }
  split.
  { apply Forall_forall. intros f _. split.
    - unfold visitsOfFit. rewrite map_map. cbn. apply map_id.
    - apply rowFromPair_visitsOfFit. }
  split.
  { apply StronglySorted_NoDup with (R := visitLt); [apply visitLt_irrefl|].
    apply visits_sorted. }
  intros Hrange Hinj. apply Forall_forall. intros f Hf.
  destruct (fitsOf_pair tracks f Hf) as (Hlt & H0 & H1).
  pose proof (rowFromPair_visitsOfFit f) as Hrows.
  eapply Forall_impl; [|exact Hrows].
  intros v (E0 & E1 & _). cbn beta.
  rewrite E0, E1, !toInt_inIntRange
    by (apply Hrange; eapply nth_error_In; eassumption).
  repeat split. intros Heq.
  pose proof (Hinj _ _ _ _ H0 H1 Heq). lia.
Qed.

End Process.

(** *** A sample run

    A stand-in fitter for running the model: it keeps the candidates of the
    last fit, and every fit yields one candidate, at the [y] and [z] of the
    first track and the [x] of the second. *)
Definition sampleFitter : DCAFitter (list Triplet.t) :=
  {| newDCAFitter := fun _ _ => [];
     setUseAbsDCA := fun _ f => f;
     fitterProcess := fun t0 t1 _ =>
       (1%Z, [ {| Triplet.x := parX t1;
                  Triplet.y := nth 0 (par t0) 0%float;
                  Triplet.z := nth 1 (par t0) 0%float |} ]);
     getPCACandidate := fun ic f =>
       nth (Z.to_nat ic) f
           {| Triplet.x := 0%float; Triplet.y := 0%float;
              Triplet.z := 0%float |} |}.

(** A track with the given index, [x] and [y]; its other columns are 0. *)
Definition sampleTrack (i : Z) (xv yv : double) : Track :=
  {| index := i; x := xv; alpha := 0%float; y := yv; z := 0%float;
     snp := 0%float; tgl := 0%float; signed1Pt := 0%float;
     cYY := 0%float; cZY := 0%float; cZZ := 0%float; cSnpY := 0%float;
     cSnpZ := 0%float; cSnpSnp := 0%float; cTglY := 0%float;
     cTglZ := 0%float; cTglSnp := 0%float; cTglTgl := 0%float;
     c1PtY := 0%float; c1PtZ := 0%float; c1PtSnp := 0%float;
     c1PtTgl := 0%float; c1Pt21Pt2 := 0%float |}.

Arguments sampleTrack i%_Z xv%_float yv%_float.

Definition emptyState : TaskState :=
  {| hvtx_x_out := []; hvtx_y_out := []; hvtx_z_out := [];
     hindex_0_coll := []; secvtx := [] |}.

(** Three tracks give the three pairs (10,11), (10,12), (11,12), in this
    order, and one fill of the index histogram per track. *)
Definition sampleTracks : list Track :=
  [sampleTrack 10 1 0.5; sampleTrack 11 2 0.25; sampleTrack 12 3 0.125].

Example process_three_tracks :
  let out := @process _ sampleFitter sampleTracks emptyState in
  map (fun r => (index0 r, index1 r, index2 r)) (secvtx out)
  = [(10, 11, -1); (10, 12, -1); (11, 12, -1)]%Z
  /\ map (fun r => (posx r, tracky0 r, tracky1 r, tracky2 r)) (secvtx out)
     = [(2, 0.5, 0.25, -1); (3, 0.5, 0.125, -1); (3, 0.25, 0.125, -1)]%float
  /\ hindex_0_coll out = [10; 11; 12]%Z.
Proof. vm_compute. repeat split. Qed.

(** The theorem at the three sample tracks, whose indices fit in an [int]
    and are distinct: three visits, of candidate 0 of the pairs at
    positions (0,1), (0,2) and (1,2). *)
Lemma secvtx_rows_from_ordered_pairs_witness :
  (forall t, In t sampleTracks -> inIntRange (index t))
  /\ (forall i j t0 t1,
         nth_error sampleTracks i = Some t0 ->
         nth_error sampleTracks j = Some t1 ->
         index t0 = index t1 -> i = j)
  /\ secvtx (@process _ sampleFitter sampleTracks emptyState)
     = map snd (@visits _ sampleFitter sampleTracks)
  /\ map fst (@visits _ sampleFitter sampleTracks)
     = [(0, 1, 0%Z); (0, 2, 0%Z); (1, 2, 0%Z)]%nat
  /\ Forall (fun f =>
               Forall (fun v =>
                         index0 (snd v) = index (pairTrack0 (fitPair f))
                         /\ index1 (snd v) = index (pairTrack1 (fitPair f))
                         /\ index0 (snd v) <> index1 (snd v))
                      (@visitsOfFit _ sampleFitter f))
            (@fitsOf _ sampleFitter sampleTracks).
Proof.
  assert (Hrange : forall t, In t sampleTracks -> inIntRange (index t)).
  { intros t [<-|[<-|[<-|[]]]]; unfold inIntRange; cbn; lia. }
  assert (Hinj : forall i j t0 t1,
             nth_error sampleTracks i = Some t0 ->
             nth_error sampleTracks j = Some t1 ->
             index t0 = index t1 -> i = j).
  { intros [|[|[|i]]] [|[|[|j]]] t0 t1 H0 H1 Heq; cbn in H0, H1;
      try (destruct i; discriminate); try (destruct j; discriminate);
      inversion H0; inversion H1; subst; cbn in Heq;
      try reflexivity; discriminate. }
  split; [exact Hrange|]. split; [exact Hinj|].
  destruct (@secvtx_rows_from_ordered_pairs _ sampleFitter sampleTracks
              emptyState)
    as (E & _ & _ & _ & _ & _ & Hd).
  split; [exact E|]. split; [reflexivity|].
  exact (Hd Hrange Hinj).
Defined.

(** C10, as stated, fails for row indices that do not fit in an [int].  Two
    tracks of one collision with the distinct indices 0 and 2^32 give one
    row, in which [index0] and [index1] are both 0: [index1] is not the
    index of the second track, and the two columns do not tell the tracks
    apart. *)
Lemma secvtx_index_narrowing_counterexample :
  map index [sampleTrack 0 1 0.5; sampleTrack 4294967296 2 0.25]
  = [0; 4294967296]%Z
  /\ map (fun r => (index0 r, index1 r))
         (secvtx (@process _ sampleFitter
                    [sampleTrack 0 1 0.5; sampleTrack 4294967296 2 0.25]
                    emptyState))
     = [(0, 0)]%Z.
Proof. split; vm_compute; reflexivity. Qed.

End Vertexer.

(** * Runs of the selector: what the histograms hold

    Properties of whole runs of [process] over a list of candidates: the
    tallies of the registry, the mass histogram, the detector masks, and
    the configurables that a run does not read. *)

Module SelectorRuns.
Import Selector.

Section Runs.
Context {TracksSel TracksSelLf : Type}.
Context {rowSel : TrackRow TracksSel} {rowSelLf : TrackRow TracksSelLf}.
Context {fw : Framework}.
Variable cfg : Config.
Variable tracks : Table TracksSel.
Variable lfTracks : Table TracksSelLf.

Lemma registry_afterCandidates cs st :
  registry (afterCandidates cfg tracks lfTracks cs st)
  = registry st ++ List.concat (map (candidateFills cfg tracks lfTracks) cs).
Proof.
  revert st. induction cs as [|c cs IH]; intros st; simpl.
  - now rewrite app_nil_r.
  - unfold afterCandidates in *. simpl. rewrite IH. simpl.
    now rewrite <- app_assoc.
Qed.


(** *** Which histograms each block of fills writes *)

(** A log writes into none but the listed histograms. *)
Definition writesOnly (l : Registry) (names : list string) : Prop :=
  Forall (fun e => In (fst e) names) l.

Lemma writesOnly_app l1 l2 names :
  writesOnly l1 names -> writesOnly l2 names -> writesOnly (l1 ++ l2) names.
Proof. intros H1 H2. apply Forall_app. now split. Qed.

Lemma writesOnly_fillIf b h v names :
  In h names -> writesOnly (fillIf b h v) names.
Proof.
  intros H. destruct b; [|constructor].
  constructor; [exact H|constructor].
Qed.

Lemma writesOnly_incl l names names' :
  incl names names' -> writesOnly l names -> writesOnly l names'.
Proof.
  intros Hi H. eapply Forall_impl; [|exact H]. intros e He. now apply Hi.
Qed.

Lemma tally_absent l names :
  writesOnly l names ->
  forall h v,
    forallb (fun n => negb (String.eqb n h)) names = true ->
    tally l h v = 0%nat.
Proof.
  intros Hw h v Hn. induction Hw as [|[h' v'] l Hin _ IH]; [reflexivity|].
  rewrite tally_cons_other; [exact IH|].
  rewrite forallb_forall in Hn. specialize (Hn _ Hin).
  now apply negb_true_iff in Hn.
Qed.

Definition signNames : list string := ["hSelSignDec"%string].
Definition kinematicNames : list string :=
  [ "hSelEtaPosV0Dau"; "hSelEtaNegV0Dau"; "hSelEtaPiFromCasc";
    "hSelEtaPiFromCharm"; "hSelRadCasc"; "hSelRadV0"; "hSelCosPACasc";
    "hSelCosPAV0"; "hSelDCACascDau"; "hSelDCAV0Dau"; "hSelDCACharmDau";
    "hSelDcaXYToPvV0Daughters"; "hSelDcaXYToPvPiFromCasc";
    "hSelDCAXYPrimPi"; "hSelDCAZPrimPi"; "hSelDCAXYCasc"; "hSelDCAZCasc";
    "hSelPtPiFromCasc"; "hSelPtPiFromCharm" ]%string.
Definition lfQualityNames : list string :=
  [ "hSelTPCQualityPiFromLam"; "hSelTPCQualityPrFromLam";
    "hSelTPCQualityPiFromCasc" ]%string.
Definition charmQualityNames : list string :=
  [ "hSelTPCQualityPiFromCharm"; "hSelITSQualityPiFromCharm" ]%string.
Definition massNames : list string :=
  [ "hSelMassLam"; "hSelMassCasc"; "hSelMassCharmBaryon" ]%string.

Ltac in_names := cbn; tauto.
Ltac writes_cuts :=
  repeat (apply Forall_cons; [in_names|]); apply Forall_nil.

Lemma writesOnly_signFills c : writesOnly (signFills c) signNames.
Proof.
  unfold signFills.
  destruct (signDecay c >? 0)%Z; [|destruct (signDecay c <? 0)%Z];
    writes_cuts.
Qed.

Lemma writesOnly_kinematicFills c :
  writesOnly (kinematicFills cfg c) kinematicNames.
Proof. unfold kinematicFills, cutFill. writes_cuts. Qed.

Lemma writesOnly_qualityFills c :
  writesOnly (qualityFills cfg tracks lfTracks c)
             (lfQualityNames ++ charmQualityNames).
Proof.
  unfold qualityFills, cutFill. apply writesOnly_app.
  - destruct (applyTrkSelLf cfg); writes_cuts.
  - writes_cuts.
Qed.

Lemma writesOnly_pidFlagFills c :
  writesOnly (pidFlagFills cfg tracks lfTracks c) ["hStatusCheck"%string].
Proof.
  unfold pidFlagFills.
  repeat apply writesOnly_app; apply writesOnly_fillIf; in_names.
Qed.

Lemma writesOnly_massFills c :
  writesOnly (massFills cfg tracks lfTracks c)
             ("hStatusCheck"%string :: massNames).
Proof.
  unfold massFills, cutFill.
  repeat apply writesOnly_app;
    first [ apply writesOnly_fillIf; in_names | writes_cuts ].
Qed.

Lemma writesOnly_selPidFills c :
  writesOnly (selPidFills cfg tracks lfTracks c) ["hSelPID"%string].
Proof.
  unfold selPidFills. destruct (topologicalFlag cfg tracks lfTracks c);
    [|constructor].
  repeat apply writesOnly_app; apply writesOnly_fillIf; in_names.
Qed.

(** The tally of a candidate's fills, block by block; the blocks that
    cannot write into [h] are dropped by [tally_absent]. *)
Lemma tally_candidateFills c h v :
  tally (candidateFills cfg tracks lfTracks c) h v
  = (tally (signFills c) h v
     + tally (kinematicFills cfg c) h v
     + tally (qualityFills cfg tracks lfTracks c) h v
     + tally (pidFlagFills cfg tracks lfTracks c) h v
     + tally (massFills cfg tracks lfTracks c) h v
     + tally (selPidFills cfg tracks lfTracks c) h v)%nat.
Proof.
  unfold candidateFills, topologicalFills. rewrite !tally_app. lia.
Qed.

Ltac drop_absent :=
  rewrite !tally_candidateFills;
  rewrite ?(tally_absent (writesOnly_signFills _)) by reflexivity;
  rewrite ?(tally_absent (writesOnly_kinematicFills _)) by reflexivity;
  rewrite ?(tally_absent (writesOnly_qualityFills _)) by reflexivity;
  rewrite ?(tally_absent (writesOnly_pidFlagFills _)) by reflexivity;
  rewrite ?(tally_absent (writesOnly_massFills _)) by reflexivity;
  rewrite ?(tally_absent (writesOnly_selPidFills _)) by reflexivity;
  rewrite ?Nat.add_0_l, ?Nat.add_0_r.

Lemma tally_if (b : bool) l1 l2 h v :
  tally (if b then l1 else l2) h v = if b then tally l1 h v else tally l2 h v.
Proof. now destruct b. Qed.

Lemma tally_fillIf b h' v' h v :
  tally (fillIf b h' v') h v
  = if b && (String.eqb h' h && PrimFloat.eqb v' v) then 1%nat else 0%nat.
Proof.
  destruct b; [|reflexivity]. unfold fillIf. rewrite tally_cons. cbn.
  destruct (String.eqb h' h && PrimFloat.eqb v' v); reflexivity.
Qed.


(** *** The fills of one candidate, histogram by histogram *)

Ltac names_compute := cbn [String.eqb Ascii.eqb Bool.eqb andb].

Lemma tally_hSelSignDec_pos c :
  tally (candidateFills cfg tracks lfTracks c) "hSelSignDec" 1
  = if (signDecay c >? 0)%Z then 1%nat else 0%nat.
Proof.
  drop_absent. unfold signFills.
  destruct (signDecay c >? 0)%Z; [reflexivity|].
  destruct (signDecay c <? 0)%Z; reflexivity.
Qed.

Lemma tally_hSelSignDec_neg c :
  tally (candidateFills cfg tracks lfTracks c) "hSelSignDec" 0
  = if (signDecay c <? 0)%Z then 1%nat else 0%nat.
Proof.
  drop_absent. unfold signFills.
  destruct (signDecay c >? 0)%Z eqn:Hp, (signDecay c <? 0)%Z eqn:Hn;
    try reflexivity.
  apply Z.gtb_gt in Hp. apply Z.ltb_lt in Hn. lia.
Qed.

(** A list of cut entries with pairwise distinct histograms holds one
    entry for each of its histograms, in bin 0 or in bin 1. *)
Definition cutFills (l : list (string * bool)) : Registry :=
  map (fun e => cutFill (fst e) (snd e)) l.

Lemma tally_cutFill_absent l h v :
  ~ In h (map fst l) -> tally (cutFills l) h v = 0%nat.
Proof.
  induction l as [|[h' b] l IH]; intros Hn; [reflexivity|].
  cbn [cutFills map fst snd]. unfold cutFill at 1.
  rewrite tally_cons_other.
  - apply IH. intros H. apply Hn. now right.
  - apply String.eqb_neq. intros <-. apply Hn. now left.
Qed.

Lemma tally_cutFills_once l h :
  NoDup (map fst l) ->
  In h (map fst l) ->
  (tally (cutFills l) h 0 + tally (cutFills l) h 1 = 1)%nat.
Proof.
  induction l as [|[h' b] l IH]; intros Hnd Hin; [destruct Hin|].
  cbn [map fst] in Hnd, Hin. inversion Hnd as [|? ? Hnotin Hnd']; subst.
  cbn [cutFills map fst snd]. unfold cutFill at 1 3.
  destruct Hin as [<-|Hin].
  - rewrite !tally_cons_same by apply String.eqb_refl.
    fold (cutFills l). rewrite !tally_cutFill_absent by assumption.
    destruct b; reflexivity.
  - assert (String.eqb h' h = false)
      by (apply String.eqb_neq; intros <-; contradiction).
    rewrite !tally_cons_other by assumption. now apply IH.
Qed.

Ltac nodup_names :=
  repeat (constructor; [cbn; intuition discriminate|]); constructor.

Lemma tally_kinematic_once c h :
  In h kinematicNames ->
  (tally (candidateFills cfg tracks lfTracks c) h 0
   + tally (candidateFills cfg tracks lfTracks c) h 1 = 1)%nat.
Proof.
  intros Hin.
  assert (Hno : forallb (fun n => negb (String.eqb n h))
                  (signNames ++ lfQualityNames ++ charmQualityNames
                   ++ "hStatusCheck"%string :: "hSelPID"%string :: massNames)
                = true).
  { unfold kinematicNames in Hin.
    repeat (destruct Hin as [<-|Hin]; [reflexivity|]). destruct Hin. }
  rewrite !forallb_app in Hno. cbn [forallb] in Hno.
  rewrite !andb_true_iff in Hno.
  destruct Hno as (Hs & Hlf & Hch & Hsc & Hpid & Hm).
  rewrite !tally_candidateFills.
  rewrite !(tally_absent (writesOnly_signFills c)) by exact Hs.
  rewrite !(tally_absent (writesOnly_qualityFills c))
    by (rewrite forallb_app, Hlf, Hch; reflexivity).
  rewrite !(tally_absent (writesOnly_pidFlagFills c))
    by (cbn [forallb]; rewrite Hsc; reflexivity).
  rewrite !(tally_absent (writesOnly_massFills c))
    by (cbn [forallb]; rewrite Hsc; exact Hm).
  rewrite !(tally_absent (writesOnly_selPidFills c))
    by (cbn [forallb]; rewrite Hpid; reflexivity).
  rewrite !Nat.add_0_r, !Nat.add_0_l.
  apply (tally_cutFills_once
           [ ("hSelEtaPosV0Dau", passEtaV0PosDau cfg c);
             ("hSelEtaNegV0Dau", passEtaV0NegDau cfg c);
             ("hSelEtaPiFromCasc", passEtaPiFromCasc cfg c);
             ("hSelEtaPiFromCharm", passEtaPiFromCharm cfg c);
             ("hSelRadCasc", passRadiusCasc cfg c);
             ("hSelRadV0", passRadiusV0 cfg c);
             ("hSelCosPACasc", passCosPACasc cfg c);
             ("hSelCosPAV0", passCosPAV0 cfg c);
             ("hSelDCACascDau", passDcaCascDau cfg c);
             ("hSelDCAV0Dau", passDcaV0Dau cfg c);
             ("hSelDCACharmDau", passDcaCharmBaryonDau cfg c);
             ("hSelDcaXYToPvV0Daughters", passDcaXYToPvV0Daughters cfg c);
             ("hSelDcaXYToPvPiFromCasc", passDcaBachToPv cfg c);
             ("hSelDCAXYPrimPi", passImpParXYPiFromCharm cfg c);
             ("hSelDCAZPrimPi", passImpParZPiFromCharm cfg c);
             ("hSelDCAXYCasc", passImpParXYCasc cfg c);
             ("hSelDCAZCasc", passImpParZCasc cfg c);
             ("hSelPtPiFromCasc", passPtPiFromCasc cfg c);
             ("hSelPtPiFromCharm", passPtPiFromCharm cfg c) ]%string).
  - nodup_names.
  - exact Hin.
Qed.

(** A literal list of cut entries, for a histogram given by name. *)
Ltac one_cut_entry :=
  unfold cutFill; rewrite !tally_cons, !tally_nil; names_compute;
  match goal with
  | |- context [PrimFloat.eqb (if ?b then _ else _) _] => destruct b
  end; reflexivity.

Lemma tally_charmQuality_once c h :
  In h charmQualityNames ->
  (tally (candidateFills cfg tracks lfTracks c) h 0
   + tally (candidateFills cfg tracks lfTracks c) h 1 = 1)%nat.
Proof.
  intros Hin. unfold charmQualityNames in Hin.
  repeat (destruct Hin as [<-|Hin];
          [drop_absent; unfold qualityFills; rewrite !tally_app, !tally_if;
           destruct (applyTrkSelLf cfg); one_cut_entry|]).
  destruct Hin.
Qed.

Lemma tally_lfQuality_once c h :
  In h lfQualityNames ->
  (tally (candidateFills cfg tracks lfTracks c) h 0
   + tally (candidateFills cfg tracks lfTracks c) h 1
   = if applyTrkSelLf cfg then 1 else 0)%nat.
Proof.
  intros Hin. unfold lfQualityNames in Hin.
  repeat (destruct Hin as [<-|Hin];
          [drop_absent; unfold qualityFills; rewrite !tally_app, !tally_if;
           destruct (applyTrkSelLf cfg);
           [one_cut_entry | reflexivity]|]).
  destruct Hin.
Qed.

Lemma tally_mass_once c h :
  In h massNames ->
  (tally (candidateFills cfg tracks lfTracks c) h 0
   + tally (candidateFills cfg tracks lfTracks c) h 1 = 1)%nat.
Proof.
  intros Hin. unfold massNames in Hin.
  repeat (destruct Hin as [<-|Hin];
          [drop_absent; rewrite !tally_massFills by reflexivity;
           one_cut_entry|]).
  destruct Hin.
Qed.

Definition b2n (b : bool) : nat := if b then 1 else 0.

Ltac float_tests :=
  repeat match goal with
  | |- context [PrimFloat.eqb ?a ?b] =>
      let r := eval vm_compute in (PrimFloat.eqb a b) in
      change (PrimFloat.eqb a b) with r
  end.

Ltac tally_eval :=
  rewrite ?tally_if, ?tally_app, ?tally_fillIf, ?tally_cons, ?tally_nil;
  names_compute; float_tests;
  rewrite ?andb_false_r, ?andb_true_r; cbv iota;
  rewrite ?Nat.add_0_r, ?Nat.add_0_l.

(** [hStatusCheck]: bin by bin, the condition under which a candidate adds
    its entry. *)
Lemma tally_hStatusCheck c :
  let L := statusPidLambda cfg lfTracks c in
  let C := statusPidCascade cfg lfTracks c in
  let B := statusPidCharmBaryon cfg tracks lfTracks c in
  let mL := inMassWindowLambda cfg c in
  let mC := inMassWindowCascade cfg c in
  let mB := inMassRangeCharmBaryon cfg c in
  let topo := topologicalFlag cfg tracks lfTracks c in
  let fills := candidateFills cfg tracks lfTracks c in
  tally fills "hStatusCheck" 0.5 = b2n (L && topo)
  /\ tally fills "hStatusCheck" 1.5 = b2n (C && topo)
  /\ tally fills "hStatusCheck" 2.5 = b2n (B && topo)
  /\ tally fills "hStatusCheck" 3.5 = b2n (mL && (L && C && B && topo))
  /\ tally fills "hStatusCheck" 4.5 = b2n (mC && (L && C && B && mL && topo))
  /\ tally fills "hStatusCheck" 5.5
     = b2n (mB && (L && C && B && mL && mC && topo)).
Proof.
  cbv zeta. unfold b2n.
  repeat split; drop_absent; unfold pidFlagFills, massFills, cutFill, allPid;
    tally_eval; reflexivity.
Qed.

(** [hSelPID]: the two bins of each of the six flags. *)
Lemma tally_hSelPID c (flag : bool) lo hi :
  In (flag, lo, hi)
     [ (statusPidLambda cfg lfTracks c, 0.5, 1.5);
       (statusPidCascade cfg lfTracks c, 2.5, 3.5);
       (statusPidCharmBaryon cfg tracks lfTracks c, 4.5, 5.5);
       (inMassWindowLambda cfg c, 6.5, 7.5);
       (inMassWindowCascade cfg c, 8.5, 9.5);
       (inMassRangeCharmBaryon cfg c, 10.5, 11.5) ]%float ->
  tally (candidateFills cfg tracks lfTracks c) "hSelPID" lo
  = b2n (topologicalFlag cfg tracks lfTracks c && negb flag)
  /\ tally (candidateFills cfg tracks lfTracks c) "hSelPID" hi
     = b2n (topologicalFlag cfg tracks lfTracks c && flag).
Proof.
  intros Hin. unfold b2n.
  repeat (destruct Hin as [Hin|Hin];
          [inversion Hin; subst; clear Hin;
           split; drop_absent; unfold selPidFills;
           destruct (topologicalFlag cfg tracks lfTracks c);
           tally_eval; reflexivity|]).
  destruct Hin.
Qed.

(** *** Whole runs under a valid PID configuration *)

Lemma hInvMassCharmBaryon_afterCandidates cs st :
  hInvMassCharmBaryon (afterCandidates cfg tracks lfTracks cs st)
  = hInvMassCharmBaryon st
    ++ List.concat
         (map (fun c => if fullySelected cfg tracks lfTracks c
                        then [invMassCharmBaryon c] else []) cs).
Proof.
  revert st. induction cs as [|c cs IH]; intros st; simpl.
  - now rewrite app_nil_r.
  - unfold afterCandidates in *. simpl. rewrite IH. simpl.
    now rewrite <- app_assoc.
Qed.

Lemma tally_concat (f : Candidate -> Registry) cs h v :
  tally (List.concat (map f cs)) h v
  = list_sum (map (fun c => tally (f c) h v) cs).
Proof.
  induction cs as [|c cs IH]; [reflexivity|].
  cbn [map List.concat list_sum fold_right]. rewrite tally_app.
  now rewrite IH.
Qed.

Lemma list_sum_b2n (p : Candidate -> bool) cs :
  list_sum (map (fun c => b2n (p c)) cs) = List.length (filter p cs).
Proof.
  induction cs as [|c cs IH]; [reflexivity|].
  cbn [map list_sum fold_right filter]. fold (list_sum (map (fun c => b2n (p c)) cs)).
  rewrite IH. destruct (p c); reflexivity.
Qed.

Lemma list_sum_map_ext (f g : Candidate -> nat) cs :
  (forall c, f c = g c) -> list_sum (map f cs) = list_sum (map g cs).
Proof. intros H. f_equal. apply map_ext. exact H. Qed.

Lemma list_sum_map_add (f g : Candidate -> nat) cs :
  (list_sum (map f cs) + list_sum (map g cs)
   = list_sum (map (fun c => f c + g c) cs))%nat.
Proof.
  induction cs as [|c cs IH]; [reflexivity|].
  cbn [map list_sum fold_right].
  fold (list_sum (map f cs)). fold (list_sum (map g cs)).
  fold (list_sum (map (fun c => f c + g c)%nat cs)). lia.
Qed.

Lemma list_sum_map_const (n : nat) (cs : list Candidate) :
  list_sum (map (fun _ => n) cs) = (n * List.length cs)%nat.
Proof.
  induction cs as [|c cs IH]; [cbn; lia|].
  cbn [map list_sum fold_right List.length].
  fold (list_sum (map (fun _ : Candidate => n) cs)). lia.
Qed.

Lemma list_sum_map_le (f g : Candidate -> nat) cs :
  (forall c, f c <= g c)%nat ->
  (list_sum (map f cs) <= list_sum (map g cs))%nat.
Proof.
  intros H. induction cs as [|c cs IH]; [reflexivity|].
  cbn [map list_sum fold_right].
  fold (list_sum (map f cs)). fold (list_sum (map g cs)).
  specialize (H c). lia.
Qed.

(** The tally of a histogram bin after a run: what was there, plus the sum
    over the candidates of what each adds. *)
Lemma tally_after_run cs st h v :
  tally (registry (afterCandidates cfg tracks lfTracks cs st)) h v
  = (tally (registry st) h v
     + list_sum (map (fun c => tally (candidateFills cfg tracks lfTracks c) h v)
                     cs))%nat.
Proof. now rewrite registry_afterCandidates, tally_app, tally_concat. Qed.

Lemma filter_map_length {A B : Type} (g : A -> B) (q : B -> bool) l :
  List.length (filter q (map g l)) = List.length (filter (fun a => q (g a)) l).
Proof.
  induction l as [|a l IH]; [reflexivity|]. cbn [map filter].
  destruct (q (g a)); cbn [List.length]; now rewrite IH.
Qed.

(** X1.  Every cut is tallied once for every candidate, whatever the other cuts
    decide: after a run over [cs], the two bins of each cut histogram
    (and of each mass-window histogram) together hold [length cs] more
    entries than before. *)
Theorem every_cut_is_tallied_once_per_candidate cs st h :
  validPid cfg = true ->
  In h (kinematicNames ++ charmQualityNames ++ massNames) ->
  exists st',
    process cfg tracks lfTracks cs st = Done tt st'
    /\ (tally (registry st') h 0 + tally (registry st') h 1
        = tally (registry st) h 0 + tally (registry st) h 1
          + List.length cs)%nat.
Proof.
  intros Hv Hin. exists (afterCandidates cfg tracks lfTracks cs st).
  split; [now apply forCandidates_valid|].
  rewrite !tally_after_run.
  assert (H1 : forall c,
             (tally (candidateFills cfg tracks lfTracks c) h 0
              + tally (candidateFills cfg tracks lfTracks c) h 1 = 1)%nat).
  { intros c. apply in_app_or in Hin. destruct Hin as [Hin|Hin];
      [now apply tally_kinematic_once|].
    apply in_app_or in Hin. destruct Hin as [Hin|Hin];
      [now apply tally_charmQuality_once|now apply tally_mass_once]. }
  pose proof (list_sum_map_add
                (fun c => tally (candidateFills cfg tracks lfTracks c) h 0)
                (fun c => tally (candidateFills cfg tracks lfTracks c) h 1)
                cs) as Hs.
  cbv beta in Hs.
  rewrite (list_sum_map_ext _ (fun _ => 1%nat) cs H1) in Hs.
  rewrite list_sum_map_const in Hs. lia.
Qed.

(** X2.  In a run under a valid PID configuration, the three
    light-flavour quality histograms are filled once per candidate when
    [applyTrkSelLf] is on, and never when it is off. *)
Theorem lf_quality_histograms_follow_applyTrkSelLf cs st h :
  validPid cfg = true ->
  In h lfQualityNames ->
  exists st',
    process cfg tracks lfTracks cs st = Done tt st'
    /\ (tally (registry st') h 0 + tally (registry st') h 1
        = tally (registry st) h 0 + tally (registry st) h 1
          + (if applyTrkSelLf cfg then List.length cs else 0))%nat.
Proof.
  intros Hv Hin. exists (afterCandidates cfg tracks lfTracks cs st).
  split; [now apply forCandidates_valid|].
  rewrite !tally_after_run.
  pose proof (list_sum_map_add
                (fun c => tally (candidateFills cfg tracks lfTracks c) h 0)
                (fun c => tally (candidateFills cfg tracks lfTracks c) h 1)
                cs) as Hs.
  cbv beta in Hs.
  rewrite (list_sum_map_ext _ (fun _ => if applyTrkSelLf cfg then 1 else 0)%nat
             cs (fun c => tally_lfQuality_once c Hin)) in Hs.
  rewrite list_sum_map_const in Hs. destruct (applyTrkSelLf cfg); lia.
Qed.

(** X3.  In a run under a valid PID configuration, [hSelSignDec] sorts the
    candidates by decay sign: bin 1 counts those with a positive sign, bin 0
    those with a negative sign, and a candidate with sign zero is counted in
    neither. *)
Theorem hSelSignDec_counts_decay_signs cs st :
  validPid cfg = true ->
  exists st',
    process cfg tracks lfTracks cs st = Done tt st'
    /\ tally (registry st') "hSelSignDec" 1
       = (tally (registry st) "hSelSignDec" 1
          + List.length (filter (fun c => signDecay c >? 0)%Z cs))%nat
    /\ tally (registry st') "hSelSignDec" 0
       = (tally (registry st) "hSelSignDec" 0
          + List.length (filter (fun c => signDecay c <? 0)%Z cs))%nat.
Proof.
  intros Hv. exists (afterCandidates cfg tracks lfTracks cs st).
  split; [now apply forCandidates_valid|].
  rewrite !tally_after_run.
  rewrite (list_sum_map_ext _ _ cs tally_hSelSignDec_pos).
  rewrite (list_sum_map_ext _ _ cs tally_hSelSignDec_neg).
  split; f_equal; apply (list_sum_b2n _ cs).
Qed.

(** X4.  [hStatusCheck] is a cut flow: over any run, the number of candidates
    added to a bin never exceeds the number added to the bin before it, from
    bin 0.5 (Lambda PID) up to bin 5.5 (charm-baryon mass), and no bin
    receives more than one entry per candidate. *)
Theorem hStatusCheck_is_a_cut_flow cs st :
  validPid cfg = true ->
  exists st' d0 d1 d2 d3 d4 d5,
    process cfg tracks lfTracks cs st = Done tt st'
    /\ tally (registry st') "hStatusCheck" 0.5
       = (tally (registry st) "hStatusCheck" 0.5 + d0)%nat
    /\ tally (registry st') "hStatusCheck" 1.5
       = (tally (registry st) "hStatusCheck" 1.5 + d1)%nat
    /\ tally (registry st') "hStatusCheck" 2.5
       = (tally (registry st) "hStatusCheck" 2.5 + d2)%nat
    /\ tally (registry st') "hStatusCheck" 3.5
       = (tally (registry st) "hStatusCheck" 3.5 + d3)%nat
    /\ tally (registry st') "hStatusCheck" 4.5
       = (tally (registry st) "hStatusCheck" 4.5 + d4)%nat
    /\ tally (registry st') "hStatusCheck" 5.5
       = (tally (registry st) "hStatusCheck" 5.5 + d5)%nat
    /\ (d5 <= d4 /\ d4 <= d3 /\ d3 <= d2 /\ d2 <= d1 /\ d1 <= d0
        /\ d0 <= List.length cs)%nat.
Proof.
  intros Hv. exists (afterCandidates cfg tracks lfTracks cs st).
  do 6 eexists. split; [now apply forCandidates_valid|].
  rewrite !tally_after_run.
  do 6 (split; [reflexivity|]).
  assert (Hc : forall c,
             let t v := tally (candidateFills cfg tracks lfTracks c)
                              "hStatusCheck" v in
             (t 5.5%float <= t 4.5%float /\ t 4.5%float <= t 3.5%float
              /\ t 3.5%float <= t 2.5%float /\ t 2.5%float <= t 1.5%float
              /\ t 1.5%float <= t 0.5%float /\ t 0.5%float <= 1)%nat).
  { intros c. cbv zeta.
    destruct (tally_hStatusCheck c) as (E0 & E1 & E2 & E3 & E4 & E5).
    rewrite E0, E1, E2, E3, E4, E5.
    unfold statusPidLambda, statusPidCascade, statusPidCharmBaryon, b2n.
    destruct (acceptedPrFromLam cfg lfTracks c),
      (acceptedPiFromLam cfg lfTracks c),
      (acceptedPiFromCasc cfg lfTracks c),
      (acceptedPiFromCharm cfg tracks c),
      (inMassWindowLambda cfg c), (inMassWindowCascade cfg c),
      (inMassRangeCharmBaryon cfg c),
      (topologicalFlag cfg tracks lfTracks c); cbn; lia. }
  repeat split;
    try (apply list_sum_map_le; intros c; apply (Hc c)).
  rewrite <- (Nat.mul_1_l (List.length cs)), <- list_sum_map_const.
  apply list_sum_map_le. intros c. apply (Hc c).
Qed.

(** All the seven flags of a row. *)
Definition allFlags (r : HfSelToXiPiRow) : bool :=
  row_statusPidLambda r && row_statusPidCascade r
  && row_statusPidCharmBaryon r && row_statusInvMassLambda r
  && row_statusInvMassCascade r && row_statusInvMassCharmBaryon r
  && row_resultSelections r.

Lemma concat_map_if {A B : Type} (p : A -> bool) (g : A -> B) l :
  List.concat (map (fun a => if p a then [g a] else []) l)
  = map g (filter p l).
Proof.
  induction l as [|a l IH]; [reflexivity|]. cbn [map List.concat filter].
  rewrite IH. now destruct (p a).
Qed.

Lemma filter_combine_map {A B : Type} (g : A -> B) (q : B -> bool) l :
  filter (fun p => q (snd p)) (combine l (map g l))
  = map (fun a => (a, g a)) (filter (fun a => q (g a)) l).
Proof.
  induction l as [|a l IH]; [reflexivity|]. cbn [map combine filter snd].
  rewrite IH. now destruct (q (g a)).
Qed.

(** X5.  [hInvMassCharmBaryon] holds the charm-baryon masses of exactly the
    candidates whose emitted row has all seven flags set, in input order;
    there are as many of them as entries added to bin 5.5 of
    [hStatusCheck]. *)
Theorem hInvMassCharmBaryon_holds_the_fully_selected cs st :
  validPid cfg = true ->
  exists st' rows,
    process cfg tracks lfTracks cs st = Done tt st'
    /\ hfSelToXiPi st' = hfSelToXiPi st ++ rows
    /\ List.length rows = List.length cs
    /\ hInvMassCharmBaryon st'
       = hInvMassCharmBaryon st
         ++ map (fun p => invMassCharmBaryon (fst p))
                (filter (fun p => allFlags (snd p)) (combine cs rows))
    /\ tally (registry st') "hStatusCheck" 5.5
       = (tally (registry st) "hStatusCheck" 5.5
          + List.length (filter allFlags rows))%nat.
Proof.
  intros Hv. exists (afterCandidates cfg tracks lfTracks cs st),
    (map (selectionRow cfg tracks lfTracks) cs).
  split; [now apply forCandidates_valid|].
  split; [apply hfSelToXiPi_afterCandidates|].
  split; [apply length_map|]. split.
  - rewrite hInvMassCharmBaryon_afterCandidates. f_equal.
    rewrite concat_map_if, filter_combine_map, map_map. reflexivity.
  - rewrite tally_after_run. f_equal.
    rewrite filter_map_length.
    rewrite <- (list_sum_b2n
                  (fun c => allFlags (selectionRow cfg tracks lfTracks c)) cs).
    apply list_sum_map_ext. intros c.
    destruct (tally_hStatusCheck c) as (_ & _ & _ & _ & _ & E5).
    rewrite E5. f_equal.
    unfold allFlags, selectionRow.
    cbn [row_statusPidLambda row_statusPidCascade row_statusPidCharmBaryon
         row_statusInvMassLambda row_statusInvMassCascade
         row_statusInvMassCharmBaryon row_resultSelections].
    destruct (statusPidLambda cfg lfTracks c),
      (statusPidCascade cfg lfTracks c),
      (statusPidCharmBaryon cfg tracks lfTracks c),
      (inMassWindowLambda cfg c), (inMassWindowCascade cfg c),
      (inMassRangeCharmBaryon cfg c),
      (topologicalFlag cfg tracks lfTracks c); reflexivity.
Qed.

(** X6.  Every mass that a run adds to [hInvMassCharmBaryon] lies in the
    configured range [[invMassCharmBaryonMin, invMassCharmBaryonMax]]. *)
Theorem hInvMassCharmBaryon_entries_in_range cs st :
  validPid cfg = true ->
  exists st' added,
    process cfg tracks lfTracks cs st = Done tt st'
    /\ hInvMassCharmBaryon st' = hInvMassCharmBaryon st ++ added
    /\ Forall (fun v => (v >= invMassCharmBaryonMin cfg)%D = true
                        /\ (v <= invMassCharmBaryonMax cfg)%D = true) added.
Proof.
  intros Hv. exists (afterCandidates cfg tracks lfTracks cs st). eexists.
  split; [now apply forCandidates_valid|].
  split; [apply hInvMassCharmBaryon_afterCandidates|].
  rewrite concat_map_if. apply Forall_map. apply Forall_forall.
  intros c Hc. apply filter_In in Hc. destruct Hc as (_ & Hc).
  unfold fullySelected in Hc. rewrite !andb_true_iff in Hc.
  destruct Hc as ((_ & Hm) & _). unfold inMassRangeCharmBaryon in Hm.
  now apply andb_true_iff in Hm.
Qed.

(** The six flags and their two bins of [hSelPID]. *)
Definition selPidBins : list ((HfSelToXiPiRow -> bool) * double * double) :=
  [ (row_statusPidLambda, 0.5, 1.5);
    (row_statusPidCascade, 2.5, 3.5);
    (row_statusPidCharmBaryon, 4.5, 5.5);
    (row_statusInvMassLambda, 6.5, 7.5);
    (row_statusInvMassCascade, 8.5, 9.5);
    (row_statusInvMassCharmBaryon, 10.5, 11.5) ]%float.

(** X7.  [hSelPID] looks only at the candidates that pass the topological
    selection: for each of the six PID and mass flags, the lower bin of its
    pair counts the emitted rows with [resultSelections] set and the flag
    clear, the upper bin those with [resultSelections] and the flag set. *)
Theorem hSelPID_counts_flags_of_selected cs st flag lo hi :
  validPid cfg = true ->
  In (flag, lo, hi) selPidBins ->
  exists st' rows,
    process cfg tracks lfTracks cs st = Done tt st'
    /\ hfSelToXiPi st' = hfSelToXiPi st ++ rows
    /\ tally (registry st') "hSelPID" lo
       = (tally (registry st) "hSelPID" lo
          + List.length
              (filter (fun r => row_resultSelections r && negb (flag r)) rows))%nat
    /\ tally (registry st') "hSelPID" hi
       = (tally (registry st) "hSelPID" hi
          + List.length
              (filter (fun r => row_resultSelections r && flag r) rows))%nat.
Proof.
  intros Hv Hin. exists (afterCandidates cfg tracks lfTracks cs st),
    (map (selectionRow cfg tracks lfTracks) cs).
  split; [now apply forCandidates_valid|].
  split; [apply hfSelToXiPi_afterCandidates|].
  rewrite !tally_after_run, !filter_map_length.
  assert (Hc : forall c,
             tally (candidateFills cfg tracks lfTracks c) "hSelPID" lo
             = b2n (row_resultSelections (selectionRow cfg tracks lfTracks c)
                    && negb (flag (selectionRow cfg tracks lfTracks c)))
             /\ tally (candidateFills cfg tracks lfTracks c) "hSelPID" hi
                = b2n (row_resultSelections (selectionRow cfg tracks lfTracks c)
                       && flag (selectionRow cfg tracks lfTracks c))).
  { intros c. apply tally_hSelPID. unfold selPidBins in Hin.
    repeat (destruct Hin as [Hin|Hin];
            [inversion Hin; subst; cbn; tauto|]).
    destruct Hin. }
  split; f_equal.
  - rewrite <- list_sum_b2n. apply list_sum_map_ext. intros c. apply Hc.
  - rewrite <- list_sum_b2n. apply list_sum_map_ext. intros c. apply Hc.
Qed.

(** X8.  The detector-presence masks decode: bit 0 to 3 of [infoTpcStored]
    (of [infoTofStored]) tell whether the pion from the Lambda, the proton,
    the pion from the cascade and the pion from the charm baryon have TPC
    (TOF) information, and no other bit is set. *)
Theorem detector_masks_decode c st :
  validPid cfg = true ->
  exists row,
    emits cfg tracks lfTracks c st row
    /\ Z.testbit (row_infoTpcStored row) PiFromLam
       = hasTPC (trackPiFromLam lfTracks c)
    /\ Z.testbit (row_infoTpcStored row) PrFromLam
       = hasTPC (trackPrFromLam lfTracks c)
    /\ Z.testbit (row_infoTpcStored row) PiFromCasc
       = hasTPC (trackPiFromCasc lfTracks c)
    /\ Z.testbit (row_infoTpcStored row) PiFromCharm
       = hasTPC (trackPiFromCharm tracks c)
    /\ Z.testbit (row_infoTofStored row) PiFromLam
       = hasTOF (trackPiFromLam lfTracks c)
    /\ Z.testbit (row_infoTofStored row) PrFromLam
       = hasTOF (trackPrFromLam lfTracks c)
    /\ Z.testbit (row_infoTofStored row) PiFromCasc
       = hasTOF (trackPiFromCasc lfTracks c)
    /\ Z.testbit (row_infoTofStored row) PiFromCharm
       = hasTOF (trackPiFromCharm tracks c)
    /\ (0 <= row_infoTpcStored row < 16)%Z
    /\ (0 <= row_infoTofStored row < 16)%Z.
Proof.
  intros Hv. exists (selectionRow cfg tracks lfTracks c).
  split; [now apply emits_valid|].
  cbn [selectionRow row_infoTpcStored row_infoTofStored].
  repeat split;
    destruct (hasTPC (trackPiFromLam lfTracks c)),
      (hasTPC (trackPrFromLam lfTracks c)),
      (hasTPC (trackPiFromCasc lfTracks c)),
      (hasTPC (trackPiFromCharm tracks c)),
      (hasTOF (trackPiFromLam lfTracks c)),
      (hasTOF (trackPrFromLam lfTracks c)),
      (hasTOF (trackPiFromCasc lfTracks c)),
      (hasTOF (trackPiFromCharm tracks c)); vm_compute; congruence.
Qed.

(** *** Order and batching *)

Lemma list_sum_Permutation l l' :
  Permutation l l' -> list_sum l = list_sum l'.
Proof.
  unfold list_sum. induction 1; cbn [fold_right]; lia.
Qed.

Lemma Permutation_concat_map {A B : Type} (f : A -> list B) l l' :
  Permutation l l' ->
  Permutation (List.concat (map f l)) (List.concat (map f l')).
Proof.
  induction 1; cbn [map List.concat].
  - constructor.
  - now apply Permutation_app_head.
  - rewrite !app_assoc. apply Permutation_app_tail, Permutation_app_comm.
  - etransitivity; eassumption.
Qed.

(** X9.  Under a valid PID configuration, the order of the candidates does
    not matter to the histograms: two runs over the same candidates in
    different orders leave the same tally in every bin of every histogram,
    and emit the same rows and the same masses up to order. *)
Theorem candidate_order_is_irrelevant_to_tallies cs cs' st :
  validPid cfg = true ->
  Permutation cs cs' ->
  exists st1 st2 rows1 rows2 m1 m2,
    process cfg tracks lfTracks cs st = Done tt st1
    /\ process cfg tracks lfTracks cs' st = Done tt st2
    /\ (forall h v, tally (registry st1) h v = tally (registry st2) h v)
    /\ hfSelToXiPi st1 = hfSelToXiPi st ++ rows1
    /\ hfSelToXiPi st2 = hfSelToXiPi st ++ rows2
    /\ Permutation rows1 rows2
    /\ hInvMassCharmBaryon st1 = hInvMassCharmBaryon st ++ m1
    /\ hInvMassCharmBaryon st2 = hInvMassCharmBaryon st ++ m2
    /\ Permutation m1 m2.
Proof.
  intros Hv Hp.
  exists (afterCandidates cfg tracks lfTracks cs st),
    (afterCandidates cfg tracks lfTracks cs' st).
  do 4 eexists.
  split; [now apply forCandidates_valid|].
  split; [now apply forCandidates_valid|].
  split.
  { intros h v. rewrite !tally_after_run. f_equal.
    apply list_sum_Permutation. now apply Permutation_map. }
  split; [apply hfSelToXiPi_afterCandidates|].
  split; [apply hfSelToXiPi_afterCandidates|].
  split; [now apply Permutation_map|].
  split; [apply hInvMassCharmBaryon_afterCandidates|].
  split; [apply hInvMassCharmBaryon_afterCandidates|].
  now apply Permutation_concat_map.
Qed.

Lemma bind_ext {A B : Type} (m : Task A) (k1 k2 : A -> Task B) st :
  (forall a s, k1 a s = k2 a s) -> bind m k1 st = bind m k2 st.
Proof. intros H. unfold bind. destruct (m st); [apply H|reflexivity]. Qed.

(** X10.  Processing a list of candidates in two batches is processing it at
    once, for every configuration: if the first batch aborts, so does the
    whole, in the same state. *)
Theorem process_in_batches cs1 cs2 st :
  process cfg tracks lfTracks (cs1 ++ cs2) st
  = (process cfg tracks lfTracks cs1 ;; process cfg tracks lfTracks cs2) st.
Proof.
  unfold process. revert st.
  induction cs1 as [|c cs1 IH]; intros st; [reflexivity|].
  cbn [app forCandidates]. rewrite bind_bind.
  apply bind_ext. intros _ s. apply IH.
Qed.

(** *** Booking

    [init] books the histograms of the registry: 28 with the two-bin
    axis [axisSel = {2, -0.5, 1.5}], and [hSelPID] and [hStatusCheck] with
    twelve bins from 0 to 12.  An entry is (name, number of bins, lower
    edge, upper edge), in the order of the calls to [registry.add]. *)
Definition bookedHistograms : list (string * (Z * double * double)) :=
  let axisSel := (2%Z, (-0.5)%float, 1.5%float) in
  [ ("hSelPID", (12%Z, 0%float, 12%float));
    ("hStatusCheck", (12%Z, 0%float, 12%float));
    ("hSelSignDec", axisSel);
    ("hSelEtaPosV0Dau", axisSel);
    ("hSelEtaNegV0Dau", axisSel);
    ("hSelEtaPiFromCasc", axisSel);
    ("hSelEtaPiFromCharm", axisSel);
    ("hSelRadCasc", axisSel);
    ("hSelRadV0", axisSel);
    ("hSelCosPACasc", axisSel);
    ("hSelCosPAV0", axisSel);
    ("hSelDCACascDau", axisSel);
    ("hSelDCAV0Dau", axisSel);
    ("hSelDCACharmDau", axisSel);
    ("hSelDCAXYPrimPi", axisSel);
    ("hSelDCAZPrimPi", axisSel);
    ("hSelDCAXYCasc", axisSel);
    ("hSelDCAZCasc", axisSel);
    ("hSelPtPiFromCasc", axisSel);
    ("hSelPtPiFromCharm", axisSel);
    ("hSelTPCQualityPiFromCharm", axisSel);
    ("hSelTPCQualityPiFromLam", axisSel);
    ("hSelTPCQualityPrFromLam", axisSel);
    ("hSelTPCQualityPiFromCasc", axisSel);
    ("hSelITSQualityPiFromCharm", axisSel);
    ("hSelMassLam", axisSel);
    ("hSelMassCasc", axisSel);
    ("hSelMassCharmBaryon", axisSel);
    ("hSelDcaXYToPvV0Daughters", axisSel);
    ("hSelDcaXYToPvPiFromCasc", axisSel) ]%string.

(** The fill [e] goes to a booked histogram and falls on its axis, in
    [[lower edge, upper edge)]: into a bin proper, not into the underflow or
    overflow. *)
Definition inAxis (e : string * double) : bool :=
  existsb (fun b => String.eqb (fst b) (fst e)
                    && (snd (fst (snd b)) <= snd e)%D
                    && (snd e < snd (snd b))%D)
          bookedHistograms.

(** Where a run ends, normally or not. *)
Definition finalState {A : Type} (o : Outcome A) : TaskState :=
  match o with
  | Done _ st => st
  | Fatal _ st => st
  end.

Ltac axis_entries :=
  repeat first
    [ apply Forall_nil
    | apply Forall_app; split
    | apply Forall_cons;
      [ first [ reflexivity
              | match goal with
                | |- inAxis (cutFill _ ?b) = true => destruct b; reflexivity
                end ] | ]
    | match goal with
      | |- Forall _ (if ?b then _ else _) => destruct b
      | |- Forall _ (fillIf ?b _ _) => destruct b; unfold fillIf
      end ].

Lemma inAxis_topologicalFills c :
  Forall (fun e => inAxis e = true) (topologicalFills cfg tracks lfTracks c).
Proof.
  unfold topologicalFills, signFills, kinematicFills, qualityFills.
  axis_entries.
Qed.

Lemma inAxis_candidateFills c :
  Forall (fun e => inAxis e = true) (candidateFills cfg tracks lfTracks c).
Proof.
  unfold candidateFills. apply Forall_app. split;
    [apply inAxis_topologicalFills|].
  unfold pidFlagFills, massFills, selPidFills.
  axis_entries.
Qed.

(** X11.  Whatever the configuration and however the run ends, every fill that
    [process] makes in the registry goes to a histogram that [init] has
    booked, and falls into one of its bins, never into the underflow or the
    overflow. *)
Theorem process_fills_only_booked_bins cs st :
  exists fills,
    registry (finalState (process cfg tracks lfTracks cs st))
    = registry st ++ fills
    /\ Forall (fun e => inAxis e = true) fills.
Proof.
  destruct (validPid cfg) eqn:Hv.
  - exists (List.concat (map (candidateFills cfg tracks lfTracks) cs)).
    unfold process. rewrite (forCandidates_valid _ _ _ cs st Hv).
    split; [apply registry_afterCandidates|].
    induction cs as [|c cs IH]; [constructor|].
    cbn [map List.concat]. apply Forall_app. split;
      [apply inAxis_candidateFills|exact IH].
  - destruct cs as [|c cs].
    + exists []. split; [cbn; now rewrite app_nil_r|constructor].
    + exists (topologicalFills cfg tracks lfTracks c).
      unfold process. cbn [forCandidates]. unfold bind.
      rewrite (processCandidate_invalid _ _ _ c st Hv).
      split; [reflexivity|apply inAxis_topologicalFills].
Qed.

(** *** One failed cut *)

(** The cut statements that the body executes under the configuration, in
    their order: the histogram that each fills, and its verdict. *)
Definition cutVerdicts c : list (string * bool) :=
  [ ("hSelEtaPosV0Dau", passEtaV0PosDau cfg c);
    ("hSelEtaNegV0Dau", passEtaV0NegDau cfg c);
    ("hSelEtaPiFromCasc", passEtaPiFromCasc cfg c);
    ("hSelEtaPiFromCharm", passEtaPiFromCharm cfg c);
    ("hSelRadCasc", passRadiusCasc cfg c);
    ("hSelRadV0", passRadiusV0 cfg c);
    ("hSelCosPACasc", passCosPACasc cfg c);
    ("hSelCosPAV0", passCosPAV0 cfg c);
    ("hSelDCACascDau", passDcaCascDau cfg c);
    ("hSelDCAV0Dau", passDcaV0Dau cfg c);
    ("hSelDCACharmDau", passDcaCharmBaryonDau cfg c);
    ("hSelDcaXYToPvV0Daughters", passDcaXYToPvV0Daughters cfg c);
    ("hSelDcaXYToPvPiFromCasc", passDcaBachToPv cfg c);
    ("hSelDCAXYPrimPi", passImpParXYPiFromCharm cfg c);
    ("hSelDCAZPrimPi", passImpParZPiFromCharm cfg c);
    ("hSelDCAXYCasc", passImpParXYCasc cfg c);
    ("hSelDCAZCasc", passImpParZCasc cfg c);
    ("hSelPtPiFromCasc", passPtPiFromCasc cfg c);
    ("hSelPtPiFromCharm", passPtPiFromCharm cfg c) ]%string
  ++ (if applyTrkSelLf cfg then
        [ ("hSelTPCQualityPiFromLam", passTpcQualityPiFromLam cfg lfTracks c);
          ("hSelTPCQualityPrFromLam", passTpcQualityPrFromLam cfg lfTracks c);
          ("hSelTPCQualityPiFromCasc", passTpcQualityPiFromCasc cfg lfTracks c)
        ]%string
      else [])
  ++ [ ("hSelTPCQualityPiFromCharm", passTpcQualityPiFromCharm cfg tracks c);
       ("hSelITSQualityPiFromCharm", passItsPiFromCharm cfg tracks c) ]%string.

(** The histograms that the cut statements do not fill. *)
Definition summaryNames : list string :=
  signNames ++ "hStatusCheck"%string :: "hSelPID"%string :: massNames.

Lemma topologicalFills_cutVerdicts c :
  topologicalFills cfg tracks lfTracks c
  = signFills c ++ cutFills (cutVerdicts c).
Proof.
  unfold topologicalFills, cutVerdicts, cutFills, qualityFills,
    kinematicFills.
  rewrite !map_app. destruct (applyTrkSelLf cfg); reflexivity.
Qed.

Lemma topologicalFlag_cutVerdicts c :
  topologicalFlag cfg tracks lfTracks c = forallb snd (cutVerdicts c).
Proof.
  unfold topologicalFlag, kinematicFlag, cutVerdicts.
  rewrite !forallb_app. destruct (applyTrkSelLf cfg); cbn [forallb snd];
    rewrite ?andb_true_r, <- ?andb_assoc; reflexivity.
Qed.

Lemma NoDup_cutVerdicts c : NoDup (map fst (cutVerdicts c)).
Proof.
  unfold cutVerdicts. rewrite !map_app.
  destruct (applyTrkSelLf cfg); cbn [map fst app]; nodup_names.
Qed.

Lemma cutVerdicts_names c h :
  In h (map fst (cutVerdicts c)) ->
  In h (kinematicNames ++ lfQualityNames ++ charmQualityNames).
Proof.
  unfold cutVerdicts. rewrite !map_app.
  destruct (applyTrkSelLf cfg); cbn; tauto.
Qed.

Lemma cut_names_fresh h :
  In h (kinematicNames ++ lfQualityNames ++ charmQualityNames) ->
  forallb (fun n => negb (String.eqb n h)) summaryNames = true.
Proof.
  intros Hin. cbn in Hin.
  repeat (destruct Hin as [<-|Hin]; [reflexivity|]). destruct Hin.
Qed.

(** One entry of a list of cut entries with pairwise distinct histograms
    decides the tally of its histogram. *)
Lemma tally_cutFills_In l h b v :
  NoDup (map fst l) ->
  In (h, b) l ->
  tally (cutFills l) h v
  = if PrimFloat.eqb (if b then 1%float else 0%float) v then 1%nat else 0%nat.
Proof.
  induction l as [|[h' b'] l IH]; intros Hnd Hin; [destruct Hin|].
  cbn [map fst] in Hnd. inversion Hnd as [|? ? Hnotin Hnd']; subst.
  cbn [cutFills map fst snd]. unfold cutFill at 1.
  destruct Hin as [Heq|Hin].
  - injection Heq as -> ->.
    rewrite tally_cons_same by apply String.eqb_refl.
    fold (cutFills l). rewrite tally_cutFill_absent by assumption.
    destruct (PrimFloat.eqb _ _); reflexivity.
  - assert (String.eqb h' h = false).
    { apply String.eqb_neq. intros <-. apply Hnotin.
      apply in_map_iff. now exists (h', b). }
    rewrite tally_cons_other by assumption. now apply IH.
Qed.

(** Two lists of cut entries that agree on histogram [h] give it the same
    tally. *)
Lemma tally_cutFills_agree l1 l2 h v :
  NoDup (map fst l1) -> NoDup (map fst l2) ->
  (forall b, In (h, b) l1 <-> In (h, b) l2) ->
  tally (cutFills l1) h v = tally (cutFills l2) h v.
Proof.
  intros N1 N2 Hag.
  destruct (in_dec string_dec h (map fst l1)) as [Hin|Hnot].
  - apply in_map_iff in Hin. destruct Hin as ([h' b] & Hh & Hin).
    cbn in Hh. subst h'.
    rewrite (tally_cutFills_In l1 h b v N1 Hin).
    now rewrite (tally_cutFills_In l2 h b v N2 (proj1 (Hag b) Hin)).
  - rewrite tally_cutFill_absent by exact Hnot.
    rewrite tally_cutFill_absent; [reflexivity|].
    intros Hin. apply Hnot.
    apply in_map_iff in Hin. destruct Hin as ([h' b] & Hh & Hin).
    cbn in Hh. subst h'. apply in_map_iff. exists (h, b).
    split; [reflexivity|]. now apply Hag.
Qed.

(** The fills of a candidate: the sign block, the cut entries, and the three
    blocks that follow the PID check. *)
Lemma tally_candidateFills_cuts c h v :
  tally (candidateFills cfg tracks lfTracks c) h v
  = (tally (signFills c) h v
     + tally (cutFills (cutVerdicts c)) h v
     + tally (pidFlagFills cfg tracks lfTracks c) h v
     + tally (massFills cfg tracks lfTracks c) h v
     + tally (selPidFills cfg tracks lfTracks c) h v)%nat.
Proof.
  unfold candidateFills. rewrite topologicalFills_cutVerdicts.
  rewrite !tally_app. lia.
Qed.

(** The histogram of a cut holds nothing but the entry of that cut. *)
Lemma tally_cut_histogram c h b v :
  In (h, b) (cutVerdicts c) ->
  tally (candidateFills cfg tracks lfTracks c) h v
  = if PrimFloat.eqb (if b then 1%float else 0%float) v then 1%nat else 0%nat.
Proof.
  intros Hin.
  assert (Hno : forallb (fun n => negb (String.eqb n h)) summaryNames = true).
  { apply cut_names_fresh, (@cutVerdicts_names c).
    apply in_map_iff. now exists (h, b). }
  unfold summaryNames in Hno. rewrite forallb_app in Hno.
  cbn [forallb] in Hno. rewrite !andb_true_iff in Hno.
  destruct Hno as (Hs & Hsc & Hpid & Hm).
  rewrite tally_candidateFills_cuts.
  rewrite (tally_absent (writesOnly_signFills c)) by exact Hs.
  rewrite (tally_absent (writesOnly_pidFlagFills c))
    by (cbn [forallb]; rewrite Hsc; reflexivity).
  rewrite (tally_absent (writesOnly_massFills c))
    by (cbn [forallb]; rewrite Hsc; exact Hm).
  rewrite (tally_absent (writesOnly_selPidFills c))
    by (cbn [forallb]; rewrite Hpid; reflexivity).
  rewrite !Nat.add_0_r, Nat.add_0_l.
  apply tally_cutFills_In; [apply NoDup_cutVerdicts|exact Hin].
Qed.

Lemma writesOnly_cutFills c :
  writesOnly (cutFills (cutVerdicts c))
             (kinematicNames ++ lfQualityNames ++ charmQualityNames).
Proof.
  unfold cutFills. apply Forall_map, Forall_forall. intros [h b] Hin.
  cbn. apply (@cutVerdicts_names c). apply in_map_iff. now exists (h, b).
Qed.

(** A candidate that fails the overall selection adds nothing to the two
    summary histograms. *)
Lemma tally_summary_failed c h v :
  topologicalFlag cfg tracks lfTracks c = false ->
  h = "hStatusCheck"%string \/ h = "hSelPID"%string ->
  tally (candidateFills cfg tracks lfTracks c) h v = 0%nat.
Proof.
  intros Hf Hh. rewrite tally_candidateFills_cuts.
  unfold pidFlagFills, massFills, selPidFills, cutFill. rewrite Hf.
  rewrite !andb_false_r. cbn [fillIf app].
  destruct Hh as [-> | ->];
    rewrite (tally_absent (writesOnly_signFills c)) by reflexivity;
    rewrite (tally_absent (writesOnly_cutFills c)) by reflexivity;
    rewrite !tally_cons, !tally_nil; reflexivity.
Qed.

(** Candidates with the same PID and mass inputs have the same PID verdicts,
    mass verdicts and sign block. *)
Lemma samePidMassInputs_verdicts c1 c2 :
  samePidMassInputs c1 c2 ->
  statusPidLambda cfg lfTracks c1 = statusPidLambda cfg lfTracks c2
  /\ statusPidCascade cfg lfTracks c1 = statusPidCascade cfg lfTracks c2
  /\ statusPidCharmBaryon cfg tracks lfTracks c1
     = statusPidCharmBaryon cfg tracks lfTracks c2
  /\ inMassWindowLambda cfg c1 = inMassWindowLambda cfg c2
  /\ inMassWindowCascade cfg c1 = inMassWindowCascade cfg c2
  /\ inMassRangeCharmBaryon cfg c1 = inMassRangeCharmBaryon cfg c2
  /\ signFills c1 = signFills c2.
Proof.
  intros (Hpos & Hneg & Hb & Hcb & Hs & Hml & Hmc & Hmb).
  unfold statusPidLambda, statusPidCascade, statusPidCharmBaryon,
    acceptedPrFromLam, acceptedPiFromLam, acceptedPiFromCasc,
    acceptedPiFromCharm, inMassWindowLambda, inMassWindowCascade,
    inMassRangeCharmBaryon, trackPiFromLam, trackPrFromLam, trackV0PosDau,
    trackV0NegDau, trackPiFromCasc, trackPiFromCharm, signFills.
  rewrite Hpos, Hneg, Hb, Hcb, Hs, Hml, Hmc, Hmb.
  repeat split.
Qed.

(** C8 (amended).  The PID and mass flags do not depend on the topological
    inputs: two candidates with the same tracks, decay sign and
    reconstructed masses get the same six flags (and the same detector
    masks and PID scores) whatever their other columns.  A candidate that
    fails a cut, whichever, gets [resultSelections = false] and adds one
    entry to the fail bin, none to the pass bin, of the histogram of that
    cut.  This is not all that the failure changes: the candidate adds no
    entry to [hStatusCheck], none to [hSelPID], and its mass does not enter
    [hInvMassCharmBaryon].  For two candidates with the same PID and mass
    inputs processed from the same state, the tallies agree in every
    histogram on which the verdicts of the cuts agree, the two summary
    histograms apart; and the summary histograms and the mass histogram
    agree as soon as the two overall flags do. *)
Theorem failed_cut_spares_pid_and_mass_flags c1 c2 st1 st2 :
  validPid cfg = true ->
  samePidMassInputs c1 c2 ->
  exists st1' st2' row1 row2,
    processCandidate cfg tracks lfTracks c1 st1 = Done tt st1'
    /\ hfSelToXiPi st1' = hfSelToXiPi st1 ++ [row1]
    /\ processCandidate cfg tracks lfTracks c2 st2 = Done tt st2'
    /\ hfSelToXiPi st2' = hfSelToXiPi st2 ++ [row2]
    /\ row_statusPidLambda row1 = row_statusPidLambda row2
    /\ row_statusPidCascade row1 = row_statusPidCascade row2
    /\ row_statusPidCharmBaryon row1 = row_statusPidCharmBaryon row2
    /\ row_statusInvMassLambda row1 = row_statusInvMassLambda row2
    /\ row_statusInvMassCascade row1 = row_statusInvMassCascade row2
    /\ row_statusInvMassCharmBaryon row1 = row_statusInvMassCharmBaryon row2
    /\ (DetectorInfoRecorded tracks lfTracks c1 row1
        /\ DetectorInfoRecorded tracks lfTracks c1 row2)
    /\ (forall h,
          In (h, false) (cutVerdicts c1) ->
          row_resultSelections row1 = false
          /\ tally (registry st1') h 0 = S (tally (registry st1) h 0)
          /\ tally (registry st1') h 1 = tally (registry st1) h 1
          /\ (forall v, tally (registry st1') "hStatusCheck" v
                        = tally (registry st1) "hStatusCheck" v)
          /\ (forall v, tally (registry st1') "hSelPID" v
                        = tally (registry st1) "hSelPID" v)
          /\ hInvMassCharmBaryon st1' = hInvMassCharmBaryon st1)
    /\ (st2 = st1 ->
        (forall h,
            h <> "hStatusCheck"%string ->
            h <> "hSelPID"%string ->
            (forall b, In (h, b) (cutVerdicts c1)
                       <-> In (h, b) (cutVerdicts c2)) ->
            forall v, tally (registry st1') h v = tally (registry st2') h v)
        /\ (row_resultSelections row1 = row_resultSelections row2 ->
            (forall v, tally (registry st1') "hStatusCheck" v
                       = tally (registry st2') "hStatusCheck" v)
            /\ (forall v, tally (registry st1') "hSelPID" v
                          = tally (registry st2') "hSelPID" v)
            /\ hInvMassCharmBaryon st1' = hInvMassCharmBaryon st2')).
Proof.
  intros Hv Hsame.
  destruct (samePidMassInputs_verdicts Hsame)
    as (EL & EC & EB & EmL & EmC & EmB & Esign).
  exists (afterCandidate cfg tracks lfTracks c1 st1),
    (afterCandidate cfg tracks lfTracks c2 st2),
    (selectionRow cfg tracks lfTracks c1),
    (selectionRow cfg tracks lfTracks c2).
  split; [now apply processCandidate_valid|]. split; [reflexivity|].
  split; [now apply processCandidate_valid|]. split; [reflexivity|].
  cbn [selectionRow row_statusPidLambda row_statusPidCascade
       row_statusPidCharmBaryon row_statusInvMassLambda
       row_statusInvMassCascade row_statusInvMassCharmBaryon
       row_resultSelections].
  split; [exact EL|]. split; [exact EC|]. split; [exact EB|].
  split; [exact EmL|]. split; [exact EmC|]. split; [exact EmB|].
  split.
  { destruct Hsame as (Hpos & Hneg & Hb & Hcb & Hs & _).
    unfold DetectorInfoRecorded.
    cbn [selectionRow row_infoTpcStored row_infoTofStored
         row_tpcNSigmaPiFromCharmBaryon row_tpcNSigmaPiFromCasc
         row_tpcNSigmaPiFromLambda row_tpcNSigmaPrFromLambda
         row_tofNSigmaPiFromCharmBaryon row_tofNSigmaPiFromCasc
         row_tofNSigmaPiFromLambda row_tofNSigmaPrFromLambda].
    unfold trackPiFromLam, trackPrFromLam, trackV0PosDau, trackV0NegDau,
      trackPiFromCasc, trackPiFromCharm.
    rewrite Hpos, Hneg, Hb, Hcb, Hs. repeat split. }
  split.
  - intros h Hin.
    assert (Hf : topologicalFlag cfg tracks lfTracks c1 = false).
    { rewrite topologicalFlag_cutVerdicts.
      apply not_true_is_false. intros Hall.
      rewrite forallb_forall in Hall. specialize (Hall _ Hin).
      discriminate. }
    split; [exact Hf|].
    cbn [afterCandidate registry hInvMassCharmBaryon].
    rewrite !tally_app, !(tally_cut_histogram _ Hin).
    split; [cbn; lia|]. split; [cbn; lia|].
    split; [intros v; rewrite tally_app, tally_summary_failed; auto|].
    split; [intros v; rewrite tally_app, tally_summary_failed; auto|].
    unfold fullySelected. rewrite Hf, andb_false_r. apply app_nil_r.
  - intros ->. split.
    + intros h H1 H2 Hag v. cbn [afterCandidate registry].
      rewrite !tally_app. f_equal.
      assert (E1 : String.eqb "hStatusCheck" h = false)
        by (apply String.eqb_neq; congruence).
      assert (E2 : String.eqb "hSelPID" h = false)
        by (apply String.eqb_neq; congruence).
      rewrite !tally_candidateFills_cuts.
      rewrite !tally_pidFlagFills, !tally_selPidFills, !tally_massFills
        by assumption.
      assert (Hcut : tally (cutFills (cutVerdicts c1)) h v
                     = tally (cutFills (cutVerdicts c2)) h v)
        by (apply tally_cutFills_agree;
            [apply NoDup_cutVerdicts ..|exact Hag]).
      rewrite Esign, EmL, EmC, EmB, Hcut. reflexivity.
    + intros Hflag.
      assert (Ep : pidFlagFills cfg tracks lfTracks c1
                   = pidFlagFills cfg tracks lfTracks c2)
        by (unfold pidFlagFills; now rewrite EL, EC, EB, Hflag).
      assert (Em : massFills cfg tracks lfTracks c1
                   = massFills cfg tracks lfTracks c2)
        by (unfold massFills, allPid;
            now rewrite EL, EC, EB, EmL, EmC, EmB, Hflag).
      assert (Es : selPidFills cfg tracks lfTracks c1
                   = selPidFills cfg tracks lfTracks c2)
        by (unfold selPidFills;
            now rewrite EL, EC, EB, EmL, EmC, EmB, Hflag).
      assert (Hsum : forall h v,
                 h = "hStatusCheck"%string \/ h = "hSelPID"%string ->
                 tally (candidateFills cfg tracks lfTracks c1) h v
                 = tally (candidateFills cfg tracks lfTracks c2) h v).
      { intros h v Hh. rewrite !tally_candidateFills_cuts, Ep, Em, Es, Esign.
        destruct Hh as [-> | ->];
          rewrite !(tally_absent (writesOnly_cutFills _)) by reflexivity;
          reflexivity. }
      cbn [afterCandidate registry hInvMassCharmBaryon].
      split; [intros v; rewrite !tally_app, Hsum; auto|].
      split; [intros v; rewrite !tally_app, Hsum; auto|].
      f_equal. unfold fullySelected, allPid.
      destruct Hsame as (_ & _ & _ & _ & _ & _ & _ & Hmb).
      now rewrite EL, EC, EB, EmL, EmC, EmB, Hflag, Hmb.
Qed.

End Runs.

(** *** A configurable without effect *)

(** The configuration [cfg0] with the candidate-pT bounds replaced. *)
Definition withPtCand (cfg0 : Config) (lo hi : double) : Config :=
  {| radiusCascMin := radiusCascMin cfg0;
     radiusV0Min := radiusV0Min cfg0;
     cosPAV0Min := cosPAV0Min cfg0;
     cosPACascMin := cosPACascMin cfg0;
     dcaCascDauMax := dcaCascDauMax cfg0;
     dcaV0DauMax := dcaV0DauMax cfg0;
     dcaBachToPvMin := dcaBachToPvMin cfg0;
     dcaNegToPvMin := dcaNegToPvMin cfg0;
     dcaPosToPvMin := dcaPosToPvMin cfg0;
     v0MassWindow := v0MassWindow cfg0;
     cascadeMassWindow := cascadeMassWindow cfg0;
     applyTrkSelLf := applyTrkSelLf cfg0;
     invMassCharmBaryonMin := invMassCharmBaryonMin cfg0;
     invMassCharmBaryonMax := invMassCharmBaryonMax cfg0;
     etaTrackCharmBachMax := etaTrackCharmBachMax cfg0;
     etaTrackLFDauMax := etaTrackLFDauMax cfg0;
     ptPiFromCascMin := ptPiFromCascMin cfg0;
     ptPiFromCharmBaryonMin := ptPiFromCharmBaryonMin cfg0;
     impactParameterXYPiFromCharmBaryonMin := impactParameterXYPiFromCharmBaryonMin cfg0;
     impactParameterXYPiFromCharmBaryonMax := impactParameterXYPiFromCharmBaryonMax cfg0;
     impactParameterZPiFromCharmBaryonMin := impactParameterZPiFromCharmBaryonMin cfg0;
     impactParameterZPiFromCharmBaryonMax := impactParameterZPiFromCharmBaryonMax cfg0;
     impactParameterXYCascMin := impactParameterXYCascMin cfg0;
     impactParameterXYCascMax := impactParameterXYCascMax cfg0;
     impactParameterZCascMin := impactParameterZCascMin cfg0;
     impactParameterZCascMax := impactParameterZCascMax cfg0;
     ptCandMin := lo;
     ptCandMax := hi;
     dcaCharmBaryonDauMax := dcaCharmBaryonDauMax cfg0;
     usePidTpcOnly := usePidTpcOnly cfg0;
     usePidTpcTofCombined := usePidTpcTofCombined cfg0;
     ptPiPidTpcMin := ptPiPidTpcMin cfg0;
     ptPiPidTpcMax := ptPiPidTpcMax cfg0;
     nSigmaTpcPiMax := nSigmaTpcPiMax cfg0;
     nSigmaTpcCombinedPiMax := nSigmaTpcCombinedPiMax cfg0;
     ptPrPidTpcMin := ptPrPidTpcMin cfg0;
     ptPrPidTpcMax := ptPrPidTpcMax cfg0;
     nSigmaTpcPrMax := nSigmaTpcPrMax cfg0;
     nSigmaTpcCombinedPrMax := nSigmaTpcCombinedPrMax cfg0;
     ptPiPidTofMin := ptPiPidTofMin cfg0;
     ptPiPidTofMax := ptPiPidTofMax cfg0;
     nSigmaTofPiMax := nSigmaTofPiMax cfg0;
     nSigmaTofCombinedPiMax := nSigmaTofCombinedPiMax cfg0;
     ptPrPidTofMin := ptPrPidTofMin cfg0;
     ptPrPidTofMax := ptPrPidTofMax cfg0;
     nSigmaTofPrMax := nSigmaTofPrMax cfg0;
     nSigmaTofCombinedPrMax := nSigmaTofCombinedPrMax cfg0;
     nClustersTpcMin := nClustersTpcMin cfg0;
     nTpcCrossedRowsMin := nTpcCrossedRowsMin cfg0;
     tpcCrossedRowsOverFindableClustersRatioMin := tpcCrossedRowsOverFindableClustersRatioMin cfg0;
     tpcChi2PerClusterMax := tpcChi2PerClusterMax cfg0;
     nClustersItsMin := nClustersItsMin cfg0;
     nClustersItsInnBarrMin := nClustersItsInnBarrMin cfg0;
     itsChi2PerClusterMax := itsChi2PerClusterMax cfg0 |}.

Section Unused.
Context {TracksSel TracksSelLf : Type}.
Context {rowSel : TrackRow TracksSel} {rowSelLf : TrackRow TracksSelLf}.
Context {fw : Framework}.

(** X12.  [ptCandMin] and [ptCandMax] are declared but never read: changing them
    changes nothing to a run, whatever the configuration, the tables, the
    candidates and the starting state. *)
Theorem candidate_pt_bounds_are_unused
        (cfg : Config) (tracks : Table TracksSel) (lfTracks : Table TracksSelLf)
        lo hi cs st :
  process (withPtCand cfg lo hi) tracks lfTracks cs st
  = process cfg tracks lfTracks cs st.
Proof.
  unfold process. revert st.
  induction cs as [|c cs IH]; intros st; [reflexivity|].
  cbn [forCandidates].
  change (processCandidate (withPtCand cfg lo hi) tracks lfTracks c)
    with (processCandidate cfg tracks lfTracks c).
  apply bind_ext. intros _ s. apply IH.
Qed.

End Unused.

(** *** The theorems at the sample inputs *)

(** Three candidates: positive sign and passing radius, negative sign and
    failing radius, zero sign and passing radius. *)
Definition sampleCandidates : list Candidate :=
  [sampleCandidate 1 1; sampleCandidate (-1) 0.5; sampleCandidate 0 1].

Lemma every_cut_is_tallied_once_per_candidate_witness :
  validPid defaultConfig = true
  /\ In "hSelRadCasc"%string (kinematicNames ++ charmQualityNames ++ massNames)
  /\ exists st',
       sampleProcess defaultConfig sampleCandidates init = Done tt st'
       /\ (tally (registry st') "hSelRadCasc" 0
           + tally (registry st') "hSelRadCasc" 1 = 3)%nat.
Proof.
  split; [reflexivity|]. split; [cbn; tauto|].
  destruct (@every_cut_is_tallied_once_per_candidate
              _ _ sampleRow sampleRow sampleFramework defaultConfig
              sampleTable sampleTable sampleCandidates init
              "hSelRadCasc"%string eq_refl)
    as (st' & Hrun & Ht); [cbn; tauto|].
  exists st'. split; [exact Hrun|exact Ht].
Defined.

Lemma lf_quality_histograms_follow_applyTrkSelLf_witness :
  validPid defaultConfig = true
  /\ In "hSelTPCQualityPrFromLam"%string lfQualityNames
  /\ exists st',
       sampleProcess defaultConfig sampleCandidates init = Done tt st'
       /\ (tally (registry st') "hSelTPCQualityPrFromLam" 0
           + tally (registry st') "hSelTPCQualityPrFromLam" 1 = 3)%nat.
Proof.
  split; [reflexivity|]. split; [cbn; tauto|].
  destruct (@lf_quality_histograms_follow_applyTrkSelLf
              _ _ sampleRow sampleRow sampleFramework defaultConfig
              sampleTable sampleTable sampleCandidates init
              "hSelTPCQualityPrFromLam"%string eq_refl)
    as (st' & Hrun & Ht); [cbn; tauto|].
  exists st'. split; [exact Hrun|exact Ht].
Defined.

Lemma hSelSignDec_counts_decay_signs_witness :
  validPid defaultConfig = true
  /\ exists st',
       sampleProcess defaultConfig sampleCandidates init = Done tt st'
       /\ tally (registry st') "hSelSignDec" 1 = 1%nat
       /\ tally (registry st') "hSelSignDec" 0 = 1%nat.
Proof.
  split; [reflexivity|].
  destruct (@hSelSignDec_counts_decay_signs
              _ _ sampleRow sampleRow sampleFramework defaultConfig
              sampleTable sampleTable sampleCandidates init eq_refl)
    as (st' & Hrun & H1 & H0).
  exists st'. split; [exact Hrun|]. split; [exact H1|exact H0].
Defined.

Lemma hStatusCheck_is_a_cut_flow_witness :
  validPid defaultConfig = true
  /\ exists st',
       sampleProcess defaultConfig sampleCandidates init = Done tt st'
       /\ (tally (registry st') "hStatusCheck" 5.5
           <= tally (registry st') "hStatusCheck" 0.5 <= 3)%nat.
Proof.
  split; [reflexivity|].
  destruct (@hStatusCheck_is_a_cut_flow
              _ _ sampleRow sampleRow sampleFramework defaultConfig
              sampleTable sampleTable sampleCandidates init eq_refl)
    as (st' & d0 & d1 & d2 & d3 & d4 & d5 & Hrun & E0 & _ & _ & _ & _ & E5
        & Hd).
  exists st'. split; [exact Hrun|].
  rewrite E0, E5. cbn [init registry tally filter List.length].
  cbn [sampleCandidates List.length] in Hd. lia.
Defined.

Lemma hInvMassCharmBaryon_holds_the_fully_selected_witness :
  validPid defaultConfig = true
  /\ exists st' rows,
       sampleProcess defaultConfig sampleCandidates init = Done tt st'
       /\ hfSelToXiPi st' = rows
       /\ List.length rows = 3%nat
       /\ List.length (hInvMassCharmBaryon st')
          = List.length (filter allFlags rows).
Proof.
  split; [reflexivity|].
  destruct (@hInvMassCharmBaryon_holds_the_fully_selected
              _ _ sampleRow sampleRow sampleFramework defaultConfig
              sampleTable sampleTable sampleCandidates init eq_refl)
    as (st' & rows & Hrun & Hrows & Hlen & Hm & _).
  exists st', rows. split; [exact Hrun|]. split; [exact Hrows|].
  split; [exact Hlen|].
  rewrite Hm. cbn [init hInvMassCharmBaryon app]. rewrite length_map.
  clear Hm Hrows Hrun.
  revert Hlen. generalize sampleCandidates.
  induction rows as [|r rows IH]; intros [|c cs] Hlen;
    try discriminate; [reflexivity|].
  cbn [combine filter snd]. destruct (allFlags r); cbn [List.length];
    rewrite (IH cs) by (cbn in Hlen; congruence); reflexivity.
Defined.

Lemma hInvMassCharmBaryon_entries_in_range_witness :
  validPid defaultConfig = true
  /\ exists st',
       sampleProcess defaultConfig sampleCandidates init = Done tt st'
       /\ Forall (fun v =>
                    (v >= invMassCharmBaryonMin defaultConfig)%D = true
                    /\ (v <= invMassCharmBaryonMax defaultConfig)%D = true)
                 (hInvMassCharmBaryon st').
Proof.
  split; [reflexivity|].
  destruct (@hInvMassCharmBaryon_entries_in_range
              _ _ sampleRow sampleRow sampleFramework defaultConfig
              sampleTable sampleTable sampleCandidates init eq_refl)
    as (st' & added & Hrun & Hm & Hin).
  exists st'. split; [exact Hrun|]. rewrite Hm.
  cbn [init hInvMassCharmBaryon app]. exact Hin.
Defined.

Lemma hSelPID_counts_flags_of_selected_witness :
  validPid defaultConfig = true
  /\ In (row_statusInvMassCascade, 8.5%float, 9.5%float) selPidBins
  /\ exists st' rows,
       sampleProcess defaultConfig sampleCandidates init = Done tt st'
       /\ hfSelToXiPi st' = rows
       /\ tally (registry st') "hSelPID" 9.5
          = List.length
              (filter (fun r => row_resultSelections r
                                && row_statusInvMassCascade r) rows).
Proof.
  split; [reflexivity|]. split; [cbn; tauto|].
  destruct (@hSelPID_counts_flags_of_selected
              _ _ sampleRow sampleRow sampleFramework defaultConfig
              sampleTable sampleTable sampleCandidates init
              row_statusInvMassCascade 8.5%float 9.5%float eq_refl)
    as (st' & rows & Hrun & Hrows & _ & Hhi); [cbn; tauto|].
  exists st', rows. split; [exact Hrun|]. split; [exact Hrows|].
  exact Hhi.
Defined.

Lemma detector_masks_decode_witness :
  validPid defaultConfig = true
  /\ exists row,
       sampleEmits defaultConfig (sampleCandidate 1 1) init row
       /\ Z.testbit (row_infoTofStored row) PrFromLam = true
       /\ Z.testbit (row_infoTofStored row) PiFromLam = false
       /\ (0 <= row_infoTpcStored row < 16)%Z.
Proof.
  split; [reflexivity|].
  destruct (@detector_masks_decode
              _ _ sampleRow sampleRow sampleFramework defaultConfig
              sampleTable sampleTable (sampleCandidate 1 1) init eq_refl)
    as (row & He & _ & _ & _ & _ & HpiL & HprL & _ & _ & Hr & _).
  exists row. split; [exact He|].
  split; [exact HprL|]. split; [exact HpiL|exact Hr].
Defined.

Lemma candidate_order_is_irrelevant_to_tallies_witness :
  validPid defaultConfig = true
  /\ Permutation sampleCandidates (rev sampleCandidates)
  /\ exists st1 st2,
       sampleProcess defaultConfig sampleCandidates init = Done tt st1
       /\ sampleProcess defaultConfig (rev sampleCandidates) init
          = Done tt st2
       /\ forall h v, tally (registry st1) h v = tally (registry st2) h v.
Proof.
  split; [reflexivity|]. split; [apply Permutation_rev|].
  destruct (@candidate_order_is_irrelevant_to_tallies
              _ _ sampleRow sampleRow sampleFramework defaultConfig
              sampleTable sampleTable sampleCandidates
              (rev sampleCandidates) init eq_refl
              (Permutation_rev sampleCandidates))
    as (st1 & st2 & r1 & r2 & m1 & m2 & H1 & H2 & Ht & _).
  exists st1, st2. split; [exact H1|]. split; [exact H2|exact Ht].
Defined.


(** The candidate with cascade radius 0.5 fails the radius cut of the
    default configuration (minimum 0.6) and no other cut, while all six of
    its PID and mass flags are those of the candidate with radius 1. *)
Lemma failed_cut_spares_pid_and_mass_flags_witness :
  validPid defaultConfig = true
  /\ samePidMassInputs (sampleCandidate 1 0.5) (sampleCandidate 1 1)
  /\ exists st1' st2' row1 row2,
       sampleProcessCandidate defaultConfig (sampleCandidate 1 0.5) init
       = Done tt st1'
       /\ hfSelToXiPi st1' = [row1]
       /\ sampleProcessCandidate defaultConfig (sampleCandidate 1 1) init
          = Done tt st2'
       /\ hfSelToXiPi st2' = [row2]
       /\ row_statusPidLambda row1 = row_statusPidLambda row2
       /\ row_statusPidCascade row1 = row_statusPidCascade row2
       /\ row_statusPidCharmBaryon row1 = row_statusPidCharmBaryon row2
       /\ row_statusInvMassLambda row1 = row_statusInvMassLambda row2
       /\ row_statusInvMassCascade row1 = row_statusInvMassCascade row2
       /\ row_statusInvMassCharmBaryon row1 = row_statusInvMassCharmBaryon row2
       /\ row_resultSelections row1 = false
       /\ tally (registry st1') "hSelRadCasc" 0 = 1%nat
       /\ tally (registry st1') "hSelRadCasc" 1 = 0%nat
       /\ hInvMassCharmBaryon st1' = []
       /\ tally (registry st1') "hSelRadV0" 1
          = tally (registry st2') "hSelRadV0" 1.
Proof.
  split; [reflexivity|]. split; [repeat split|].
  destruct (@failed_cut_spares_pid_and_mass_flags _ _ sampleRow sampleRow
              sampleFramework defaultConfig sampleTable sampleTable
              (sampleCandidate 1 0.5) (sampleCandidate 1 1) init init
              eq_refl
              (conj eq_refl (conj eq_refl (conj eq_refl (conj eq_refl
                (conj eq_refl (conj eq_refl (conj eq_refl eq_refl))))))))
    as (st1' & st2' & row1 & row2 & Hrun1 & Hrow1 & Hrun2 & Hrow2
        & H1 & H2 & H3 & H4 & H5 & H6 & _ & Hfail & Hframe).
  destruct (Hfail "hSelRadCasc"%string) as (Hr & Ht0 & Ht1 & _ & _ & Hm).
  { cbn. tauto. }
  destruct (Hframe eq_refl) as (Hcuts & _).
  exists st1', st2', row1, row2. rewrite Ht0, Ht1, Hm.
  repeat split; try assumption.
  apply Hcuts; [discriminate|discriminate|].
  intros b. split; intros Hin; cbn in Hin;
    repeat (destruct Hin as [Hin|Hin];
            [inversion Hin; subst; cbn;
             repeat first [left; reflexivity | right]|]);
    destruct Hin.
Defined.

(** C8, as stated, fails: the overall flag and the tally of the failed cut
    are not all that a failed cut changes.  Of two candidates with the same
    PID and mass inputs, processed from the same state, the one that passes
    every cut adds an entry to [hStatusCheck], one to [hSelPID] and its mass
    to [hInvMassCharmBaryon]; the one whose cascade radius fails adds none
    of them. *)
Lemma failed_cut_counterexample :
  samePidMassInputs (sampleCandidate 1 0.5) (sampleCandidate 1 1)
  /\ exists stFail stPass,
       sampleProcessCandidate defaultConfig (sampleCandidate 1 0.5) init
       = Done tt stFail
       /\ sampleProcessCandidate defaultConfig (sampleCandidate 1 1) init
          = Done tt stPass
       /\ tally (registry stFail) "hStatusCheck" 5.5 = 0%nat
       /\ tally (registry stPass) "hStatusCheck" 5.5 = 1%nat
       /\ tally (registry stFail) "hSelPID" 1.5 = 0%nat
       /\ tally (registry stPass) "hSelPID" 1.5 = 1%nat
       /\ List.length (hInvMassCharmBaryon stFail) = 0%nat
       /\ List.length (hInvMassCharmBaryon stPass) = 1%nat
       /\ List.length (registry stFail) = 28%nat
       /\ List.length (registry stPass) = 40%nat.
Proof.
  split; [repeat split|].
  eexists. eexists.
  split; [vm_compute; reflexivity|].
  split; [vm_compute; reflexivity|].
  repeat split.
Qed.

End SelectorRuns.

(** * Runs of the vertex finder, and the builder that reads its table *)

Module VertexerRuns.
Import Vertexer.

(** *** [CandidateBuilder2Prong] *)

(** The lines that [CandidateBuilder2Prong::process] logs. *)
Inductive LogLine : Set :=
| NewEvent
| ConsumeTable (posx posy tracky0 y : double).

(** [tracks.begin() + i]: the row at position [i] of the table; no row
    outside of it, where the source reads past the columns. *)
Definition rowAt (tracks : list Track) (i : Z) : option Track :=
  if (i <? 0)%Z then None else nth_error tracks (Z.to_nat i).

Module CandidateBuilder2Prong.

(** [for (auto& secVtx : secVtxs)
       LOGF(INFO, ..., secVtx.posx(), secVtx.posy(), secVtx.tracky0(),
            (tracks.begin() + secVtx.index0()).y());] *)
Fixpoint consume (secVtxs : list SecVtxRow) (tracks : list Track)
  : option (list LogLine) :=
  match secVtxs with
  | [] => Some []
  | secVtx :: rest =>
      match rowAt tracks (index0 secVtx) with
      | None => None
      | Some track =>
          match consume rest tracks with
          | None => None
          | Some lines =>
              Some (ConsumeTable (posx secVtx) (posy secVtx)
                                 (tracky0 secVtx) (y track) :: lines)
          end
      end
  end.

(** [CandidateBuilder2Prong::process(secVtxs, tracks)]: the log, or nothing
    when an [index0] points outside [tracks]. *)
Definition process (secVtxs : list SecVtxRow) (tracks : list Track)
  : option (list LogLine) :=
  match consume secVtxs tracks with
  | None => None
  | Some lines => Some (NewEvent :: lines)
  end.

End CandidateBuilder2Prong.

(** The line of a row whose [index0] leads back to the track it was made
    from: the [y] read from the table repeats [tracky0]. *)
Definition echo (r : SecVtxRow) : LogLine :=
  ConsumeTable (posx r) (posy r) (tracky0 r) (tracky0 r).

Definition readsBack (allTracks : list Track) (rows : list SecVtxRow) : Prop :=
  CandidateBuilder2Prong.process rows allTracks
  = Some (NewEvent :: map echo rows).

(** Number of unordered pairs among [n] tracks. *)
Fixpoint numPairs (n : nat) : nat :=
  match n with
  | O => O
  | S m => m + numPairs m
  end.

Section Runs.

Context {F : Type} {fitter : DCAFitter F}.

(** [track_0]'s entry in the index histogram, at the head of the outer
    loop's body. *)
Definition fillIndex (track_0 : Track) (st : TaskState) : TaskState :=
  {| hvtx_x_out := hvtx_x_out st;
     hvtx_y_out := hvtx_y_out st;
     hvtx_z_out := hvtx_z_out st;
     hindex_0_coll := hindex_0_coll st ++ [index track_0];
     secvtx := secvtx st |}.

Lemma outerLoop_cons track_0 following df st :
  outerLoop (track_0 :: following) (df, st)
  = outerLoop following
      (innerLoop track_0 (trackParCov track_0) following
                 (df, fillIndex track_0 st)).
Proof. reflexivity. Qed.

(** State after the loop over the candidates of one pair. *)
Lemma candidateLoop_state df t0 t1 ics st :
  fold_left (candidateBody df t0 t1) ics st
  = {| hvtx_x_out := hvtx_x_out st
                     ++ map (fun ic => Triplet.x (getPCACandidate ic df)) ics;
       hvtx_y_out := hvtx_y_out st
                     ++ map (fun ic => Triplet.y (getPCACandidate ic df)) ics;
       hvtx_z_out := hvtx_z_out st
                     ++ map (fun ic => Triplet.z (getPCACandidate ic df)) ics;
       hindex_0_coll := hindex_0_coll st;
       secvtx := secvtx st
                 ++ map (fun ic => secvtxRow (getPCACandidate ic df) t0 t1)
                        ics |}.
Proof.
  revert st. induction ics as [|ic ics IH]; intros st; cbn [fold_left map].
  - rewrite !app_nil_r. now destruct st.
  - rewrite IH. cbn. now rewrite <- !app_assoc.
Qed.

(** A relation between the states before and after that holds across every
    step of [process] holds across [process]. *)
Section Invariant.

Variable R : TaskState -> TaskState -> Prop.
Hypothesis R_refl : forall st, R st st.
Hypothesis R_trans : forall a b c, R a b -> R b c -> R a c.
Hypothesis R_fillIndex : forall t st, R st (fillIndex t st).
Hypothesis R_candidates :
  forall df t0 t1 ics st, R st (fold_left (candidateBody df t0 t1) ics st).

Lemma pairBody_invariant t0 p0 t1 s : R (snd s) (snd (pairBody t0 p0 t1 s)).
Proof.
  destruct s as [df st]. unfold pairBody.
  destruct (fitterProcess _ _ _) as [nCand df']. cbn [snd].
  apply R_candidates.
Qed.

Lemma innerLoop_invariant t0 p0 following :
  forall s, R (snd s) (snd (innerLoop t0 p0 following s)).
Proof.
  induction following as [|t1 rest IH]; intros s; cbn [innerLoop].
  - apply R_refl.
  - eapply R_trans; [apply pairBody_invariant|apply IH].
Qed.

Lemma outerLoop_invariant remaining :
  forall s, R (snd s) (snd (outerLoop remaining s)).
Proof.
  induction remaining as [|t0 following IH]; intros [df st].
  - apply R_refl.
  - rewrite outerLoop_cons. cbn [snd].
    eapply R_trans; [apply R_fillIndex|].
    eapply R_trans; [|apply IH].
    apply (innerLoop_invariant t0 (trackParCov t0) following
                               (df, fillIndex t0 st)).
Qed.

Lemma process_invariant tracks st : R st (process tracks st).
Proof.
  unfold process.
  apply (outerLoop_invariant tracks (newDCAFitter 5.0%float 10%float, st)).
Qed.

End Invariant.

(** *** The index histogram *)

Lemma innerLoop_hindex t0 p0 following s :
  hindex_0_coll (snd (innerLoop t0 p0 following s)) = hindex_0_coll (snd s).
Proof.
  apply (innerLoop_invariant
           (fun a b => hindex_0_coll b = hindex_0_coll a)).
  - reflexivity.
  - intros a b c Hab Hbc. now rewrite Hbc.
  - intros df u0 u1 ics st. now rewrite candidateLoop_state.
Qed.

Lemma outerLoop_hindex remaining :
  forall s,
    hindex_0_coll (snd (outerLoop remaining s))
    = hindex_0_coll (snd s) ++ map index remaining.
Proof.
  induction remaining as [|t0 following IH]; intros [df st].
  - cbn. now rewrite app_nil_r.
  - rewrite outerLoop_cons, IH, innerLoop_hindex. cbn.
    now rewrite <- app_assoc.
Qed.

(** X13.  The index histogram receives the index of every input track once, in the
    order of the input, whatever the fits give. *)
Theorem hindex_0_coll_lists_the_input tracks st :
  hindex_0_coll (process tracks st) = hindex_0_coll st ++ map index tracks.
Proof.
  unfold process.
  apply (outerLoop_hindex tracks (newDCAFitter 5.0%float 10%float, st)).
Qed.

(** *** The vertex histograms and the table *)

(** [mirrors st st']: from [st] to [st'], the table grew by some rows, the
    x and y histograms by the positions of those rows, and the z histogram
    by one entry per row. *)
Definition mirrors (st st' : TaskState) : Prop :=
  exists (rows : list SecVtxRow) (zs : list double),
    secvtx st' = secvtx st ++ rows
    /\ hvtx_x_out st' = hvtx_x_out st ++ map posx rows
    /\ hvtx_y_out st' = hvtx_y_out st ++ map posy rows
    /\ hvtx_z_out st' = hvtx_z_out st ++ zs
    /\ List.length zs = List.length rows.

Lemma mirrors_refl st : mirrors st st.
Proof.
  exists [], []. cbn. rewrite !app_nil_r. repeat split.
Qed.

Lemma mirrors_trans a b c : mirrors a b -> mirrors b c -> mirrors a c.
Proof.
  intros (r1 & z1 & A1 & B1 & C1 & D1 & E1) (r2 & z2 & A2 & B2 & C2 & D2 & E2).
  exists (r1 ++ r2), (z1 ++ z2).
  rewrite A2, B2, C2, D2, A1, B1, C1, D1, !map_app, <- !app_assoc,
    !length_app.
  repeat split. lia.
Qed.

Lemma mirrors_fillIndex t st : mirrors st (fillIndex t st).
Proof.
  exists [], []. cbn. rewrite !app_nil_r. repeat split.
Qed.

Lemma mirrors_candidates df t0 t1 ics st :
  mirrors st (fold_left (candidateBody df t0 t1) ics st).
Proof.
  rewrite candidateLoop_state.
  exists (map (fun ic => secvtxRow (getPCACandidate ic df) t0 t1) ics),
         (map (fun ic => Triplet.z (getPCACandidate ic df)) ics).
  cbn. rewrite !map_map, !length_map. cbn. repeat split.
Qed.

(** X14.  The vertex histograms mirror the produced table: the x and y histograms
    are filled with [posx] and [posy] of the new rows, in the order of the
    rows, and the z histogram gets one entry per new row. *)
Theorem vertex_histograms_mirror_the_table tracks st :
  exists (rows : list SecVtxRow) (zs : list double),
    secvtx (process tracks st) = secvtx st ++ rows
    /\ hvtx_x_out (process tracks st) = hvtx_x_out st ++ map posx rows
    /\ hvtx_y_out (process tracks st) = hvtx_y_out st ++ map posy rows
    /\ hvtx_z_out (process tracks st) = hvtx_z_out st ++ zs
    /\ List.length zs = List.length rows.
Proof.
  apply (process_invariant mirrors mirrors_refl mirrors_trans
                           mirrors_fillIndex mirrors_candidates).
Qed.

(** *** How many rows *)

Lemma countedRange_length n : List.length (countedRange n) = Z.to_nat n.
Proof. unfold countedRange. now rewrite length_map, length_seq. Qed.

Lemma numPairs_twice n : (2 * numPairs n = n * (n - 1))%nat.
Proof.
  induction n as [|n IH]; [reflexivity|].
  cbn [numPairs]. destruct n as [|m]; [reflexivity|].
  replace (S (S m) - 1)%nat with (S m) by lia.
  replace (S m - 1)%nat with m in IH by lia. nia.
Qed.

Section Bound.

Variable k : nat.
Hypothesis fits_at_most :
  forall p0 p1 df, (fst (fitterProcess p0 p1 df) <= Z.of_nat k)%Z.

Lemma pairBody_rows_le t0 p0 t1 s :
  (List.length (secvtx (snd (pairBody t0 p0 t1 s)))
   <= List.length (secvtx (snd s)) + k)%nat.
Proof.
  destruct s as [df st]. unfold pairBody.
  pose proof (fits_at_most p0 (trackParCov t1) (setUseAbsDCA true df)) as Hk.
  destruct (fitterProcess _ _ _) as [nCand df']. cbn [fst snd] in *.
  rewrite candidateLoop_state. cbn [secvtx].
  rewrite length_app, length_map, countedRange_length. lia.
Qed.

Lemma innerLoop_rows_le t0 p0 following :
  forall s,
    (List.length (secvtx (snd (innerLoop t0 p0 following s)))
     <= List.length (secvtx (snd s)) + k * List.length following)%nat.
Proof.
  induction following as [|t1 rest IH]; intros s; cbn [innerLoop List.length].
  - lia.
  - pose proof (IH (pairBody t0 p0 t1 s)).
    pose proof (pairBody_rows_le t0 p0 t1 s). nia.
Qed.

Lemma outerLoop_rows_le remaining :
  forall s,
    (List.length (secvtx (snd (outerLoop remaining s)))
     <= List.length (secvtx (snd s))
        + k * numPairs (List.length remaining))%nat.
Proof.
  induction remaining as [|t0 following IH]; intros [df st].
  - cbn. lia.
  - rewrite outerLoop_cons. cbn [List.length numPairs snd].
    pose proof (IH (innerLoop t0 (trackParCov t0) following
                              (df, fillIndex t0 st))) as H1.
    pose proof (innerLoop_rows_le t0 (trackParCov t0) following
                                  (df, fillIndex t0 st)) as H2.
    cbn [snd fillIndex secvtx] in H2. nia.
Qed.

End Bound.

(** X15.  With a fitter that never reports more than [k] candidates for a pair,
    [n] tracks add at most [k * n * (n - 1) / 2] rows; with [k = 0], a fitter
    that finds nothing or fails, none. *)
Theorem rows_bounded_by_pairs (k : nat) tracks st :
  (forall p0 p1 df, (fst (fitterProcess p0 p1 df) <= Z.of_nat k)%Z) ->
  (2 * List.length (secvtx (process tracks st))
   <= 2 * List.length (secvtx st)
      + k * (List.length tracks * (List.length tracks - 1)))%nat.
Proof.
  intros Hk. unfold process.
  pose proof (outerLoop_rows_le k Hk tracks
                (newDCAFitter 5.0%float 10%float, st)) as H.
  cbn [snd] in H. rewrite <- numPairs_twice. nia.
Qed.

(** X16.  With fewer than two tracks there is no pair: the table and the vertex
    histograms are left as they were. *)
Theorem fewer_than_two_tracks_give_no_vertex tracks st :
  (List.length tracks < 2)%nat ->
  secvtx (process tracks st) = secvtx st
  /\ hvtx_x_out (process tracks st) = hvtx_x_out st
  /\ hvtx_y_out (process tracks st) = hvtx_y_out st
  /\ hvtx_z_out (process tracks st) = hvtx_z_out st.
Proof.
  intros Hn. destruct tracks as [|t0 [|t1 rest]]; cbn in Hn; try lia;
    cbn; repeat split.
Qed.

(** *** The order of the rows *)

(** X17.  The rows are written in the order of the visits, which is the
    strictly increasing order of (position of the first track, position of
    the second track, candidate number): the rows added to the table are,
    one for one and in this order, the rows of the visits, the row of visit
    [(i, j, ic)] being the one written for candidate [ic] of the fit of the
    tracks at positions [i] and [j]. *)
Theorem rows_in_lexicographic_order tracks st :
  secvtx (process tracks st) = secvtx st ++ map snd (visits tracks)
  /\ StronglySorted visitLt (map fst (visits tracks)).
Proof.
  split; [apply secvtx_process_visits|apply visits_sorted].
Qed.

(** *** The builder on the rows of the vertex finder *)

Lemma consume_app rows1 rows2 allTracks l1 l2 :
  CandidateBuilder2Prong.consume rows1 allTracks = Some l1 ->
  CandidateBuilder2Prong.consume rows2 allTracks = Some l2 ->
  CandidateBuilder2Prong.consume (rows1 ++ rows2) allTracks = Some (l1 ++ l2).
Proof.
  revert l1. induction rows1 as [|r rows1 IH]; intros l1 H1 H2; cbn in *.
  - injection H1 as <-. exact H2.
  - destruct (rowAt allTracks (index0 r)) as [t|]; [|discriminate].
    destruct (CandidateBuilder2Prong.consume rows1 allTracks) as [l|];
      [|discriminate].
    injection H1 as <-. now rewrite (IH l eq_refl H2).
Qed.

Lemma consume_echo rows allTracks :
  Forall (fun r => exists t, rowAt allTracks (index0 r) = Some t
                             /\ y t = tracky0 r) rows ->
  CandidateBuilder2Prong.consume rows allTracks = Some (map echo rows).
Proof.
  induction 1 as [|r rows (t & Ht & Hy) _ IH]; cbn; [reflexivity|].
  rewrite Ht, IH, Hy. reflexivity.
Qed.

Lemma rowAt_indexed allTracks t :
  (forall i u, nth_error allTracks i = Some u -> index u = Z.of_nat i) ->
  In t allTracks -> rowAt allTracks (index t) = Some t.
Proof.
  intros Hidx Hin. apply In_nth_error in Hin. destruct Hin as (n & Hn).
  unfold rowAt. rewrite (Hidx _ _ Hn).
  destruct (Z.ltb_spec (Z.of_nat n) 0); [lia|].
  now rewrite Nat2Z.id.
Qed.

(** X18.  When the index column of the track table is the position of the
    row, the table has at most 2^31 rows, so that every index fits in the
    [int] column [fIndex0], and the vertex finder is given rows of that
    table, the builder finds, for every row of the vertex finder, the first
    track of the pair again: the [y] it reads from the table is the row's
    [tracky0].  This carries over from one collision to the next. *)
Theorem builder_reads_back_tracky0 allTracks tracks st :
  (forall i t, nth_error allTracks i = Some t -> index t = Z.of_nat i) ->
  (Z.of_nat (List.length allTracks) <= 2147483648)%Z ->
  incl tracks allTracks ->
  readsBack allTracks (secvtx st) ->
  readsBack allTracks (secvtx (process tracks st)).
Proof.
  intros Hidx Hsize Hincl Hst.
  unfold readsBack, CandidateBuilder2Prong.process in *.
  destruct (CandidateBuilder2Prong.consume (secvtx st) allTracks) as [l0|] eqn:E0;
    [|discriminate].
  assert (l0 = map echo (secvtx st)) as -> by congruence.
  rewrite secvtx_process_visits.
  erewrite consume_app; [|exact E0|apply consume_echo].
  - now rewrite map_app.
  - unfold visits. apply Forall_map, Forall_flat_map, Forall_forall.
    intros f Hf. destruct (fitsOf_pair tracks f Hf) as (_ & H0 & _).
    eapply Forall_impl; [|apply rowFromPair_visitsOfFit].
    intros v (E0' & _ & Ey & _).
    exists (pairTrack0 (fitPair f)). split; [|now rewrite Ey].
    assert (Hin : In (pairTrack0 (fitPair f)) allTracks)
      by (apply Hincl; eapply nth_error_In; exact H0).
    rewrite E0', toInt_inIntRange; [now apply rowAt_indexed|].
    destruct (In_nth_error _ _ Hin) as (n & Hn).
    rewrite (Hidx _ _ Hn). unfold inIntRange.
    assert (n < List.length allTracks)%nat
      by (apply nth_error_Some; congruence).
    lia.
Qed.

End Runs.
(** *** The theorems at sample inputs *)

(** A track table of four rows whose index column is the position, and the
    three rows of it that belong to one collision. *)
Definition sampleAllTracks : list Track :=
  [sampleTrack 0 1 0.5; sampleTrack 1 2 0.25; sampleTrack 2 3 0.125;
   sampleTrack 3 4 0.0625].

Definition sampleCollisionTracks : list Track :=
  [sampleTrack 1 2 0.25; sampleTrack 2 3 0.125; sampleTrack 3 4 0.0625].

Lemma rows_bounded_by_pairs_witness :
  (forall p0 p1 df,
      (fst (@fitterProcess _ sampleFitter p0 p1 df) <= Z.of_nat 1)%Z)
  /\ (2 * List.length
            (secvtx (@process _ sampleFitter sampleCollisionTracks emptyState))
      <= 6)%nat.
Proof.
  assert (Hk : forall p0 p1 df,
             (fst (@fitterProcess _ sampleFitter p0 p1 df) <= Z.of_nat 1)%Z)
    by (intros p0 p1 df; cbn; lia).
  split; [exact Hk|].
  exact (@rows_bounded_by_pairs _ sampleFitter 1 sampleCollisionTracks
                                emptyState Hk).
Defined.

Lemma fewer_than_two_tracks_give_no_vertex_witness :
  (List.length [sampleTrack 10 1 0.5] < 2)%nat
  /\ secvtx (@process _ sampleFitter [sampleTrack 10 1 0.5] emptyState) = []
  /\ hvtx_x_out (@process _ sampleFitter [sampleTrack 10 1 0.5] emptyState)
     = [].
Proof.
  assert (Hn : (List.length [sampleTrack 10 1 0.5] < 2)%nat) by (cbn; lia).
  split; [exact Hn|].
  destruct (@fewer_than_two_tracks_give_no_vertex _ sampleFitter
              [sampleTrack 10 1 0.5] emptyState Hn) as (Hs & Hx & _).
  split; [exact Hs|exact Hx].
Defined.

Lemma builder_reads_back_tracky0_witness :
  (forall i t, nth_error sampleAllTracks i = Some t -> index t = Z.of_nat i)
  /\ (Z.of_nat (List.length sampleAllTracks) <= 2147483648)%Z
  /\ incl sampleCollisionTracks sampleAllTracks
  /\ readsBack sampleAllTracks (secvtx emptyState)
  /\ readsBack sampleAllTracks
       (secvtx (@process _ sampleFitter sampleCollisionTracks emptyState)).
Proof.
  assert (Hidx : forall i t, nth_error sampleAllTracks i = Some t ->
                             index t = Z.of_nat i).
  { intros [|[|[|[|i]]]] t H; cbn in H;
      try (destruct i; discriminate); injection H as <-; reflexivity. }
  assert (Hsize : (Z.of_nat (List.length sampleAllTracks) <= 2147483648)%Z)
    by (cbn; lia).
  assert (Hincl : incl sampleCollisionTracks sampleAllTracks)
    by (intros t Hin; cbn in *; tauto).
  assert (Hst : readsBack sampleAllTracks (secvtx emptyState))
    by reflexivity.
  split; [exact Hidx|]. split; [exact Hsize|]. split; [exact Hincl|].
  split; [exact Hst|].
  exact (@builder_reads_back_tracky0 _ sampleFitter sampleAllTracks
           sampleCollisionTracks emptyState Hidx Hsize Hincl Hst).
Defined.

End VertexerRuns.
